(** * mcp-hub: the connection orchestrator (class [MCPHub], MCPHub.js) and the
    cross-process workspace registry (class [WorkspaceCacheManager]), embedded
    in Rocq.

    JavaScript is modelled in a state-and-exception monad: a computation takes
    the current state and returns either a value or a thrown error, together
    with the state it leaves behind.  Unlike a transactional error monad, a
    throw keeps every mutation made before it, as in JavaScript.  Each
    [await] is a sequencing point; the external collaborators
    (ServerConnection, ConfigManager, the file system, the process table) are
    parameters of the development. *)

From stdpp Require Import base option list strings gmap.

Open Scope string_scope.
Open Scope list_scope.

(** ** JavaScript values and errors *)

Inductive JsVal :=
  | VUndefined
  | VBool (b : bool)
  | VNum (n : Z)
  | VStr (s : string).

(** The error classes the two files distinguish with [instanceof] or throw
    themselves. [ClsWrapped] is the generic error produced by [wrapError]. *)
Inductive ErrClass :=
  | ClsError
  | ClsConfigError
  | ClsServerError
  | ClsConnectionError
  | ClsTypeError
  | ClsSyntaxError
  | ClsWrapped.

Record JsError := mkError {
  err_class : ErrClass;
  err_code : option string;
  err_message : string;
  err_data : list (string * JsVal)
}.

#[global] Instance ErrClass_eq_dec : EqDecision ErrClass.
Proof. solve_decision. Defined.
#[global] Instance JsVal_eq_dec : EqDecision JsVal.
Proof. solve_decision. Defined.
#[global] Instance JsError_eq_dec : EqDecision JsError.
Proof. solve_decision. Defined.

(** [new Error(message)] *)
Definition new_Error (message : string) : JsError :=
  mkError ClsError None message [].

(** A Node system error, as [fs] rejects with: it carries [code]. *)
Definition SystemError (code message : string) : JsError :=
  mkError ClsError (Some code) message [].

(** Modelled from the spec: utils/errors.js is not among the sources. Section 7
    gives a ServerError as the error of a named server that was not found or of
    an absent routing target, carrying the server name and, when relevant, the
    tool name or uri; the constructor is called with a message and that data. *)
Definition ServerError (message : string) (data : list (string * JsVal)) : JsError :=
  mkError ClsServerError None message data.

(** Modelled from the spec: utils/errors.js is not among the sources. Section 7
    gives a ConfigError as the error of a malformed or missing configuration. *)
Definition ConfigError (message : string) (data : list (string * JsVal)) : JsError :=
  mkError ClsConfigError None message data.

(** [error instanceof ConfigError] *)
Definition instanceof_ConfigError (error : JsError) : bool :=
  bool_decide (err_class error = ClsConfigError).

(** Modelled from the spec: utils/errors.js is not among the sources. Section 7
    gives a ConfigError as never wrapped further, and the wrapped errors as
    generic errors carrying a machine-readable code and contextual fields plus
    the original error's message as diagnostic detail: [wrapError] hands a
    ConfigError back as it is and wraps every other error. *)
Definition wrapError_spec (error : JsError) (code : string)
    (data : list (string * JsVal)) : JsError :=
  if instanceof_ConfigError error
  then error
  else mkError ClsWrapped (Some code) (err_message error) data.

(** The [TypeError] of a property read on [undefined]. *)
Definition TypeError (message : string) : JsError :=
  mkError ClsTypeError None message [].

(** [x || fallback] on strings: the empty string is falsy. *)
Definition str_or (x fallback : string) : string :=
  if bool_decide (x = "") then fallback else x.

(** [error.code || fallback] *)
Definition code_or (error : JsError) (fallback : string) : string :=
  match err_code error with
  | Some c => str_or c fallback
  | None => fallback
  end.

(** ** The state-and-exception monad *)

Inductive Result (A : Type) :=
  | Ok (a : A)
  | Throw (e : JsError).
Arguments Ok {A} a.
Arguments Throw {A} e.

Definition M (S A : Type) : Type := S → Result A * S.

Definition ret {S A} (a : A) : M S A := λ s, (Ok a, s).
Definition throw {S A} (e : JsError) : M S A := λ s, (Throw e, s).
Definition bind {S A B} (m : M S A) (k : A → M S B) : M S B :=
  λ s, match m s with
       | (Ok a, s') => k a s'
       | (Throw e, s') => (Throw e, s')
       end.
Definition get {S} : M S S := λ s, (Ok s, s).
Definition modify {S} (f : S → S) : M S unit := λ s, (Ok tt, f s).

(** [try { m } catch (error) { h error }] *)
Definition try_catch {S A} (m : M S A) (h : JsError → M S A) : M S A :=
  λ s, match m s with
       | (Ok a, s') => (Ok a, s')
       | (Throw e, s') => h e s'
       end.

(** [try { m } finally { f }]: the outcome of [m] stands unless [f] throws. *)
Definition try_finally {S A} (m : M S A) (f : M S unit) : M S A :=
  λ s, match m s with
       | (r, s') =>
           match f s' with
           | (Ok _, s'') => (r, s'')
           | (Throw e, s'') => (Throw e, s'')
           end
       end.

Declare Scope js_scope.
Delimit Scope js_scope with js.
Notation "'let!' x ':=' m 'in' k" := (bind m (λ x, k))
  (at level 10, x name, m at level 100, k at level 200) : js_scope.
Notation "m >> k" := (bind m (λ _, k))
  (at level 100, k at level 200, right associativity) : js_scope.
Open Scope js_scope.

(** [for (const x of xs) { body x }] *)
Fixpoint for_of {S A} (xs : list A) (body : A → M S unit) : M S unit :=
  match xs with
  | [] => ret tt
  | x :: rest => body x >> for_of rest body
  end.

(** A settled promise, as [Promise.allSettled] reports it. *)
Inductive Settled (A : Type) :=
  | Fulfilled (value : A)
  | Rejected (reason : JsError).
Arguments Fulfilled {A} value.
Arguments Rejected {A} reason.

Definition settle {S A} (m : M S A) : M S (Settled A) :=
  λ s, match m s with
       | (Ok a, s') => (Ok (Fulfilled a), s')
       | (Throw e, s') => (Ok (Rejected e), s')
       end.

(** [await Promise.allSettled(xs.map(body))]: every branch runs to its end and
    its outcome is collected; no branch's failure reaches the caller. The
    branches are run one after the other, in the order of [xs]; nothing proved
    below depends on how their steps interleave. *)
Fixpoint allSettled {S A B} (xs : list A) (body : A → M S B) : M S (list (Settled B)) :=
  match xs with
  | [] => ret []
  | x :: rest =>
      let! r := settle (body x) in
      let! rs := allSettled rest body in
      ret (r :: rs)
  end.

(** ** A JavaScript [Map] with string keys: insertion-ordered, one entry per key *)

Module JsMap.
Section ops.
Context {V : Type}.

Fixpoint get (k : string) (m : list (string * V)) : option V :=
  match m with
  | [] => None
  | (k', v) :: rest => if decide (k = k') then Some v else get k rest
  end.

(** [set] keeps the position of an existing key and appends a new one. *)
Fixpoint set (k : string) (v : V) (m : list (string * V)) : list (string * V) :=
  match m with
  | [] => [(k, v)]
  | (k', v') :: rest =>
      if decide (k = k') then (k, v) :: rest else (k', v') :: set k v rest
  end.

(** [m[k] = f(m[k])] on the entry of an existing key. *)
Fixpoint alter (f : V → V) (k : string) (m : list (string * V)) : list (string * V) :=
  match m with
  | [] => []
  | (k', v) :: rest =>
      if decide (k = k') then (k', f v) :: rest else (k', v) :: alter f k rest
  end.

Definition keys (m : list (string * V)) : list string := m.*1.
Definition values (m : list (string * V)) : list V := m.*2.
Definition size (m : list (string * V)) : nat := length m.

End ops.
End JsMap.

(** ** MCPHub.js: the connection orchestrator *)

Module Hub.

(** One configured server: launch parameters, opaque to the hub, and the
    [disabled] flag. *)
Record ServerConfig := mkServerConfig {
  sc_params : string;
  disabled : bool
}.

(** The configuration document; [mcpServers] may be missing. *)
Record Config := mkConfig {
  mcpServers : option (list (string * ServerConfig))
}.

(** What the hub was constructed from, and what [updateConfig] is given. *)
Inductive ConfigInput :=
  | InPath (path : string)
  | InObject (config : option Config).

(** [typeof x === "string"] *)
Definition is_string (x : ConfigInput) : bool :=
  match x with InPath _ => true | InObject _ => false end.

(** Modelled from the spec: MCPConnection.js is not among the sources. Section 3
    gives a Connection a name, a current status and a server-info snapshot
    (status and capability summary) obtainable at any time; the object is
    constructed from a name and a server configuration. What its methods do
    is left to [Collaborators] below. *)
Record MCPConnection := mkConnection {
  conn_name : string;
  conn_config : ServerConfig;
  conn_status : string
}.

(** Modelled from the spec: the snapshot [getServerInfo()] returns, as in
    section 3; the capability summary is left out. *)
Record ServerInfo := mkServerInfo {
  si_name : string;
  si_status : string
}.

#[global] Instance ServerConfig_eq_dec : EqDecision ServerConfig.
Proof. solve_decision. Defined.
#[global] Instance MCPConnection_eq_dec : EqDecision MCPConnection.
Proof. solve_decision. Defined.
#[global] Instance MCPConnection_inhabited : Inhabited MCPConnection :=
  populate (mkConnection "" (mkServerConfig "" false) "").

(** What the orchestrator does that an observer can see, in order: log lines,
    the connection objects it constructs, its writes to the connection map, and
    its calls into the collaborators. Connection objects are named by their
    allocation index. *)
Inductive Event :=
  | LogStarting (count : nat)
  | LogSkippingDisabled (server : string)
  | LogInitializing (server : string)
  | LogDisconnecting (count : nat)
  | LogError (code message : string) (server : option string) (error : string)
  | NewConnection (id : nat) (name : string) (config : ServerConfig)
  | MapSet (name : string) (id : nat)
  | MapClear
  | CallConnect (id : nat)
  | CallDisconnect (id : nat)
  | CallStart (id : nat)
  | CallStop (id : nat) (disable : bool)
  | CallTool (id : nat) (tool : string) (args : JsVal)
  | CallReadResource (id : nat) (uri : string)
  | CallLoadConfig
  | CallWatchConfig
  | CallOnConfigChanged
  | CallUpdateConfig (input : ConfigInput).

(** Modelled from the spec: utils/config.js is not among the sources. Section 6
    gives the ConfigProvider [loadConfig], [getConfig] (the current in-memory
    document), [updateConfig] and [watchConfig] with a change event. The state
    kept here is the in-memory document, the documents handed to [updateConfig]
    that it accepted, whether a watch is on, and the change listeners. *)
Record ConfigManager := mkConfigManager {
  cm_source : ConfigInput;
  cm_config : option Config;
  cm_persisted : list (option Config);
  cm_watching : bool;
  cm_listeners : nat
}.

Record MCPHub := mkHub {
  connections : list (string * nat);
  heap : list MCPConnection;
  configManager : ConfigManager;
  shouldWatchConfig : bool;
  journal : list Event
}.

(** [new MCPHub(configPathOrObject, { watch })] *)
Definition constructor (configPathOrObject : ConfigInput) (watch : bool) : MCPHub :=
  mkHub [] [] (mkConfigManager configPathOrObject None [] false 0)
        (watch && is_string configPathOrObject) [].

Definition set_connections (f : list (string * nat) → list (string * nat)) (h : MCPHub) : MCPHub :=
  mkHub (f (connections h)) (heap h) (configManager h) (shouldWatchConfig h) (journal h).
Definition set_heap (f : list MCPConnection → list MCPConnection) (h : MCPHub) : MCPHub :=
  mkHub (connections h) (f (heap h)) (configManager h) (shouldWatchConfig h) (journal h).
Definition set_configManager (f : ConfigManager → ConfigManager) (h : MCPHub) : MCPHub :=
  mkHub (connections h) (heap h) (f (configManager h)) (shouldWatchConfig h) (journal h).
Definition emit (e : Event) : M MCPHub unit :=
  modify (λ h, mkHub (connections h) (heap h) (configManager h) (shouldWatchConfig h)
                     (journal h ++ [e])).

(** The collaborators the hub drives, none of which is among the sources. Each
    method of a ServerConnection is a computation over that connection's own
    state, told which object it runs on; the ConfigManager's fallible
    operations are given by their outcomes; [wrapError] is the helper of
    utils/errors.js. *)
Record Collaborators := mkCollaborators {
  initial_status : string → ServerConfig → string;
  connect : nat → M MCPConnection unit;
  disconnect : nat → M MCPConnection unit;
  start : nat → M MCPConnection ServerInfo;
  stop : nat → bool → M MCPConnection ServerInfo;
  conn_callTool : nat → string → JsVal → M MCPConnection JsVal;
  conn_readResource : nat → string → M MCPConnection JsVal;
  loadConfig_outcome : ConfigInput → Result (option Config);
  watchConfig_outcome : option JsError;
  updateConfig_outcome : ConfigInput → Result (option Config);
  wrapError : JsError → string → list (string * JsVal) → JsError
}.

Section orchestrator.
Variable env : Collaborators.

(** Modelled from the spec: [connection.getServerInfo()] is a pure read of the
    state the connection object holds (section 4.1). *)
Definition getServerInfo (c : MCPConnection) : ServerInfo :=
  mkServerInfo (conn_name c) (conn_status c).

(** Run a method of the connection object [id] on the heap. *)
Definition on_connection {A} (id : nat) (method : M MCPConnection A) : M MCPHub A :=
  λ h, match method (heap h !!! id) with
       | (r, c') => (r, set_heap (λ objs, <[id := c']> objs) h)
       end.

(** [new MCPConnection(name, config)] *)
Definition new_MCPConnection (name : string) (config : ServerConfig) : M MCPHub nat :=
  let! h := get in
  let id := length (heap h) in
  modify (set_heap (λ objs, objs ++ [mkConnection name config (initial_status env name config)])) >>
  emit (NewConnection id name config) >>
  ret id.

(** [this.connections.set(name, connection)] *)
Definition connections_set (name : string) (id : nat) : M MCPHub unit :=
  modify (set_connections (JsMap.set name id)) >> emit (MapSet name id).

(** [this.connections.get(name)] *)
Definition connections_get (name : string) : M MCPHub (option nat) :=
  let! h := get in ret (JsMap.get name (connections h)).

(** [this.configManager.getConfig()] *)
Definition getConfig : M MCPHub (option Config) :=
  let! h := get in ret (cm_config (configManager h)).

(** [Object.entries(config?.mcpServers || {})] *)
Definition configured_entries (config : option Config) : list (string * ServerConfig) :=
  match config with
  | Some c => default [] (mcpServers c)
  | None => []
  end.

(** The body of the loop of [startConfiguredServers] for one entry. *)
Definition start_entry (entry : string * ServerConfig) : M MCPHub unit :=
  let '(name, serverConfig) := entry in
  try_catch
    ((if disabled serverConfig
      then emit (LogSkippingDisabled name)
      else emit (LogInitializing name)) >>
     let! connection := new_MCPConnection name serverConfig in
     connections_set name connection >>
     emit (CallConnect connection) >>
     on_connection connection (connect env connection))
    (λ error,
       emit (LogError (code_or error "SERVER_START_ERROR") "Failed to start server"
                      (Some name) (err_message error))).

Definition startConfiguredServers : M MCPHub unit :=
  let! config := getConfig in
  let servers := configured_entries config in
  emit (LogStarting (length servers)) >>
  for_of servers start_entry.

(** [getAllServerStatuses()] *)
Definition getAllServerStatuses (h : MCPHub) : list ServerInfo :=
  (λ id, getServerInfo (heap h !!! id)) <$> JsMap.values (connections h).

(** *** The ConfigManager, as the hub calls it *)

Definition set_cm_config (c : option Config) (cm : ConfigManager) : ConfigManager :=
  mkConfigManager (cm_source cm) c (cm_persisted cm) (cm_watching cm) (cm_listeners cm).

(** Modelled from the spec: [await this.configManager.loadConfig()] makes the
    loaded document the in-memory one, or fails (section 6). *)
Definition cm_loadConfig : M MCPHub unit :=
  emit CallLoadConfig >>
  let! h := get in
  match loadConfig_outcome env (cm_source (configManager h)) with
  | Ok c => modify (set_configManager (set_cm_config c))
  | Throw e => throw e
  end.

(** Modelled from the spec: [this.configManager.watchConfig()] (section 6). *)
Definition cm_watchConfig : M MCPHub unit :=
  emit CallWatchConfig >>
  match watchConfig_outcome env with
  | None =>
      modify (set_configManager (λ cm,
        mkConfigManager (cm_source cm) (cm_config cm) (cm_persisted cm) true (cm_listeners cm)))
  | Some e => throw e
  end.

(** Modelled from the spec: [this.configManager.on("configChanged", handler)]
    adds a listener for the change event (section 6). *)
Definition cm_on_configChanged : M MCPHub unit :=
  emit CallOnConfigChanged >>
  modify (set_configManager (λ cm,
    mkConfigManager (cm_source cm) (cm_config cm) (cm_persisted cm) (cm_watching cm)
                    (S (cm_listeners cm)))).

(** Modelled from the spec: [await this.configManager.updateConfig(x)] parses
    and persists (sections 4.2 and 6); on success the accepted document becomes
    the in-memory one and is recorded as persisted. *)
Definition cm_updateConfig (x : ConfigInput) : M MCPHub unit :=
  emit (CallUpdateConfig x) >>
  match updateConfig_outcome env x with
  | Ok c =>
      modify (set_configManager (λ cm,
        mkConfigManager (cm_source cm) c (cm_persisted cm ++ [c])
                        (cm_watching cm) (cm_listeners cm)))
  | Throw e => throw e
  end.

(** [config.mcpServers?.[name]]: a [TypeError] when [config] is undefined.
    The lookup is that of the entries of the document. On a plain object the
    JavaScript expression also finds the members every object inherits
    ([constructor], [toString], ...): for those names without an entry of
    their own the model does not apply, and what is stated of names the
    configuration does not have excludes them
    (see [HubInvariant.Object_prototype_names]). *)
Definition lookup_server (config : option Config) (name : string) : M MCPHub (option ServerConfig) :=
  match config with
  | None => throw (TypeError "Cannot read properties of undefined (reading 'mcpServers')")
  | Some c => ret (mcpServers c ≫= JsMap.get name)
  end.

Definition with_disabled (v : bool) (sc : ServerConfig) : ServerConfig :=
  mkServerConfig (sc_params sc) v.

(** [serverConfig.disabled = v], where [serverConfig] is the entry for [name]
    inside the document the ConfigManager holds: the assignment is made in that
    shared document. *)
Definition assign_disabled (name : string) (v : bool) : M MCPHub unit :=
  modify (set_configManager (λ cm,
    set_cm_config
      ((λ c, mkConfig (JsMap.alter (with_disabled v) name <$> mcpServers c)) <$> cm_config cm)
      cm)).

(** *** The public operations *)

Definition initialize : M MCPHub unit :=
  try_catch
    (cm_loadConfig >>
     (let! h := get in
      if shouldWatchConfig h
      then cm_watchConfig >> cm_on_configChanged
      else ret tt) >>
     startConfiguredServers)
    (λ error,
       let! h := get in
       if negb (instanceof_ConfigError error)
       then throw (wrapError env error "HUB_INIT_ERROR"
                     [("watchEnabled", VBool (shouldWatchConfig h))])
       else throw error).

Definition startServer (name : string) : M MCPHub ServerInfo :=
  let! config := getConfig in
  let! serverConfig := lookup_server config name in
  match serverConfig with
  | None => throw (ServerError "Server not found" [("server", VStr name)])
  | Some serverConfig =>
      let! connection := connections_get name in
      match connection with
      | None => throw (ServerError "Server connection not found" [("server", VStr name)])
      | Some connection =>
          (if disabled serverConfig
           then assign_disabled name false >>
                let! config := getConfig in cm_updateConfig (InObject config)
           else ret tt) >>
          emit (CallStart connection) >>
          on_connection connection (start env connection)
      end
  end.

Definition stopServer (name : string) (disable : bool) : M MCPHub ServerInfo :=
  let! config := getConfig in
  let! serverConfig := lookup_server config name in
  match serverConfig with
  | None => throw (ServerError "Server not found" [("server", VStr name)])
  | Some serverConfig =>
      (if disable
       then assign_disabled name true >>
            let! config := getConfig in cm_updateConfig (InObject config)
       else ret tt) >>
      let! connection := connections_get name in
      match connection with
      | None => throw (ServerError "Server connection not found" [("server", VStr name)])
      | Some connection =>
          emit (CallStop connection disable) >>
          on_connection connection (stop env connection disable)
      end
  end.

Definition updateConfig (newConfigOrPath : ConfigInput) : M MCPHub unit :=
  try_catch
    (cm_updateConfig newConfigOrPath >> startConfiguredServers)
    (λ error,
       throw (wrapError env error "CONFIG_UPDATE_ERROR"
                [("isPathUpdate", VBool (is_string newConfigOrPath))])).

Definition connectServer (name : string) (config : ServerConfig) : M MCPHub ServerInfo :=
  let! connection := new_MCPConnection name config in
  connections_set name connection >>
  emit (CallConnect connection) >>
  on_connection connection (connect env connection) >>
  let! h := get in
  ret (getServerInfo (heap h !!! connection)).

Definition disconnectServer (name : string) : M MCPHub unit :=
  let! connection := connections_get name in
  match connection with
  | Some connection =>
      try_catch
        (emit (CallDisconnect connection) >>
         on_connection connection (disconnect env connection))
        (λ error,
           emit (LogError "SERVER_DISCONNECT_ERROR" "Error disconnecting server"
                          (Some name) (err_message error)))
      (* the entry stays in the connection map *)
  | None => ret tt
  end.

(** The callback of [results.forEach((result, index) => ...)]. *)
Definition log_rejected (indexed : nat * Settled unit) : M MCPHub unit :=
  let '(index, result) := indexed in
  match result with
  | Rejected reason =>
      let! h := get in
      let name := JsMap.keys (connections h) !! index in
      emit (LogError "SERVER_DISCONNECT_ERROR" "Failed to disconnect server during cleanup"
                     name (str_or (err_message reason) "Unknown error"))
  | Fulfilled _ => ret tt
  end.

Definition disconnectAll : M MCPHub unit :=
  let! h := get in
  emit (LogDisconnecting (JsMap.size (connections h))) >>
  let! results := allSettled (JsMap.keys (connections h)) disconnectServer in
  for_of (zip (seq 0 (length results)) results) log_rejected >>
  (* the map is cleared even if some disconnections failed *)
  modify (set_connections (λ _, [])) >>
  emit MapClear.

Definition getServerStatus (name : string) : M MCPHub ServerInfo :=
  let! connection := connections_get name in
  match connection with
  | None => throw (ServerError "Server not found" [("server", VStr name)])
  | Some connection =>
      let! h := get in ret (getServerInfo (heap h !!! connection))
  end.

Definition callTool (serverName toolName : string) (args : JsVal) : M MCPHub JsVal :=
  let! connection := connections_get serverName in
  match connection with
  | None =>
      throw (ServerError "Server not found"
               [("server", VStr serverName);
                ("operation", VStr "tool_call");
                ("tool", VStr toolName)])
  | Some connection =>
      emit (CallTool connection toolName args) >>
      on_connection connection (conn_callTool env connection toolName args)
  end.

Definition readResource (serverName uri : string) : M MCPHub JsVal :=
  let! connection := connections_get serverName in
  match connection with
  | None =>
      throw (ServerError "Server not found"
               [("server", VStr serverName);
                ("operation", VStr "resource_read");
                ("uri", VStr uri)])
  | Some connection =>
      emit (CallReadResource connection uri) >>
      on_connection connection (conn_readResource env connection uri)
  end.

(** *** What the loop of [startConfiguredServers] amounts to

    The journal and the connection map the loop produces, written as plain
    recursive functions of the configured entries; [start_entries_run] below
    proves that the loop computes them. *)

(** The connection object [new MCPConnection(name, config)] starts as. *)
Definition fresh_connection (name : string) (config : ServerConfig) : MCPConnection :=
  mkConnection name config (initial_status env name config).

(** The events of one turn of the loop, for the entry whose connection object
    gets index [id]. *)
Definition entry_events (id : nat) (name : string) (sc : ServerConfig) : list Event :=
  [ (if disabled sc then LogSkippingDisabled name else LogInitializing name);
    NewConnection id name sc; MapSet name id; CallConnect id ] ++
  match (connect env id (fresh_connection name sc)).1 with
  | Ok _ => []
  | Throw error =>
      [LogError (code_or error "SERVER_START_ERROR") "Failed to start server"
                (Some name) (err_message error)]
  end.

Fixpoint entries_events (next : nat) (servers : list (string * ServerConfig)) : list Event :=
  match servers with
  | [] => []
  | (name, sc) :: rest => entry_events next name sc ++ entries_events (S next) rest
  end.

Fixpoint entries_map (next : nat) (servers : list (string * ServerConfig))
    (m : list (string * nat)) : list (string * nat) :=
  match servers with
  | [] => m
  | (name, _) :: rest => entries_map (S next) rest (JsMap.set name next m)
  end.

End orchestrator.
End Hub.

(** ** WorkspaceCacheManager: the cross-process workspace registry *)

Module WorkspaceCache.

(** One row of the registry document. *)
Record WorkspaceEntry := mkEntry {
  pid : Z;
  port : Z;
  startTime : string
}.

#[global] Instance WorkspaceEntry_eq_dec : EqDecision WorkspaceEntry.
Proof. solve_decision. Defined.

(** What the cache file holds: the JSON text of a document (a JSON object
    whose values are rows, as section 6 gives the on-disk document), nothing
    at all, or text that [JSON.parse] rejects. JSON text of another shape (an
    array, [null], a number) is not among the contents modelled: what is
    proved ranges over these three kinds of content and a missing file. *)
Inductive FileContent :=
  | JsonText (doc : gmap string WorkspaceEntry)
  | EmptyText
  | Garbage (raw : string).

(** The ambient process state the manager reads: [process.cwd()],
    [process.pid] and the clock behind [new Date().toISOString()]. *)
Record Process := mkProcess {
  cwd : string;
  process_pid : Z;
  now_iso : string
}.

(** What another process does to the lock file while this one sleeps. *)
Inductive Neighbour :=
  | Idle
  | ReleasesLock
  | TakesLock (holder : Z).

(** What the manager does that an observer can see, in order: its log lines,
    the [fs] calls it issues (whether or not they succeed) and its sleeps. *)
Inductive Event :=
  | LogDebug (message : string)
  | LogInfo (message : string) (count : option nat)
  | LogError (code : string) (error : string)
  | Creat (holder : Z)
  | Unlink
  | ReadCache
  | WriteCache (content : FileContent)
  | Sleep (ms : nat).

(** The files the manager touches and the environment it runs in.
    [faults] lists, for each coming [fs] call in turn, the error it is to fail
    with, if any (an exhausted list means no more faults); [neighbours] lists
    what other processes do during each coming sleep. *)
Record World := mkWorld {
  cacheFile : option FileContent;
  lockFile : option Z;
  faults : list (option JsError);
  neighbours : list Neighbour;
  journal : list Event
}.

Definition emit (e : Event) : M World unit :=
  modify (λ w, mkWorld (cacheFile w) (lockFile w) (faults w) (neighbours w) (journal w ++ [e])).
Definition set_cacheFile (c : option FileContent) : M World unit :=
  modify (λ w, mkWorld c (lockFile w) (faults w) (neighbours w) (journal w)).
Definition set_lockFile (l : option Z) : M World unit :=
  modify (λ w, mkWorld (cacheFile w) l (faults w) (neighbours w) (journal w)).

(** Every [fs] call first meets the fault planned for it. *)
Definition next_fault : M World unit :=
  let! w := get in
  modify (λ w, mkWorld (cacheFile w) (lockFile w) (tail (faults w)) (neighbours w) (journal w)) >>
  match faults w with
  | Some e :: _ => throw e
  | _ => ret tt
  end.

(** [await fs.readFile(this.cacheFilePath, 'utf8')] *)
Definition fs_readFile : M World FileContent :=
  emit ReadCache >>
  next_fault >>
  let! w := get in
  match cacheFile w with
  | Some content => ret content
  | None => throw (SystemError "ENOENT" "no such file or directory")
  end.

(** [await fs.writeFile(this.cacheFilePath, content, 'utf8')] *)
Definition fs_writeFile (content : FileContent) : M World unit :=
  emit (WriteCache content) >>
  next_fault >>
  set_cacheFile (Some content).

(** [await fs.writeFile(this.lockFilePath, pid, { flag: 'wx' })]: exclusive
    creation, failing with [EEXIST] when the file is there. *)
Definition fs_writeFile_wx (holder : Z) : M World unit :=
  emit (Creat holder) >>
  next_fault >>
  let! w := get in
  match lockFile w with
  | Some _ => throw (SystemError "EEXIST" "file already exists")
  | None => set_lockFile (Some holder)
  end.

(** [await fs.unlink(this.lockFilePath)] *)
Definition fs_unlink : M World unit :=
  emit Unlink >>
  next_fault >>
  let! w := get in
  match lockFile w with
  | Some _ => set_lockFile None
  | None => throw (SystemError "ENOENT" "no such file or directory")
  end.

(** [await new Promise(resolve => setTimeout(resolve, ms))]: while this
    process sleeps, the next neighbour acts on the lock file. *)
Definition sleep (ms : nat) : M World unit :=
  emit (Sleep ms) >>
  let! w := get in
  modify (λ w, mkWorld (cacheFile w) (lockFile w) (faults w) (tail (neighbours w)) (journal w)) >>
  match neighbours w with
  | ReleasesLock :: _ => set_lockFile None
  | TakesLock holder :: _ =>
      match lockFile w with
      | None => set_lockFile (Some holder)
      | Some _ => ret tt
      end
  | _ => ret tt
  end.

(** [JSON.parse(content || '{}')], on the contents [FileContent] has. *)
Definition JSON_parse (content : FileContent) : M World (gmap string WorkspaceEntry) :=
  match content with
  | JsonText doc => ret doc
  | EmptyText => ret ∅
  | Garbage _ => throw (mkError ClsSyntaxError None "Unexpected token in JSON" [])
  end.

(** [JSON.stringify(cache, null, 2)] *)
Definition JSON_stringify (cache : gmap string WorkspaceEntry) : FileContent :=
  JsonText cache.

(** [error.code === code] *)
Definition has_code (error : JsError) (code : string) : bool :=
  bool_decide (err_code error = Some code).

Definition _readCache : M World (gmap string WorkspaceEntry) :=
  try_catch
    (let! content := fs_readFile in JSON_parse content)
    (λ error, if has_code error "ENOENT" then ret ∅ else throw error).

Definition _writeCache (cache : gmap string WorkspaceEntry) : M World unit :=
  let content := JSON_stringify cache in
  fs_writeFile content.

Definition maxRetries : nat := 10.
Definition retryDelay : nat := 50.

(** How one turn of the retry loop of [_withLock] ends. *)
Inductive Turn :=
  | Return
  | Continue.

(** The body of the loop of [_withLock]. *)
Definition lock_attempt (self : Process) (fn : M World unit) : M World Turn :=
  try_catch
    (fs_writeFile_wx (process_pid self) >>
     try_finally fn (try_catch fs_unlink (λ unlinkError, ret tt)) >>
     ret Return)
    (λ error,
       if has_code error "EEXIST"
       then sleep retryDelay >> ret Continue
       else throw error).

(** [for (let attempt = 0; attempt < maxRetries; attempt++)], by the number of
    attempts left. *)
Fixpoint lock_loop (self : Process) (fn : M World unit) (left : nat) : M World unit :=
  match left with
  | 0 => throw (new_Error "Failed to acquire lock after 10 attempts")
  | S left' =>
      let! turn := lock_attempt self fn in
      match turn with
      | Return => ret tt
      | Continue => lock_loop self fn left'
      end
  end.

Definition _withLock (self : Process) (fn : M World unit) : M World unit :=
  lock_loop self fn maxRetries.

Definition getWorkspaceKey (self : Process) : string := cwd self.

Definition register (self : Process) (port : Z) : M World unit :=
  let workspaceKey := getWorkspaceKey self in
  let entry := mkEntry (process_pid self) port (now_iso self) in
  try_catch
    (_withLock self
       (let! cache := _readCache in
        _writeCache (<[workspaceKey := entry]> cache)) >>
     emit (LogInfo "Registered workspace in cache" None))
    (λ error,
       emit (LogError "WORKSPACE_CACHE_REGISTER_ERROR" (err_message error)) >>
       throw error).

Definition deregister (self : Process) : M World unit :=
  let workspaceKey := getWorkspaceKey self in
  try_catch
    (_withLock self
       (let! cache := _readCache in
        if bool_decide (is_Some (cache !! workspaceKey))
        then _writeCache (delete workspaceKey cache)
        else ret tt) >>
     emit (LogInfo "Deregistered workspace from cache" None))
    (λ error,
       emit (LogError "WORKSPACE_CACHE_DEREGISTER_ERROR" (err_message error))).

Definition getActiveWorkspaces : M World (gmap string WorkspaceEntry) :=
  try_catch _readCache
    (λ error,
       emit (LogError "WORKSPACE_CACHE_READ_ERROR" (err_message error)) >>
       ret ∅).

Section cleanup.
(** [process.kill(pid, signal)] of the host: the error it throws, if any. *)
Variable process_kill : Z → Z → option JsError.

Definition _isProcessRunning (pid : Z) : M World bool :=
  match process_kill pid 0 with
  | None => ret true
  | Some error => ret false
  end.

(** The body of the loop of [cleanupStaleEntries], on the pair
    [(cleanedCache, removedCount)]. *)
Definition cleanup_step (acc : gmap string WorkspaceEntry * nat)
    (row : string * WorkspaceEntry) : M World (gmap string WorkspaceEntry * nat) :=
  let '(cleanedCache, removedCount) := acc in
  let '(workspaceKey, entry) := row in
  let! running := _isProcessRunning (pid entry) in
  if running
  then ret (<[workspaceKey := entry]> cleanedCache, removedCount)
  else emit (LogDebug "Removing stale workspace entry") >>
       ret (cleanedCache, S removedCount).

Fixpoint cleanup_loop (rows : list (string * WorkspaceEntry))
    (acc : gmap string WorkspaceEntry * nat) : M World (gmap string WorkspaceEntry * nat) :=
  match rows with
  | [] => ret acc
  | row :: rest =>
      let! acc' := cleanup_step acc row in
      cleanup_loop rest acc'
  end.

(** The critical section of [cleanupStaleEntries]. [Object.entries(cache)] is
    [map_to_list cache]: each row once, in an order that plays no part. *)
Definition cleanup_section : M World unit :=
  let! cache := _readCache in
  let! result := cleanup_loop (map_to_list cache) (∅, 0) in
  let '(cleanedCache, removedCount) := result in
  if bool_decide (0 < removedCount)
  then _writeCache cleanedCache >>
       emit (LogInfo "Cleaned up stale workspace entries" (Some removedCount))
  else ret tt.

Definition cleanupStaleEntries (self : Process) : M World unit :=
  try_catch
    (_withLock self cleanup_section)
    (λ error,
       emit (LogError "WORKSPACE_CACHE_CLEANUP_ERROR" (err_message error))).

End cleanup.
End WorkspaceCache.

(** ** Sample inputs and the claims failing as stated *)

Module HubSamples.
Import Hub.

(** Collaborators for concrete runs: [connect] fails for the servers named in
    [failing], every [disconnect] fails, a configuration given as a path is
    rejected as malformed, and [wrapError] is the one of the spec. *)
Definition sample_env (failing : list string) : Collaborators :=
  mkCollaborators
    (λ _ _, "connecting")
    (λ _ c, if bool_decide (conn_name c ∈ failing)
            then (Throw (mkError ClsConnectionError None "connection refused" []),
                  mkConnection (conn_name c) (conn_config c) "error")
            else (Ok tt, mkConnection (conn_name c) (conn_config c)
                           (if disabled (conn_config c) then "disabled" else "connected")))
    (λ _ c, (Throw (mkError ClsConnectionError None "transport closed" []), c))
    (λ _ c, (Ok (mkServerInfo (conn_name c) "connected"),
             mkConnection (conn_name c) (conn_config c) "connected"))
    (λ _ _ c, (Ok (mkServerInfo (conn_name c) "disconnected"),
               mkConnection (conn_name c) (conn_config c) "disconnected"))
    (λ _ tool args c, (Ok (VStr tool), c))
    (λ _ uri c, (Throw (mkError ClsConnectionError None "no such resource" []), c))
    (λ x, match x with
          | InObject c => Ok c
          | InPath _ => Throw (ConfigError "Invalid config" [])
          end)
    None
    (λ x, match x with
          | InObject c => Ok c
          | InPath _ => Throw (ConfigError "Invalid config" [])
          end)
    wrapError_spec.

Definition two_servers : option Config :=
  Some (mkConfig (Some [("alpha", mkServerConfig "npx alpha" false);
                        ("beta", mkServerConfig "npx beta" true)])).

(** A hub constructed from a path, with watching asked for. *)
Definition path_hub : MCPHub := constructor (InPath "mcp-servers.json") true.

(** A hub whose configuration is loaded and whose servers are not started. *)
Definition loaded_hub : MCPHub :=
  (cm_loadConfig (sample_env []) (constructor (InObject two_servers) false)).2.

(** A hub built from [two_servers] and initialized, [beta] failing to connect. *)
Definition initialized_hub : MCPHub :=
  (initialize (sample_env ["beta"]) (constructor (InObject two_servers) false)).2.

(** The same hub after [connectServer("adhoc", ...)]. *)
Definition hub_with_adhoc : MCPHub :=
  (connectServer (sample_env ["beta"]) "adhoc" (mkServerConfig "npx adhoc" false)
                 initialized_hub).2.

(** C1 as stated: after [startConfiguredServers], [getAllServerStatuses]
    has exactly as many entries as the configuration has servers. *)
Definition statuses_are_exactly_the_configured : Prop :=
  ∀ (env : Collaborators) (h h' : MCPHub),
    NoDup (configured_entries (cm_config (configManager h))).*1 →
    startConfiguredServers env h = (Ok tt, h') →
    length (getAllServerStatuses h') =
    length (configured_entries (cm_config (configManager h))).
End HubSamples.

Module HubClaims.
Import Hub.
(** C3 as stated: when the connect of a replacement fails, the entry for the
    name is still the previous handle. *)
Definition failed_connect_keeps_previous_handle : Prop :=
  ∀ (env : Collaborators) (h h' : MCPHub) (name : string) (config : ServerConfig)
    (previous : nat) (error : JsError),
    JsMap.get name (connections h) = Some previous →
    connectServer env name config h = (Throw error, h') →
    JsMap.get name (connections h') = Some previous.
End HubClaims.

Module HubFacadeSpec.
Import Hub.
(** The failure of the [try] block of [initialize], if any: [loadConfig]
    fails, or watching was asked for and [watchConfig] fails;
    [startConfiguredServers] never throws. *)
Definition init_failure (env : Collaborators) (h : MCPHub) : option JsError :=
  match loadConfig_outcome env (cm_source (configManager h)) with
  | Throw e => Some e
  | Ok _ => if shouldWatchConfig h then watchConfig_outcome env else None
  end.

End HubFacadeSpec.

(** ** Specification vocabulary for the registry *)

Module CacheSpec.
Import WorkspaceCache.
(** The document [_readCache] yields for a cache file, when it yields one: a
    missing or empty file reads as the empty document. *)
Definition readable (file : option FileContent) : option (gmap string WorkspaceEntry) :=
  match file with
  | None => Some ∅
  | Some EmptyText => Some ∅
  | Some (JsonText doc) => Some doc
  | Some (Garbage _) => None
  end.

(** The next [fs] call meets no planned fault. *)
Definition no_fault_next (w : World) : Prop :=
  match faults w with
  | Some _ :: _ => False
  | _ => True
  end.

(** The world right after this process created the lock file. *)
Definition lock_created (self : Process) (w : World) : World :=
  mkWorld (cacheFile w) (Some (process_pid self)) (tail (faults w)) (neighbours w)
          (journal w ++ [Creat (process_pid self)]).
End CacheSpec.

Module CacheFrame.
Import WorkspaceCache.
Definition is_write (e : Event) : bool :=
  match e with WriteCache _ => true | _ => false end.

(** [w'] differs from [w] in the lock file, the plans of the environment and
    journal entries [evs] that are not writes of the cache file. *)
Definition framed (w w' : World) (evs : list Event) : Prop :=
  cacheFile w' = cacheFile w ∧
  journal w' = journal w ++ evs ∧
  Forall (λ e, is_write e = false) evs.
End CacheFrame.

Module CacheProbe.
Import WorkspaceCache CacheSpec CacheFrame.
Section probe.
Variable process_kill : Z → Z → option JsError.

(** A row passes the probe of [_isProcessRunning] when
    [process.kill(pid, 0)] returns without throwing. That is the verdict of
    the code, not liveness: see [Host.alive] for the latter. *)
Definition probe_passes (row : string * WorkspaceEntry) : Prop :=
  process_kill (pid row.2) 0 = None.

(** The rows of a document that pass the probe. *)
Definition passing_rows (doc : gmap string WorkspaceEntry) : gmap string WorkspaceEntry :=
  filter probe_passes doc.

(** Some row of the document is refused by the probe. *)
Definition has_refused (doc : gmap string WorkspaceEntry) : Prop :=
  ∃ k e, doc !! k = Some e ∧ process_kill (pid e) 0 ≠ None.

(** One turn of the loop of [cleanupStaleEntries] on its accumulator, without
    the logging. *)
Definition sift (acc : gmap string WorkspaceEntry * nat) (row : string * WorkspaceEntry)
    : gmap string WorkspaceEntry * nat :=
  if decide (probe_passes row)
  then (<[row.1 := row.2]> acc.1, acc.2)
  else (acc.1, S acc.2).

(** What holds of the world all along a cleanup that started in [w0]: the
    journal has only grown, every write of the cache file issued since wrote
    the rows of the document of [w0] that pass the probe and was issued
    because some row was refused, and the cache file is as it was or holds
    exactly the passing rows. *)
Definition cleanup_inv (w0 w : World) : Prop :=
  let doc0 := default ∅ (readable (cacheFile w0)) in
  ∃ evs,
    journal w = journal w0 ++ evs ∧
    Forall (λ e, is_write e = true →
                 e = WriteCache (JsonText (passing_rows doc0)) ∧ has_refused doc0) evs ∧
    (cacheFile w = cacheFile w0 ∨
     (cacheFile w = Some (JsonText (passing_rows doc0)) ∧ has_refused doc0)).
End probe.
End CacheProbe.

Module CacheSamples.
Import WorkspaceCache.

Definition this_process : Process :=
  mkProcess "/home/dev/project" 4242 "2024-05-01T10:00:00.000Z".

(** Two registered workspaces; the hub of the second one is gone. *)
Definition sample_doc : gmap string WorkspaceEntry :=
  <["/home/dev/other" := mkEntry 100 3001 "2024-04-30T08:00:00.000Z"]>
    (<["/home/dev/gone" := mkEntry 200 3002 "2024-04-29T17:30:00.000Z"]> ∅).

(** A process table in which pid 200 does not exist. *)
Definition sample_kill (pid signal : Z) : option JsError :=
  if bool_decide (pid = 200%Z) then Some (SystemError "ESRCH" "kill ESRCH") else None.

(** The registry at rest, held by another process, and with a lock file that
    cannot be created. *)
Definition free_world : World := mkWorld (Some (JsonText sample_doc)) None [] [] [].
Definition held_world : World := mkWorld (Some (JsonText sample_doc)) (Some 999%Z) [] [] [].
Definition denied_world : World :=
  mkWorld (Some (JsonText sample_doc)) None
          [Some (SystemError "EACCES" "permission denied")] [] [].
End CacheSamples.

(** ** The processes of the host *)

Module Host.
(** The process table: for each pid that denotes a process, the user it runs
    as. *)
Definition ProcessTable : Type := gmap Z Z.

(** [pid] denotes a live process. *)
Definition alive (table : ProcessTable) (pid : Z) : Prop := is_Some (table !! pid).

#[global] Instance alive_dec (table : ProcessTable) (pid : Z) : Decision (alive table pid).
Proof. unfold alive. apply _. Defined.

(** [process.kill(pid, 0)] called by a process of user [caller], for the pid
    of a single process: the probe throws ESRCH when no process has the pid,
    throws EPERM when the process runs as another user and the caller is not
    the superuser, and returns otherwise. No signal is sent. *)
Definition kill (table : ProcessTable) (caller : Z) (pid signal : Z) : option JsError :=
  match table !! pid with
  | None => Some (SystemError "ESRCH" "kill ESRCH")
  | Some owner =>
      if bool_decide (caller = 0%Z ∨ caller = owner)
      then None
      else Some (SystemError "EPERM" "kill EPERM")
  end.
End Host.

Module CacheClaims.
Import WorkspaceCache CacheSpec.
(** C7 as stated, for its live rows: after [cleanupStaleEntries] on a registry
    at rest, every row whose pid denotes a live process is still there,
    unchanged. *)
Definition cleanup_leaves_every_live_row : Prop :=
  ∀ (table : Host.ProcessTable) (caller : Z) (self : Process) (w : World)
    (doc : gmap string WorkspaceEntry) (k : string) (e : WorkspaceEntry),
    lockFile w = None → faults w = [] → readable (cacheFile w) = Some doc →
    doc !! k = Some e → Host.alive table (pid e) →
    default ∅ (readable (cacheFile (cleanupStaleEntries (Host.kill table caller) self w).2))
      !! k = Some e.
End CacheClaims.

Module HostSamples.
Import WorkspaceCache CacheSamples.
(** A host on which user 1000 runs the hub of [this_process] and the
    superuser runs another hub, pid 777. *)
Definition shared_host : Host.ProcessTable :=
  <[777%Z := 0%Z]> (<[4242%Z := 1000%Z]> ∅).

(** The registry both hubs are registered in, and a third row whose hub is
    gone. *)
Definition shared_doc : gmap string WorkspaceEntry :=
  <["/srv/admin" := mkEntry 777 3003 "2024-05-01T09:00:00.000Z"]>
    (<["/home/dev/project" := mkEntry 4242 37373 "2024-05-01T10:00:00.000Z"]>
       (<["/home/dev/gone" := mkEntry 200 3002 "2024-04-29T17:30:00.000Z"]> ∅)).

Definition shared_world : World := mkWorld (Some (JsonText shared_doc)) None [] [] [].
End HostSamples.

(** ** Specification vocabulary for the connection map *)

Module HubInvariant.
Import Hub.
(** The connection map names each server once and every handle it holds is a
    connection object that was constructed. *)
Definition handles_valid (h : MCPHub) : Prop :=
  NoDup (JsMap.keys (connections h)) ∧
  Forall (λ entry, entry.2 < length (heap h)) (connections h).

(** [h'] holds the same connection map as [h] and as many connection objects. *)
Definition same_handles (h h' : MCPHub) : Prop :=
  connections h' = connections h ∧ length (heap h') = length (heap h).

(** The property names a plain object inherits from [Object.prototype]: the
    lookup [config.mcpServers?.[name]] finds a value under each of them even
    when the document has no such entry. *)
Definition Object_prototype_names : list string :=
  ["constructor"; "__defineGetter__"; "__defineSetter__"; "hasOwnProperty";
   "__lookupGetter__"; "__lookupSetter__"; "isPrototypeOf"; "propertyIsEnumerable";
   "toString"; "valueOf"; "__proto__"; "toLocaleString"].
End HubInvariant.

Module HubMoreSamples.
Import Hub HubSamples.
(** The collaborators of [sample_env], with a ConfigManager that cannot
    persist anything. *)
Definition readonly_env : Collaborators :=
  mkCollaborators
    (initial_status (sample_env []))
    (connect (sample_env []))
    (disconnect (sample_env []))
    (start (sample_env []))
    (stop (sample_env []))
    (conn_callTool (sample_env []))
    (conn_readResource (sample_env []))
    (loadConfig_outcome (sample_env []))
    None
    (λ _, Throw (SystemError "EROFS" "read-only file system"))
    wrapError_spec.

Definition two_servers_config : Config :=
  mkConfig (Some [("alpha", mkServerConfig "npx alpha" false);
                  ("beta", mkServerConfig "npx beta" true)]).
End HubMoreSamples.

(** ** The critical sections of the registry, by name *)

Module CacheSections.
Import WorkspaceCache.
(** The critical section of [register]. *)
Definition register_section (workspaceKey : string) (entry : WorkspaceEntry) : M World unit :=
  let! cache := _readCache in
  _writeCache (<[workspaceKey := entry]> cache).

(** The critical section of [deregister]. *)
Definition deregister_section (workspaceKey : string) : M World unit :=
  let! cache := _readCache in
  if bool_decide (is_Some (cache !! workspaceKey))
  then _writeCache (delete workspaceKey cache)
  else ret tt.
End CacheSections.

(** ** WorkspaceCacheManager: start-up, the file watcher and shutdown *)

Module CacheManager.
Import WorkspaceCache.

(** [await fs.mkdir(stateDir, { recursive: true })]: the state directory is
    not part of the world, so all the call can do is fail. *)
Definition fs_mkdir : M World unit := next_fault.

(** [await fs.access(this.cacheFilePath)] *)
Definition fs_access : M World unit :=
  next_fault >>
  let! w := get in
  match cacheFile w with
  | Some _ => ret tt
  | None => throw (SystemError "ENOENT" "no such file or directory")
  end.

Definition _ensureCacheFile : M World unit :=
  try_catch fs_access
    (λ error, if has_code error "ENOENT" then _writeCache ∅ else throw error).

Definition initialize : M World unit :=
  try_catch
    (fs_mkdir >>
     _ensureCacheFile >>
     emit (LogDebug "WorkspaceCacheManager initialized"))
    (λ error,
       emit (LogError "WORKSPACE_CACHE_INIT_ERROR" (err_message error)) >>
       throw error).

(** A listener of ['workspacesUpdated']: called with the document, it returns
    or throws. *)
Record Listener := mkListener {
  listener_id : nat;
  listener_call : gmap string WorkspaceEntry → option JsError
}.

(** The manager object in its environment: the files, [this.watcher] (a
    watcher handle or [null]), [this.isWatching], the listeners of the
    EventEmitter in the order they were added, the calls they have received,
    and chokidar: how many watchers it has handed out, which of them are open
    and, for each coming call of [watch] or [close] in turn, the error it is
    to fail with, if any. *)
Record Manager := mkManager {
  world : World;
  watcher : option nat;
  isWatching : bool;
  listeners : list Listener;
  heard : list (nat * gmap string WorkspaceEntry);
  chokidar_made : nat;
  chokidar_open : list nat;
  chokidar_faults : list (option JsError)
}.

Definition constructor (w : World) (plan : list (option JsError)) : Manager :=
  mkManager w None false [] [] 0 [] plan.

Definition in_world {A} (f : M World A) : M Manager A :=
  λ m, match f (world m) with
       | (r, w') =>
           (r, mkManager w' (watcher m) (isWatching m) (listeners m) (heard m)
                         (chokidar_made m) (chokidar_open m) (chokidar_faults m))
       end.

Definition log (e : Event) : M Manager unit := in_world (emit e).

Definition set_watcher (x : option nat) : M Manager unit :=
  modify (λ m, mkManager (world m) x (isWatching m) (listeners m) (heard m)
                         (chokidar_made m) (chokidar_open m) (chokidar_faults m)).
Definition set_isWatching (b : bool) : M Manager unit :=
  modify (λ m, mkManager (world m) (watcher m) b (listeners m) (heard m)
                         (chokidar_made m) (chokidar_open m) (chokidar_faults m)).

Definition chokidar_fault : M Manager unit :=
  let! m := get in
  modify (λ m, mkManager (world m) (watcher m) (isWatching m) (listeners m) (heard m)
                         (chokidar_made m) (chokidar_open m) (tail (chokidar_faults m))) >>
  match chokidar_faults m with
  | Some e :: _ => throw e
  | _ => ret tt
  end.

(** [chokidar.watch(this.cacheFilePath, {...})]: a new open watcher. *)
Definition chokidar_watch : M Manager nat :=
  chokidar_fault >>
  let! m := get in
  modify (λ m, mkManager (world m) (watcher m) (isWatching m) (listeners m) (heard m)
                         (S (chokidar_made m)) (chokidar_open m ++ [chokidar_made m])
                         (chokidar_faults m)) >>
  ret (chokidar_made m).

(** [await watcher.close()]; a close that rejects leaves the watcher open. *)
Definition chokidar_close (handle : nat) : M Manager unit :=
  chokidar_fault >>
  modify (λ m, mkManager (world m) (watcher m) (isWatching m) (listeners m) (heard m)
                         (chokidar_made m) (filter (λ n, n ≠ handle) (chokidar_open m))
                         (chokidar_faults m)).

(** [emitter.on('workspacesUpdated', listener)] *)
Definition on_workspacesUpdated (l : Listener) : M Manager unit :=
  modify (λ m, mkManager (world m) (watcher m) (isWatching m) (listeners m ++ [l]) (heard m)
                         (chokidar_made m) (chokidar_open m) (chokidar_faults m)).

(** One listener called by [emit]. *)
Definition call_listener (workspaces : gmap string WorkspaceEntry) (l : Listener)
    : M Manager unit :=
  modify (λ m, mkManager (world m) (watcher m) (isWatching m) (listeners m)
                         (heard m ++ [(listener_id l, workspaces)])
                         (chokidar_made m) (chokidar_open m) (chokidar_faults m)) >>
  match listener_call l workspaces with
  | Some e => throw e
  | None => ret tt
  end.

(** [this.emit('workspacesUpdated', workspaces)]: the listeners are called one
    after the other, in the order they were added; one that throws ends the
    call with its error. *)
Definition emit_workspacesUpdated (workspaces : gmap string WorkspaceEntry)
    : M Manager unit :=
  let! m := get in
  for_of (listeners m) (call_listener workspaces).

(** [this.removeAllListeners()] *)
Definition removeAllListeners : M Manager unit :=
  modify (λ m, mkManager (world m) (watcher m) (isWatching m) [] (heard m)
                         (chokidar_made m) (chokidar_open m) (chokidar_faults m)).

(** The handler [startWatching] attaches to ['change']. *)
Definition on_change : M Manager unit :=
  try_catch
    (let! workspaces := in_world _readCache in
     emit_workspacesUpdated workspaces >>
     log (LogDebug "Workspace cache updated"))
    (λ error, log (LogError "WORKSPACE_CACHE_WATCH_ERROR" (err_message error))).

(** The handler [startWatching] attaches to ['error']. *)
Definition on_error (error : JsError) : M Manager unit :=
  log (LogError "WORKSPACE_CACHE_WATCH_ERROR" (err_message error)).

(** The two handlers are attached to the watcher right after its creation:
    whatever is open carries them (see [cache_file_changed]). *)
Definition startWatching : M Manager unit :=
  let! m := get in
  if isWatching m then ret tt
  else
    try_catch
      (let! handle := chokidar_watch in
       set_watcher (Some handle) >>
       set_isWatching true >>
       log (LogDebug "Started watching workspace cache file"))
      (λ error,
         log (LogError "WORKSPACE_CACHE_WATCH_START_ERROR" (err_message error)) >>
         throw error).

Definition stopWatching : M Manager unit :=
  let! m := get in
  match isWatching m, watcher m with
  | true, Some handle =>
      try_catch
        (chokidar_close handle >>
         set_watcher None >>
         set_isWatching false >>
         log (LogDebug "Stopped watching workspace cache file"))
        (λ error, log (LogError "WORKSPACE_CACHE_WATCH_STOP_ERROR" (err_message error)))
  | _, _ => ret tt
  end.

Definition shutdown (self : Process) : M Manager unit :=
  stopWatching >>
  in_world (deregister self) >>
  removeAllListeners >>
  log (LogDebug "WorkspaceCacheManager shutdown complete").

(** What chokidar does when the cache file has changed: the ['change'] handler
    of every open watcher runs. *)
Definition cache_file_changed : M Manager unit :=
  let! m := get in
  for_of (chokidar_open m) (λ _, on_change).

(** What chokidar does when watching fails: the ['error'] handler of every
    open watcher runs. *)
Definition watcher_failed (error : JsError) : M Manager unit :=
  let! m := get in
  for_of (chokidar_open m) (λ _, on_error error).

End CacheManager.

Module CacheManagerSpec.
Import WorkspaceCache CacheManager.

(** No planned fault carries the code [code]. *)
Definition no_fault_coded (code : string) (w : World) : Prop :=
  ∀ e, Some e ∈ faults w → has_code e code = false.

(** The watcher the manager holds is the one open watcher, and the manager
    says it is watching exactly when it holds one. *)
Definition one_watcher (m : Manager) : Prop :=
  chokidar_open m = option_list (watcher m) ∧
  (isWatching m = true ↔ is_Some (watcher m)).

(** [m'] holds the same watcher, flag, open watchers and listeners as [m]. *)
Definition same_watch (m m' : Manager) : Prop :=
  watcher m' = watcher m ∧ isWatching m' = isWatching m ∧
  chokidar_open m' = chokidar_open m ∧ listeners m' = listeners m.

(** The calls [emit] makes on the listeners [ls]: up to the first that
    throws, that one included. *)
Fixpoint reached (workspaces : gmap string WorkspaceEntry) (ls : list Listener)
    : list Listener :=
  match ls with
  | [] => []
  | l :: rest =>
      match listener_call l workspaces with
      | Some _ => [l]
      | None => l :: reached workspaces rest
      end
  end.

(** The error [emit] ends with, if any: that of the first listener to throw. *)
Definition first_failure (workspaces : gmap string WorkspaceEntry) (ls : list Listener)
    : option JsError :=
  list_find (λ l, is_Some (listener_call l workspaces)) ls ≫= λ found,
  listener_call found.2 workspaces.

Definition calls (workspaces : gmap string WorkspaceEntry) (ls : list Listener)
    : list (nat * gmap string WorkspaceEntry) :=
  map (λ l, (listener_id l, workspaces)) ls.
End CacheManagerSpec.

Module CacheManagerSamples.
Import WorkspaceCache CacheManager CacheSamples.

(** A second hub started in the directory of [this_process]. *)
Definition second_process : Process :=
  mkProcess "/home/dev/project" 4343 "2024-05-01T11:00:00.000Z".

(** The registry held by another process that lets go during the third wait. *)
Definition released_world : World :=
  mkWorld (Some (JsonText sample_doc)) (Some 999%Z) [] [Idle; Idle; ReleasesLock] [].

(** A listener that accepts every document, and one that throws. *)
Definition quiet_listener : Listener := mkListener 1 (λ _, None).
Definition failing_listener : Listener :=
  mkListener 2 (λ _, Some (new_Error "listener failed")).

(** A manager over the registry at rest, watching, with the two listeners;
    the close of its watcher is going to fail. *)
Definition watching_manager : Manager :=
  mkManager free_world (Some 0) true [quiet_listener; failing_listener] [] 1 [0]
            [Some (new_Error "close failed")].

(** A manager that was never asked to watch, with one listener. *)
Definition idle_manager : Manager :=
  mkManager free_world None false [quiet_listener] [] 0 [] [].
End CacheManagerSamples.

(** * Facts about lists *)

Lemma filter_ext_on {A} (P Q : A → Prop) `{!∀ x, Decision (P x)} `{!∀ x, Decision (Q x)}
    (l : list A) :
  (∀ x, x ∈ l → P x ↔ Q x) → filter P l = filter Q l.
Proof.
  induction l as [|x l IH]; intros Hext; [done|].
  rewrite !filter_cons. rewrite IH by (intros y Hy; apply Hext; by right).
  assert (P x ↔ Q x) as Hx by (apply Hext; left).
  destruct (decide (P x)) as [HP|HP], (decide (Q x)) as [HQ|HQ]; tauto.
Qed.

Lemma filter_all_on {A} (P : A → Prop) `{!∀ x, Decision (P x)} (l : list A) :
  (∀ x, x ∈ l → P x) → filter P l = l.
Proof.
  induction l as [|x l IH]; intros Hall; [done|].
  rewrite filter_cons, decide_True by (apply Hall; left).
  rewrite IH; [done|]. intros y Hy. apply Hall. by right.
Qed.

(** * Facts about [JsMap] *)

Section jsmap_facts.
Context {V : Type}.
Implicit Types (m : list (string * V)) (k : string) (v : V).

Lemma jsmap_get_set_eq m k v : JsMap.get k (JsMap.set k v m) = Some v.
Proof.
  induction m as [|[k' v'] m IH]; simpl.
  - by rewrite decide_True.
  - destruct (decide (k = k')) as [->|Hne]; simpl.
    + by rewrite decide_True.
    + by rewrite decide_False.
Qed.

Lemma jsmap_get_set_ne m k k' v : k ≠ k' → JsMap.get k' (JsMap.set k v m) = JsMap.get k' m.
Proof.
  intros Hne. induction m as [|[k0 v0] m IH]; simpl.
  - by rewrite decide_False.
  - destruct (decide (k = k0)) as [->|Hk]; simpl.
    + by rewrite !decide_False.
    + destruct (decide (k' = k0)); done.
Qed.

Lemma jsmap_get_None m k : JsMap.get k m = None ↔ k ∉ JsMap.keys m.
Proof.
  unfold JsMap.keys. induction m as [|[k' v'] m IH]; simpl.
  - split; [intros _; apply not_elem_of_nil | done].
  - rewrite not_elem_of_cons. destruct (decide (k = k')) as [->|Hne].
    + split; [done | intros [? _]; done].
    + rewrite IH. tauto.
Qed.

Lemma jsmap_keys_set m k v :
  JsMap.keys (JsMap.set k v m) =
  if decide (k ∈ JsMap.keys m) then JsMap.keys m else JsMap.keys m ++ [k].
Proof.
  unfold JsMap.keys. induction m as [|[k' v'] m IH]; csimpl.
  - done.
  - destruct (decide (k = k')) as [->|Hne]; csimpl.
    + rewrite decide_True; [done | left].
    + rewrite IH. destruct (decide (k ∈ m.*1)) as [Hin|Hnin].
      * rewrite decide_True; [done | by right].
      * rewrite decide_False; [done |]. rewrite not_elem_of_cons. tauto.
Qed.

Lemma jsmap_length_values m : length (JsMap.values m) = length (JsMap.keys m).
Proof. unfold JsMap.values, JsMap.keys. by rewrite !length_fmap. Qed.

End jsmap_facts.

(** * Properties of the orchestrator *)

Ltac hub_step :=
  cbv beta iota zeta delta
    [bind ret throw get modify try_catch try_finally settle
     Hub.start_entry Hub.new_MCPConnection Hub.connections_set Hub.connections_get
     Hub.on_connection Hub.emit Hub.set_heap Hub.set_connections Hub.set_configManager
     Hub.getConfig Hub.heap Hub.connections Hub.configManager Hub.shouldWatchConfig
     Hub.journal fst snd].

Section bulk_start_loop.
Import Hub.
Variable env : Collaborators.

Lemma heap_store_fresh (objs : list MCPConnection) (c c' : MCPConnection) :
  (objs ++ [c]) !!! length objs = c ∧ <[length objs := c']> (objs ++ [c]) = objs ++ [c'].
Proof.
  split.
  - apply list_lookup_total_correct. by rewrite list_lookup_middle.
  - rewrite insert_app_r_alt by lia. by rewrite Nat.sub_diag.
Qed.

Lemma start_entry_run (name : string) (sc : ServerConfig) (h : MCPHub) :
  ∃ h', start_entry env (name, sc) h = (Ok tt, h') ∧
        connections h' = JsMap.set name (length (heap h)) (connections h) ∧
        length (heap h') = S (length (heap h)) ∧
        configManager h' = configManager h ∧
        shouldWatchConfig h' = shouldWatchConfig h ∧
        journal h' = journal h ++ entry_events env (length (heap h)) name sc.
Proof.
  destruct h as [conns objs cm sw jr].
  unfold entry_events, fresh_connection.
  destruct (heap_store_fresh objs (mkConnection name sc (initial_status env name sc))
              (connect env (length objs) (mkConnection name sc (initial_status env name sc))).2)
    as [Hget Hput].
  hub_step.
  destruct (disabled sc); hub_step; rewrite Hget;
    destruct (connect env (length objs) (mkConnection name sc (initial_status env name sc)))
      as [[[]|error] c'] eqn:Hc;
    cbn [fst snd] in *; rewrite Hput;
    eexists; (split; [reflexivity|]);
    hub_step;
    rewrite ?length_app, <- ?app_assoc; cbn; repeat split; try done; lia.
Qed.

Lemma start_entries_run (servers : list (string * ServerConfig)) (h : MCPHub) :
  ∃ h', for_of servers (start_entry env) h = (Ok tt, h') ∧
        connections h' = entries_map (length (heap h)) servers (connections h) ∧
        length (heap h') = length (heap h) + length servers ∧
        configManager h' = configManager h ∧
        shouldWatchConfig h' = shouldWatchConfig h ∧
        journal h' = journal h ++ entries_events env (length (heap h)) servers.
Proof.
  revert h. induction servers as [|[name sc] rest IH]; intros h.
  - exists h. cbn. rewrite app_nil_r. repeat split; lia.
  - destruct (start_entry_run name sc h) as (h1 & Hrun & Hc & Hh & Hcm & Hsw & Hj).
    destruct (IH h1) as (h2 & Hrun2 & Hc2 & Hh2 & Hcm2 & Hsw2 & Hj2).
    exists h2. cbn [for_of]. unfold bind at 1. rewrite Hrun, Hrun2.
    rewrite Hc2, Hh2, Hcm2, Hsw2, Hj2, Hc, Hh, Hcm, Hsw, Hj. cbn.
    rewrite <- app_assoc. repeat split; lia.
Qed.

Lemma startConfiguredServers_run (h : MCPHub) :
  let servers := configured_entries (cm_config (configManager h)) in
  ∃ h', startConfiguredServers env h = (Ok tt, h') ∧
        connections h' = entries_map (length (heap h)) servers (connections h) ∧
        length (heap h') = length (heap h) + length servers ∧
        configManager h' = configManager h ∧
        shouldWatchConfig h' = shouldWatchConfig h ∧
        journal h' =
          journal h ++ LogStarting (length servers) :: entries_events env (length (heap h)) servers.
Proof.
  intros servers.
  destruct (start_entries_run servers
              (mkHub (connections h) (heap h) (configManager h) (shouldWatchConfig h)
                     (journal h ++ [LogStarting (length servers)])))
    as (h' & Hrun & Hc & Hh & Hcm & Hsw & Hj).
  exists h'. unfold startConfiguredServers.
  cbv beta iota zeta delta [bind ret get modify emit getConfig]. fold servers.
  rewrite Hrun. cbn in *. rewrite <- app_assoc in Hj. done.
Qed.

Lemma keys_entries_map (servers : list (string * ServerConfig)) :
  NoDup servers.*1 →
  ∀ next (m : list (string * nat)),
    JsMap.keys (entries_map next servers m) =
    JsMap.keys m ++ filter (λ name, name ∉ JsMap.keys m) servers.*1.
Proof.
  induction servers as [|[name sc] rest IH]; intros Hnd next m.
  - cbn. by rewrite app_nil_r.
  - cbn in Hnd. apply NoDup_cons in Hnd as [Hfresh Hnd]. cbn [entries_map fmap list_fmap fst].
    rewrite (IH Hnd), jsmap_keys_set, filter_cons.
    destruct (decide (name ∈ JsMap.keys m)) as [Hin|Hnin].
    + rewrite decide_False by tauto. done.
    + rewrite decide_True by done. rewrite <- app_assoc. cbn. do 2 f_equal.
      apply filter_ext_on. intros k Hk.
      split.
      * intros Hm Hin. apply Hm, elem_of_app. by left.
      * intros Hm Hin. apply elem_of_app in Hin as [Hin|Hin]; [done|].
        apply list_elem_of_singleton in Hin as ->. done.
Qed.

Lemma get_entries_map (servers : list (string * ServerConfig)) :
  NoDup servers.*1 →
  ∀ next (m : list (string * nat)) i name sc,
    servers !! i = Some (name, sc) →
    JsMap.get name (entries_map next servers m) = Some (next + i).
Proof.
  induction servers as [|[name0 sc0] rest IH]; intros Hnd next m i name sc Hi; [done|].
  cbn in Hnd. apply NoDup_cons in Hnd as [Hfresh Hnd]. cbn [entries_map].
  destruct i as [|i]; cbn in Hi.
  - injection Hi as -> ->. rewrite Nat.add_0_r.
    clear IH Hnd. revert next m Hfresh.
    assert (∀ l next (m : list (string * nat)) v, name ∉ l.*1 → JsMap.get name m = Some v →
              JsMap.get name (entries_map next l m) = Some v) as Hkeep.
    { induction l as [|[k s] l IHl]; intros next m v Hl Hm; [done|].
      cbn in Hl. apply not_elem_of_cons in Hl as [Hne Hl]. cbn [entries_map].
      apply IHl; [done|]. rewrite jsmap_get_set_ne; done. }
    intros next m Hfresh. apply Hkeep; [done|]. apply jsmap_get_set_eq.
  - rewrite (IH Hnd (S next) _ i name sc Hi). f_equal. lia.
Qed.

End bulk_start_loop.

Section bulk_start.
Import Hub.
Variable env : Collaborators.

Lemma connect_in_entry_events (id : nat) (name : string) (sc : ServerConfig) (j : nat) :
  CallConnect j ∈ entry_events env id name sc → j = id.
Proof.
  unfold entry_events. intros H. apply elem_of_app in H as [H|H].
  - repeat (apply elem_of_cons in H as [H|H]; [destruct (disabled sc); congruence|]).
    by apply elem_of_nil in H.
  - destruct (connect env id (fresh_connection env name sc)).1.
    + by apply elem_of_nil in H.
    + apply list_elem_of_singleton in H. discriminate.
Qed.

Lemma entries_events_split (servers : list (string * ServerConfig)) :
  ∀ next i name sc,
    servers !! i = Some (name, sc) →
    ∃ pre post,
      entries_events env next servers = pre ++ entry_events env (next + i) name sc ++ post ∧
      ∀ j, CallConnect j ∈ pre → j < next + i.
Proof.
  induction servers as [|[name0 sc0] rest IH]; intros next i name sc Hi; [done|].
  destruct i as [|i]; cbn in Hi.
  - injection Hi as -> ->. exists (@nil Event). exists (entries_events env (S next) rest).
    rewrite Nat.add_0_r. split; [done|]. intros j Hj. by apply elem_of_nil in Hj.
  - destruct (IH (S next) i name sc Hi) as (pre & post & Heq & Hpre).
    exists (entry_events env next name0 sc0 ++ pre). exists post. split.
    + cbn [entries_events]. rewrite Heq, <- app_assoc.
      replace (S next + i) with (next + S i) by lia. done.
    + intros j Hj. apply elem_of_app in Hj as [Hj|Hj].
      * apply connect_in_entry_events in Hj. lia.
      * apply Hpre in Hj. lia.
Qed.

(** C1, amended. Whatever subset of the N configured servers (distinct names,
    as the keys of a JavaScript object are) fails to connect,
    [startConfiguredServers] returns normally; for every configured name the
    journal of the call has the write of that name into the connection map
    right before the connect of the same connection object, which is not
    attempted earlier; afterwards the map holds the names it held before,
    followed by the configured names it did not hold, and
    [getAllServerStatuses] returns one entry per name held. That is exactly N
    entries when the map was empty before the call, as on a hub that was just
    constructed; names held before that are not configured stay and are
    counted too. *)
Theorem startConfiguredServers_best_effort (h : MCPHub) :
  let servers := configured_entries (cm_config (configManager h)) in
  NoDup servers.*1 →
  ∃ h', startConfiguredServers env h = (Ok tt, h') ∧
    (∀ name sc, (name, sc) ∈ servers →
       ∃ id pre post,
         journal h' = journal h ++ pre ++ [MapSet name id; CallConnect id] ++ post ∧
         CallConnect id ∉ pre) ∧
    JsMap.keys (connections h') =
      JsMap.keys (connections h) ++
      filter (λ name, name ∉ JsMap.keys (connections h)) servers.*1 ∧
    length (getAllServerStatuses h') =
      length (connections h) +
      length (filter (λ name, name ∉ JsMap.keys (connections h)) servers.*1) ∧
    (connections h = [] → length (getAllServerStatuses h') = length servers).
Proof.
  intros servers Hnd.
  destruct (startConfiguredServers_run env h) as (h' & Hrun & Hc & Hh & Hcm & Hsw & Hj).
  fold servers in Hc, Hh, Hj.
  assert (JsMap.keys (connections h') =
      JsMap.keys (connections h) ++
      filter (λ name, name ∉ JsMap.keys (connections h)) servers.*1) as Hkeys.
  { rewrite Hc. by apply keys_entries_map. }
  assert (length (getAllServerStatuses h') =
      length (connections h) +
      length (filter (λ name, name ∉ JsMap.keys (connections h)) servers.*1)) as Hlen.
  { unfold getAllServerStatuses. rewrite length_fmap, jsmap_length_values, Hkeys.
    rewrite length_app. unfold JsMap.keys. by rewrite length_fmap. }
  exists h'. split; [done|]. split; [|split; [done|split; [done|]]].
  - intros name sc Hin. apply list_elem_of_lookup in Hin as [i Hi].
    destruct (entries_events_split servers (length (heap h)) i name sc Hi)
      as (pre & post & Heq & Hpre).
    exists (length (heap h) + i).
    exists (LogStarting (length servers) :: pre ++
            [ (if disabled sc then LogSkippingDisabled name else LogInitializing name);
              NewConnection (length (heap h) + i) name sc ]).
    eexists. split.
    + rewrite Hj, Heq. unfold entry_events. cbn. rewrite <- !app_assoc. cbn. reflexivity.
    + intros Hc'. apply elem_of_cons in Hc' as [Hc'|Hc']; [done|].
      apply elem_of_app in Hc' as [Hc'|Hc'].
      * apply Hpre in Hc'. lia.
      * repeat (apply elem_of_cons in Hc' as [Hc'|Hc']; [destruct (disabled sc); congruence|]).
        by apply elem_of_nil in Hc'.
  - intros Hempty. rewrite Hlen, Hempty. change (JsMap.keys []) with (@nil string).
    rewrite filter_all_on by (intros; apply not_elem_of_nil). by rewrite length_fmap.
Qed.

End bulk_start.

Section bulk_start_claims.
Import Hub HubSamples.

Lemma entry_is_started (env : Collaborators) (h h' : MCPHub) (name : string) (sc : ServerConfig) :
  let servers := configured_entries (cm_config (configManager h)) in
  NoDup servers.*1 →
  startConfiguredServers env h = (Ok tt, h') →
  (name, sc) ∈ servers →
  ∃ id pre post,
    journal h' =
      journal h ++ pre ++
      [ (if disabled sc then LogSkippingDisabled name else LogInitializing name);
        NewConnection id name sc; MapSet name id; CallConnect id ] ++ post ∧
    JsMap.get name (connections h') = Some id.
Proof.
  intros servers Hnd Hrun Hin.
  destruct (startConfiguredServers_run env h) as (h1 & Hrun' & Hc & _ & _ & _ & Hj).
  rewrite Hrun in Hrun'. injection Hrun' as <-. fold servers in Hc, Hj.
  apply list_elem_of_lookup in Hin as [i Hi].
  destruct (entries_events_split env servers (length (heap h)) i name sc Hi)
    as (pre & post & Heq & _).
  exists (length (heap h) + i), (LogStarting (length servers) :: pre). eexists. split.
  - rewrite Hj, Heq. unfold entry_events. cbn. rewrite <- ?app_assoc. reflexivity.
  - rewrite Hc. by eapply get_entries_map.
Qed.

(** C2. For every configured entry whose [disabled] flag is true,
    [startConfiguredServers] logs that it skips the server and then does what
    it does for an enabled entry: it constructs a connection object from the
    entry, writes it into the connection map under the name and calls its
    [connect]; after the call the map holds that object for the name. Enabled
    entries get the same three steps after their own log line. *)
Theorem disabled_entries_are_still_connected (env : Collaborators) (h : MCPHub)
    (name : string) (sc : ServerConfig) :
  let servers := configured_entries (cm_config (configManager h)) in
  NoDup servers.*1 →
  (name, sc) ∈ servers →
  disabled sc = true →
  ∃ h', startConfiguredServers env h = (Ok tt, h') ∧
    (∃ id pre post,
       journal h' =
         journal h ++ pre ++
         [LogSkippingDisabled name; NewConnection id name sc; MapSet name id; CallConnect id]
         ++ post ∧
       JsMap.get name (connections h') = Some id) ∧
    (∀ name' sc', (name', sc') ∈ servers → disabled sc' = false →
       ∃ id pre post,
         journal h' =
           journal h ++ pre ++
           [LogInitializing name'; NewConnection id name' sc'; MapSet name' id; CallConnect id]
           ++ post ∧
         JsMap.get name' (connections h') = Some id).
Proof.
  intros servers Hnd Hin Hdis.
  destruct (startConfiguredServers_run env h) as (h' & Hrun & _).
  exists h'. split; [done|]. split.
  - destruct (entry_is_started env h h' name sc Hnd Hrun Hin) as (id & pre & post & Hj & Hg).
    rewrite Hdis in Hj. eauto.
  - intros name' sc' Hin' Hen.
    destruct (entry_is_started env h h' name' sc' Hnd Hrun Hin') as (id & pre & post & Hj & Hg).
    rewrite Hen in Hj. eauto.
Qed.

Lemma disabled_entries_are_still_connected_witness :
  disabled (mkServerConfig "npx beta" true) = true ∧
  ∃ h' id,
    startConfiguredServers (sample_env ["beta"]) initialized_hub = (Ok tt, h') ∧
    JsMap.get "beta" (connections h') = Some id ∧
    CallConnect id ∈ journal h'.
Proof.
  split; [reflexivity|].
  destruct (disabled_entries_are_still_connected (sample_env ["beta"]) initialized_hub
              "beta" (mkServerConfig "npx beta" true))
    as (h' & Hrun & (id & pre & post & Hj & Hg) & _).
  - compute_done.
  - vm_compute. right. left.
  - reflexivity.
  - exists h', id. split; [exact Hrun|]. split; [exact Hg|].
    rewrite Hj. rewrite !elem_of_app. right. right. left.
    do 3 right. left.
Defined.

Lemma startConfiguredServers_best_effort_witness :
  NoDup (configured_entries (cm_config (configManager loaded_hub))).*1 ∧
  ∃ h', startConfiguredServers (sample_env ["beta"]) loaded_hub = (Ok tt, h') ∧
        length (getAllServerStatuses h') = 2.
Proof.
  assert (NoDup (configured_entries (cm_config (configManager loaded_hub))).*1) as Hnd
    by compute_done.
  split; [exact Hnd|].
  destruct (startConfiguredServers_best_effort (sample_env ["beta"]) loaded_hub Hnd)
    as (h' & Hrun & _ & _ & _ & Hlen).
  exists h'. split; [exact Hrun|]. exact (Hlen eq_refl).
Defined.

(** C1 fails as stated: on a hub that holds an ad-hoc connection next to its
    two configured servers, [getAllServerStatuses] returns three entries after
    [startConfiguredServers]. *)
Lemma statuses_exceed_the_configured_after_adhoc_connect :
  JsMap.keys (connections hub_with_adhoc) = ["alpha"; "beta"; "adhoc"] ∧
  (configured_entries (cm_config (configManager hub_with_adhoc))).*1 = ["alpha"; "beta"] ∧
  (startConfiguredServers (sample_env ["beta"]) hub_with_adhoc).1 = Ok tt ∧
  length (getAllServerStatuses
            (startConfiguredServers (sample_env ["beta"]) hub_with_adhoc).2) = 3 ∧
  ¬ statuses_are_exactly_the_configured.
Proof.
  split; [reflexivity|]. split; [reflexivity|]. split; [reflexivity|].
  split; [reflexivity|].
  intros Hclaim.
  specialize (Hclaim (sample_env ["beta"]) hub_with_adhoc
                (startConfiguredServers (sample_env ["beta"]) hub_with_adhoc).2).
  vm_compute in Hclaim.
  assert (3 = 2) as Habs; [|discriminate Habs].
  apply Hclaim; [|reflexivity].
  compute_done.
Qed.
End bulk_start_claims.

Section single_target.
Import Hub HubSamples HubClaims.
Variable env : Collaborators.

(** C3, amended. [connectServer] constructs the new connection object and
    writes it into the connection map under the name, replacing whatever the
    map held there, before it calls [connect]. When [connect] fails the error
    propagates and the entry for the name is the failed replacement; when it
    succeeds the server info of the new object is returned. *)
Theorem connectServer_installs_the_new_handle_first (h : MCPHub) (name : string)
    (config : ServerConfig) :
  let id := length (heap h) in
  let outcome := connect env id (fresh_connection env name config) in
  ∃ h',
    connectServer env name config h =
      (match outcome.1 with
       | Ok _ => Ok (getServerInfo outcome.2)
       | Throw error => Throw error
       end, h') ∧
    JsMap.get name (connections h') = Some id ∧
    heap h' = heap h ++ [outcome.2] ∧
    journal h' = journal h ++ [NewConnection id name config; MapSet name id; CallConnect id].
Proof.
  destruct h as [conns objs cm sw jr]. unfold fresh_connection, connectServer. hub_step.
  destruct (heap_store_fresh objs (mkConnection name config (initial_status env name config))
              (connect env (length objs)
                 (mkConnection name config (initial_status env name config))).2)
    as [Hget Hput].
  rewrite Hget.
  destruct (connect env (length objs) (mkConnection name config (initial_status env name config)))
    as [[[]|error] c'] eqn:Hc; cbn [fst snd] in *; rewrite Hput;
    rewrite ?(proj1 (heap_store_fresh objs c' c'));
    eexists; (split; [reflexivity|]); hub_step;
    rewrite jsmap_get_set_eq, <- !app_assoc; done.
Qed.

Lemma disconnectServer_run (name : string) (h : MCPHub) :
  ∃ h' evs,
    disconnectServer env name h = (Ok tt, h') ∧
    connections h' = connections h ∧
    journal h' = journal h ++ evs ∧
    ∀ id, JsMap.get name (connections h) = Some id → CallDisconnect id ∈ evs.
Proof.
  destruct h as [conns objs cm sw jr]. unfold disconnectServer. hub_step.
  destruct (JsMap.get name conns) as [id|] eqn:Hg.
  - hub_step. destruct (disconnect env id (objs !!! id)) as [[[]|error] c'];
      eexists; eexists; (split; [reflexivity|]); hub_step;
      (split; [done|]); rewrite <- ?app_assoc; (split; [reflexivity|]);
      intros ? [= <-]; left.
  - exists (mkHub conns objs cm sw jr), []. rewrite app_nil_r. repeat split; done.
Qed.

Lemma allSettled_disconnect (names : list string) (h : MCPHub) :
  ∃ h' evs,
    allSettled names (disconnectServer env) h =
      (Ok (replicate (length names) (Fulfilled tt)), h') ∧
    connections h' = connections h ∧
    journal h' = journal h ++ evs ∧
    ∀ name id, name ∈ names → JsMap.get name (connections h) = Some id →
               CallDisconnect id ∈ evs.
Proof.
  revert h. induction names as [|name names IH]; intros h.
  - exists h, []. rewrite app_nil_r. repeat split; [done..|]. intros ?? Hin. by apply elem_of_nil in Hin.
  - destruct (disconnectServer_run name h) as (h1 & evs1 & Hrun1 & Hc1 & Hj1 & Hd1).
    destruct (IH h1) as (h2 & evs2 & Hrun2 & Hc2 & Hj2 & Hd2).
    exists h2, (evs1 ++ evs2). cbn [allSettled length replicate].
    unfold bind at 1, settle. rewrite Hrun1. unfold bind at 1. rewrite Hrun2.
    split; [done|]. rewrite Hc2, Hc1, Hj2, Hj1, <- app_assoc. repeat split; [done..|].
    intros n id Hin Hg. apply elem_of_app. apply elem_of_cons in Hin as [->|Hin].
    + left. by apply Hd1.
    + right. apply (Hd2 n); [done|]. by rewrite Hc1.
Qed.

Lemma log_rejected_none (n start : nat) (h : MCPHub) :
  for_of (zip (seq start n) (replicate n (Fulfilled tt))) log_rejected h = (Ok tt, h).
Proof.
  revert start. induction n as [|n IH]; intros start; [done|].
  cbn [seq replicate zip zip_with for_of]. unfold bind, log_rejected at 1, ret at 1. apply IH.
Qed.

(** C4. From every state of the connection map, [disconnectAll] returns
    normally with the map empty, whatever the individual disconnects do, and
    it clears the map only after the disconnect of every connection the map
    held has been issued and has settled. *)
Theorem disconnectAll_clears_the_map (h : MCPHub) :
  ∃ h' evs,
    disconnectAll env h = (Ok tt, h') ∧
    connections h' = [] ∧
    journal h' =
      journal h ++ [LogDisconnecting (length (connections h))] ++ evs ++ [MapClear] ∧
    ∀ name id, JsMap.get name (connections h) = Some id → CallDisconnect id ∈ evs.
Proof.
  destruct (allSettled_disconnect (JsMap.keys (connections h))
              (mkHub (connections h) (heap h) (configManager h) (shouldWatchConfig h)
                     (journal h ++ [LogDisconnecting (JsMap.size (connections h))])))
    as (h1 & evs & Hrun & Hc & Hj & Hd).
  exists (mkHub [] (heap h1) (configManager h1) (shouldWatchConfig h1) (journal h1 ++ [MapClear])).
  exists evs. unfold disconnectAll.
  cbv beta iota zeta delta [bind ret get modify emit set_connections].
  rewrite Hrun. rewrite length_replicate, log_rejected_none.
  split; [done|]. split; [done|]. cbn in *. split.
  - rewrite Hj, <- !app_assoc. done.
  - intros name id Hg. apply (Hd name id); [|done].
    destruct (decide (name ∈ JsMap.keys (connections h))) as [|Hnin]; [done|].
    apply jsmap_get_None in Hnin. congruence.
Qed.

(** C5. When the connection map has no entry for the server name, [callTool]
    throws a ServerError carrying the server name, the operation [tool_call]
    and the tool name, and [readResource] one carrying the server name, the
    operation [resource_read] and the uri, and the hub is left as it was. When
    the map has an entry, each returns or throws exactly what the method of
    that connection returns or throws. *)
Theorem routing_fails_or_delegates (h : MCPHub) (serverName toolName uri : string)
    (args : JsVal) :
  (JsMap.get serverName (connections h) = None →
     callTool env serverName toolName args h =
       (Throw (ServerError "Server not found"
                 [("server", VStr serverName); ("operation", VStr "tool_call");
                  ("tool", VStr toolName)]), h) ∧
     readResource env serverName uri h =
       (Throw (ServerError "Server not found"
                 [("server", VStr serverName); ("operation", VStr "resource_read");
                  ("uri", VStr uri)]), h)) ∧
  (∀ id, JsMap.get serverName (connections h) = Some id →
     (callTool env serverName toolName args h).1 =
       (conn_callTool env id toolName args (heap h !!! id)).1 ∧
     (readResource env serverName uri h).1 =
       (conn_readResource env id uri (heap h !!! id)).1).
Proof.
  destruct h as [conns objs cm sw jr]. unfold callTool, readResource. hub_step. split.
  - intros ->. done.
  - intros id ->. hub_step.
    destruct (conn_callTool env id toolName args (objs !!! id)),
             (conn_readResource env id uri (objs !!! id)). done.
Qed.

End single_target.

Section single_target_samples.
Import Hub HubSamples HubClaims.

Lemma routing_fails_or_delegates_witness :
  JsMap.get "missing-server" (connections initialized_hub) = None ∧
  JsMap.get "alpha" (connections initialized_hub) = Some 0 ∧
  (callTool (sample_env ["beta"]) "missing-server" "x" VUndefined initialized_hub).1 =
    Throw (ServerError "Server not found"
             [("server", VStr "missing-server"); ("operation", VStr "tool_call");
              ("tool", VStr "x")]) ∧
  (callTool (sample_env ["beta"]) "alpha" "x" VUndefined initialized_hub).1 = Ok (VStr "x").
Proof.
  assert (JsMap.get "missing-server" (connections initialized_hub) = None) as Hnone
    by reflexivity.
  assert (JsMap.get "alpha" (connections initialized_hub) = Some 0) as Hsome by reflexivity.
  split; [exact Hnone|]. split; [exact Hsome|].
  destruct (routing_fails_or_delegates (sample_env ["beta"]) initialized_hub
              "missing-server" "x" "u" VUndefined) as [Habsent _].
  destruct (routing_fails_or_delegates (sample_env ["beta"]) initialized_hub
              "alpha" "x" "u" VUndefined) as [_ Hpresent].
  split.
  - destruct (Habsent Hnone) as [-> _]. reflexivity.
  - destruct (Hpresent 0 Hsome) as [-> _]. reflexivity.
Defined.

(** C3 fails as stated: reconnecting [beta], whose connect fails, leaves
    the new object 2 and not the previous object 1 as the entry for [beta]. *)
Lemma failed_connect_leaves_the_failed_replacement :
  JsMap.get "beta" (connections initialized_hub) = Some 1 ∧
  (connectServer (sample_env ["beta"]) "beta" (mkServerConfig "npx beta2" false)
                 initialized_hub).1 =
    Throw (mkError ClsConnectionError None "connection refused" []) ∧
  JsMap.get "beta"
    (connections (connectServer (sample_env ["beta"]) "beta"
                    (mkServerConfig "npx beta2" false) initialized_hub).2) = Some 2 ∧
  ¬ failed_connect_keeps_previous_handle.
Proof.
  split; [reflexivity|]. split; [reflexivity|]. split; [reflexivity|].
  intros Hclaim.
  specialize (Hclaim (sample_env ["beta"]) initialized_hub
                (connectServer (sample_env ["beta"]) "beta" (mkServerConfig "npx beta2" false)
                               initialized_hub).2
                "beta" (mkServerConfig "npx beta2" false) 1
                (mkError ClsConnectionError None "connection refused" [])).
  assert (Some 2 = Some 1) as Habs; [|discriminate Habs].
  apply Hclaim; reflexivity.
Qed.
End single_target_samples.

Section jsmap_more.
Context {V : Type}.
Lemma jsmap_get_alter (f : V → V) (k : string) (m : list (string * V)) :
  JsMap.get k (JsMap.alter f k m) = f <$> JsMap.get k m.
Proof.
  induction m as [|[k' v'] m IH]; [done|]. cbn [JsMap.alter JsMap.get].
  destruct (decide (k = k')) as [->|Hne]; cbn [JsMap.get].
  - by rewrite decide_True.
  - by rewrite decide_False.
Qed.
End jsmap_more.

Ltac hub_run :=
  repeat (progress
    (unfold bind, ret, throw, get, modify, try_catch, try_finally, settle,
       Hub.new_MCPConnection, Hub.connections_set, Hub.connections_get, Hub.on_connection,
       Hub.emit, Hub.set_heap, Hub.set_connections, Hub.set_configManager, Hub.set_cm_config,
       Hub.getConfig, Hub.lookup_server, Hub.assign_disabled, Hub.cm_updateConfig,
       Hub.cm_loadConfig, Hub.cm_watchConfig, Hub.cm_on_configChanged;
     cbn [Hub.heap Hub.connections Hub.configManager Hub.shouldWatchConfig Hub.journal
          Hub.cm_source Hub.cm_config Hub.cm_persisted Hub.cm_watching Hub.cm_listeners
          fst snd])).

Section facade.
Import Hub HubSamples HubClaims HubFacadeSpec.
Variable env : Collaborators.

Lemma initialize_failure (h : MCPHub) (e : JsError) :
  init_failure env h = Some e →
  (initialize env h).1 =
    Throw (if instanceof_ConfigError e
           then e
           else wrapError env e "HUB_INIT_ERROR"
                  [("watchEnabled", VBool (shouldWatchConfig h))]).
Proof.
  destruct h as [conns objs cm sw jr].
  unfold init_failure, initialize, cm_loadConfig, cm_watchConfig. hub_step.
  destruct (loadConfig_outcome env (cm_source cm)) as [c|e0].
  - hub_step. destruct sw; [|done]. hub_step.
    destruct (watchConfig_outcome env) as [e0|]; [|done].
    intros [= ->]. hub_step. by destruct (instanceof_ConfigError e).
  - intros [= ->]. hub_step. by destruct (instanceof_ConfigError e).
Qed.

Lemma updateConfig_failure (h : MCPHub) (x : ConfigInput) (e : JsError) :
  updateConfig_outcome env x = Throw e →
  (updateConfig env x h).1 =
    Throw (wrapError env e "CONFIG_UPDATE_ERROR" [("isPathUpdate", VBool (is_string x))]).
Proof.
  destruct h as [conns objs cm sw jr].
  unfold updateConfig, cm_updateConfig. hub_step. intros ->. done.
Qed.

(** C6. With the [wrapError] of section 7, which hands a ConfigError back as
    it is: a ConfigError raised in the [try] block of [initialize] (by
    [loadConfig] or [watchConfig]) reaches the caller unchanged, and every
    other failure there reaches the caller as the generic error with code
    HUB_INIT_ERROR, the message of the failure and [watchEnabled], the hub's
    flag that watching was asked for (with the configuration given as a
    path). Likewise a ConfigError raised by the ConfigManager inside
    [updateConfig] reaches the caller unchanged, and every other failure
    there reaches the caller as the generic error with code
    CONFIG_UPDATE_ERROR, the message of the failure and [isPathUpdate],
    telling whether the update source was a path. *)
Theorem initialize_and_updateConfig_error_surfacing (h : MCPHub) (x : ConfigInput)
    (e : JsError) :
  wrapError env = wrapError_spec →
  (init_failure env h = Some e →
     (err_class e = ClsConfigError → (initialize env h).1 = Throw e) ∧
     (err_class e ≠ ClsConfigError →
        (initialize env h).1 =
          Throw (mkError ClsWrapped (Some "HUB_INIT_ERROR") (err_message e)
                   [("watchEnabled", VBool (shouldWatchConfig h))]))) ∧
  (updateConfig_outcome env x = Throw e →
     (err_class e = ClsConfigError → (updateConfig env x h).1 = Throw e) ∧
     (err_class e ≠ ClsConfigError →
        (updateConfig env x h).1 =
          Throw (mkError ClsWrapped (Some "CONFIG_UPDATE_ERROR") (err_message e)
                   [("isPathUpdate", VBool (is_string x))]))).
Proof.
  intros Hwrap. split.
  - intros Hfail. rewrite (initialize_failure h e Hfail). unfold instanceof_ConfigError.
    split; intros Hcls.
    + by rewrite bool_decide_eq_true_2.
    + rewrite bool_decide_eq_false_2 by done. rewrite Hwrap.
      unfold wrapError_spec, instanceof_ConfigError. by rewrite bool_decide_eq_false_2.
  - intros Hfail. rewrite (updateConfig_failure h x e Hfail), Hwrap.
    unfold wrapError_spec, instanceof_ConfigError. split; intros Hcls.
    + by rewrite bool_decide_eq_true_2.
    + by rewrite bool_decide_eq_false_2.
Qed.

(** C10. When the configuration has an entry for the name, the connection
    map has none, and the ConfigManager accepts the update,
    [stopServer(name, true)] throws the ServerError of the missing connection
    after it has set [disabled] in the configuration and handed the
    configuration to [updateConfig]: the in-memory and the persisted document
    both carry the flag afterwards. [startServer] on the same hub throws the
    same error and leaves the hub, its configuration included, as it was. *)
Theorem stopServer_persists_before_the_connection_check (h : MCPHub) (name : string)
    (cfg : Config) (sc : ServerConfig) :
  let cfg' := mkConfig (JsMap.alter (with_disabled true) name <$> mcpServers cfg) in
  cm_config (configManager h) = Some cfg →
  mcpServers cfg ≫= JsMap.get name = Some sc →
  JsMap.get name (connections h) = None →
  updateConfig_outcome env (InObject (Some cfg')) = Ok (Some cfg') →
  ∃ h',
    stopServer env name true h =
      (Throw (ServerError "Server connection not found" [("server", VStr name)]), h') ∧
    cm_config (configManager h') = Some cfg' ∧
    mcpServers cfg' ≫= JsMap.get name = Some (with_disabled true sc) ∧
    cm_persisted (configManager h') = cm_persisted (configManager h) ++ [Some cfg'] ∧
    journal h' = journal h ++ [CallUpdateConfig (InObject (Some cfg'))] ∧
    startServer env name h =
      (Throw (ServerError "Server connection not found" [("server", VStr name)]), h).
Proof.
  intros cfg'. destruct h as [conns objs [src c pers wt ls] sw jr].
  cbn [configManager cm_config connections cm_persisted journal].
  intros -> Hsc Hconn Hup.
  unfold stopServer, startServer. hub_run. rewrite Hsc. hub_run.
  cbn [fmap option_fmap option_map]. fold cfg'. rewrite Hup. hub_run. rewrite !Hconn. hub_run.
  eexists. split; [reflexivity|]. hub_run.
  repeat split; try done.
  subst cfg'. cbn [mcpServers]. destruct (mcpServers cfg) as [servers|]; [|done].
  cbn in *. by rewrite jsmap_get_alter, Hsc.
Qed.

End facade.

Section facade_samples.
Import Hub HubSamples HubMoreSamples HubClaims HubFacadeSpec.

Lemma initialize_and_updateConfig_error_surfacing_witness :
  wrapError (sample_env []) = wrapError_spec ∧
  init_failure (sample_env []) path_hub = Some (ConfigError "Invalid config" []) ∧
  updateConfig_outcome (sample_env []) (InPath "other.json") =
    Throw (ConfigError "Invalid config" []) ∧
  (initialize (sample_env []) path_hub).1 = Throw (ConfigError "Invalid config" []) ∧
  (updateConfig (sample_env []) (InPath "other.json") path_hub).1 =
    Throw (ConfigError "Invalid config" []) ∧
  (updateConfig readonly_env (InObject two_servers) path_hub).1 =
    Throw (mkError ClsWrapped (Some "CONFIG_UPDATE_ERROR") "read-only file system"
             [("isPathUpdate", VBool false)]).
Proof.
  assert (init_failure (sample_env []) path_hub = Some (ConfigError "Invalid config" []))
    as Hinit by reflexivity.
  assert (updateConfig_outcome (sample_env []) (InPath "other.json") =
            Throw (ConfigError "Invalid config" [])) as Hup by reflexivity.
  split; [reflexivity|]. split; [exact Hinit|]. split; [exact Hup|].
  destruct (initialize_and_updateConfig_error_surfacing (sample_env []) path_hub
              (InPath "other.json") (ConfigError "Invalid config" []) eq_refl) as [Hi Hu].
  split; [|split].
  - destruct (Hi Hinit) as [Hcfg _]. apply Hcfg. reflexivity.
  - destruct (Hu Hup) as [Hcfg _]. apply Hcfg. reflexivity.
  - destruct (initialize_and_updateConfig_error_surfacing readonly_env path_hub
                (InObject two_servers) (SystemError "EROFS" "read-only file system")
                eq_refl) as [_ Hother].
    destruct (Hother eq_refl) as [_ Hwrapped]. apply Hwrapped. discriminate.
Defined.

Lemma stopServer_persists_before_the_connection_check_witness :
  ∃ h',
    stopServer (sample_env []) "alpha" true loaded_hub =
      (Throw (ServerError "Server connection not found" [("server", VStr "alpha")]), h') ∧
    ((cm_config (configManager h') ≫= mcpServers) ≫= JsMap.get "alpha") =
      Some (mkServerConfig "npx alpha" true).
Proof.
  destruct (stopServer_persists_before_the_connection_check (sample_env []) loaded_hub
              "alpha"
              (mkConfig (Some [("alpha", mkServerConfig "npx alpha" false);
                               ("beta", mkServerConfig "npx beta" true)]))
              (mkServerConfig "npx alpha" false) eq_refl eq_refl eq_refl eq_refl)
    as (h' & Hrun & Hcfg & Hsc & _).
  exists h'. split; [exact Hrun|]. rewrite Hcfg. exact Hsc.
Defined.
End facade_samples.

(** * Properties of the workspace registry *)

Ltac ws_run :=
  repeat (progress
    (unfold bind, ret, throw, get, modify, try_catch, try_finally,
       WorkspaceCache.emit, WorkspaceCache.set_cacheFile, WorkspaceCache.set_lockFile,
       WorkspaceCache.next_fault, WorkspaceCache.fs_readFile, WorkspaceCache.fs_writeFile,
       WorkspaceCache.fs_writeFile_wx, WorkspaceCache.fs_unlink, WorkspaceCache.sleep,
       WorkspaceCache.JSON_parse, WorkspaceCache.JSON_stringify,
       WorkspaceCache._readCache, WorkspaceCache._writeCache;
     cbn [WorkspaceCache.cacheFile WorkspaceCache.lockFile WorkspaceCache.faults
          WorkspaceCache.neighbours WorkspaceCache.journal fst snd tail])).

Section lock.
Import WorkspaceCache CacheSpec.
Variable self : Process.
Variable fn : M World unit.

Lemma unlink_quietly (w : World) :
  ∃ w', try_catch fs_unlink (λ unlinkError, ret tt) w = (Ok tt, w') ∧
        cacheFile w' = cacheFile w ∧
        neighbours w' = neighbours w ∧
        faults w' = tail (faults w) ∧
        journal w' = journal w ++ [Unlink] ∧
        (no_fault_next w → lockFile w' = None).
Proof.
  destruct w as [cache lock fs nbs jr]. unfold no_fault_next. ws_run.
  destruct fs as [|[e|] fs]; ws_run; destruct lock; ws_run;
    eexists; (split; [reflexivity|]); cbn; repeat split; done.
Qed.

Lemma lock_attempt_acquired (w : World) :
  lockFile w = None → no_fault_next w →
  ∃ r w2 w3,
    fn (lock_created self w) = (r, w2) ∧
    try_catch fs_unlink (λ unlinkError, ret tt) w2 = (Ok tt, w3) ∧
    lock_attempt self fn w =
      match r with
      | Ok _ => (Ok Return, w3)
      | Throw error =>
          if has_code error "EEXIST"
          then (sleep retryDelay >> ret Continue) w3
          else (Throw error, w3)
      end.
Proof.
  destruct w as [cache lock fs nbs jr]. unfold no_fault_next, lock_created. cbn.
  intros -> Hnf.
  destruct (fn (mkWorld cache (Some (process_pid self)) (tail fs) nbs
                        (jr ++ [Creat (process_pid self)]))) as [r w2] eqn:Hfn.
  destruct (unlink_quietly w2) as (w3 & Hun & _).
  exists r, w2, w3. split; [done|]. split; [done|].
  unfold lock_attempt.
  unfold bind at 1 2, try_catch at 1, try_finally at 1.
  assert (fs_writeFile_wx (process_pid self) (mkWorld cache None fs nbs jr) =
          (Ok tt, mkWorld cache (Some (process_pid self)) (tail fs) nbs
                          (jr ++ [Creat (process_pid self)]))) as ->.
  { ws_run. destruct fs as [|[e|] fs]; done. }
  rewrite Hfn, Hun. destruct r as [[]|error]; [done|].
  destruct (has_code error "EEXIST"); done.
Qed.

Lemma lock_attempt_refused (w : World) (e : JsError) (rest : list (option JsError)) :
  faults w = Some e :: rest → has_code e "EEXIST" = false →
  lock_attempt self fn w =
    (Throw e, mkWorld (cacheFile w) (lockFile w) rest (neighbours w)
                      (journal w ++ [Creat (process_pid self)])).
Proof.
  destruct w as [cache lock fs nbs jr]. cbn. intros -> Hcode.
  unfold lock_attempt. ws_run. by rewrite Hcode.
Qed.

Lemma lock_attempt_held (w : World) (holder : Z) :
  lockFile w = Some holder → no_fault_next w →
  ∃ w', lock_attempt self fn w = (Ok Continue, w') ∧
        cacheFile w' = cacheFile w ∧
        faults w' = tail (faults w) ∧
        neighbours w' = tail (neighbours w) ∧
        journal w' = journal w ++ [Creat (process_pid self); Sleep retryDelay] ∧
        (head (neighbours w) ≠ Some ReleasesLock → lockFile w' = Some holder).
Proof.
  destruct w as [cache lock fs nbs jr]. unfold no_fault_next. cbn. intros -> Hnf.
  unfold lock_attempt. ws_run. unfold has_code.
  destruct fs as [|[e|] fs]; [|done|]; ws_run; cbn; rewrite <- ?app_assoc;
    destruct nbs as [|[| |other] nbs]; ws_run; eexists; (split; [reflexivity|]);
    cbn; repeat split; try done; by rewrite <- app_assoc.
Qed.

Lemma lock_loop_held (n : nat) :
  ∀ (w : World) (holder : Z),
    lockFile w = Some holder →
    faults w = [] →
    Forall (λ nb, nb ≠ ReleasesLock) (neighbours w) →
    ∃ w', lock_loop self fn n w =
            (Throw (new_Error "Failed to acquire lock after 10 attempts"), w') ∧
          cacheFile w' = cacheFile w ∧
          lockFile w' = Some holder ∧
          journal w' =
            journal w ++ concat (replicate n [Creat (process_pid self); Sleep retryDelay]).
Proof.
  induction n as [|n IH]; intros w holder Hlock Hfs Hnbs.
  - exists w. cbn. rewrite app_nil_r. done.
  - destruct (lock_attempt_held w holder Hlock) as (w1 & Hrun & Hc & Hf & Hn & Hj & Hl).
    { unfold no_fault_next. by rewrite Hfs. }
    destruct (IH w1 holder) as (w2 & Hrun2 & Hc2 & Hl2 & Hj2).
    + apply Hl. destruct Hnbs as [|nb nbs Hnb _]; cbn; congruence.
    + by rewrite Hf, Hfs.
    + rewrite Hn. destruct Hnbs; [constructor | done].
    + exists w2. cbn [lock_loop]. unfold bind at 1. rewrite Hrun, Hrun2.
      rewrite Hc2, Hc, Hj2, Hj. cbn. rewrite <- app_assoc. done.
Qed.

(** C9. In [_withLock]: (1) when the creation of the lock file fails because
    the file exists, the attempt waits 50 and asks for another turn; (2) while
    the file stays there, ten attempts are made, each followed by that wait,
    and the call then throws the lock-acquisition-timeout error; (3) a
    creation failure with any other code is thrown at once, after that single
    attempt and without a wait; (4) when the lock is acquired, the critical
    section runs and the unlink of the lock file is issued right after it,
    whether it returned or threw, which leaves no lock file unless the unlink
    itself fails (that failure is ignored); the outcome of the critical
    section is then the outcome of the call. *)
Theorem withLock_retries_then_times_out_and_always_unlocks (w : World) :
  (∀ holder, lockFile w = Some holder → no_fault_next w →
     ∃ w', lock_attempt self fn w = (Ok Continue, w') ∧
           journal w' = journal w ++ [Creat (process_pid self); Sleep 50]) ∧
  (∀ holder, lockFile w = Some holder → faults w = [] →
     Forall (λ nb, nb ≠ ReleasesLock) (neighbours w) →
     ∃ w', _withLock self fn w =
             (Throw (new_Error "Failed to acquire lock after 10 attempts"), w') ∧
           journal w' =
             journal w ++ concat (replicate 10 [Creat (process_pid self); Sleep 50])) ∧
  (∀ e rest, faults w = Some e :: rest → has_code e "EEXIST" = false →
     ∃ w', _withLock self fn w = (Throw e, w') ∧
           journal w' = journal w ++ [Creat (process_pid self)]) ∧
  (lockFile w = None → no_fault_next w →
     ∃ r w2 w3,
       fn (lock_created self w) = (r, w2) ∧
       try_finally fn (try_catch fs_unlink (λ unlinkError, ret tt)) (lock_created self w) =
         (r, w3) ∧
       journal w3 = journal w2 ++ [Unlink] ∧
       (no_fault_next w2 → lockFile w3 = None) ∧
       (r = Ok tt → _withLock self fn w = (Ok tt, w3)) ∧
       (∀ e, r = Throw e → has_code e "EEXIST" = false →
             _withLock self fn w = (Throw e, w3))).
Proof.
  repeat split.
  - intros holder Hlock Hnf.
    destruct (lock_attempt_held w holder Hlock Hnf) as (w' & Hrun & _ & _ & _ & Hj & _).
    eauto.
  - intros holder Hlock Hfs Hnbs.
    destruct (lock_loop_held maxRetries w holder Hlock Hfs Hnbs) as (w' & Hrun & _ & _ & Hj).
    eauto.
  - intros e rest Hfs Hcode. eexists. unfold _withLock, maxRetries. cbn [lock_loop].
    unfold bind at 1. rewrite (lock_attempt_refused w e rest Hfs Hcode). done.
  - intros Hlock Hnf.
    destruct (lock_attempt_acquired w Hlock Hnf) as (r & w2 & w3 & Hfn & Hun & Hrun).
    destruct (unlink_quietly w2) as (w3' & Hun' & _ & _ & _ & Hj & Hl).
    rewrite Hun in Hun'. injection Hun' as <-.
    exists r, w2, w3. repeat split; try done.
    + unfold try_finally. by rewrite Hfn, Hun.
    + intros ->. unfold _withLock, maxRetries. cbn [lock_loop]. unfold bind at 1.
      by rewrite Hrun.
    + intros e -> Hcode. unfold _withLock, maxRetries. cbn [lock_loop]. unfold bind at 1.
      by rewrite Hrun, Hcode.
Qed.

End lock.

Section lock_samples.
Import WorkspaceCache CacheSpec CacheSamples.

Lemma withLock_retries_then_times_out_and_always_unlocks_witness :
  (lockFile held_world = Some 999%Z ∧ faults held_world = [] ∧
   Forall (λ nb, nb ≠ ReleasesLock) (neighbours held_world)) ∧
  (_withLock this_process (ret tt) held_world).1 =
    Throw (new_Error "Failed to acquire lock after 10 attempts") ∧
  (_withLock this_process (ret tt) denied_world).1 =
    Throw (SystemError "EACCES" "permission denied") ∧
  (∃ w', _withLock this_process (throw (new_Error "critical section failed")) free_world =
           (Throw (new_Error "critical section failed"), w') ∧
         lockFile w' = None).
Proof.
  assert (lockFile held_world = Some 999%Z ∧ faults held_world = [] ∧
          Forall (λ nb, nb ≠ ReleasesLock) (neighbours held_world)) as Hheld.
  { split; [reflexivity|]. split; [reflexivity|]. constructor. }
  split; [exact Hheld|].
  destruct Hheld as (Hlock & Hfs & Hnbs). split; [|split].
  - destruct (withLock_retries_then_times_out_and_always_unlocks this_process (ret tt)
                held_world) as (_ & Hbudget & _).
    destruct (Hbudget 999%Z Hlock Hfs Hnbs) as (w' & -> & _). reflexivity.
  - destruct (withLock_retries_then_times_out_and_always_unlocks this_process (ret tt)
                denied_world) as (_ & _ & Hother & _).
    destruct (Hother (SystemError "EACCES" "permission denied") [] eq_refl eq_refl)
      as (w' & -> & _). reflexivity.
  - destruct (withLock_retries_then_times_out_and_always_unlocks this_process
                (throw (new_Error "critical section failed")) free_world)
      as (_ & _ & _ & Hacquired).
    destruct (Hacquired eq_refl I) as (r & w2 & w3 & Hfn & _ & _ & Hgone & _ & Hthrow).
    injection Hfn as <- <-.
    exists w3. split; [exact (Hthrow _ eq_refl eq_refl) | exact (Hgone I)].
Defined.

End lock_samples.

Section lock_frame.
Import WorkspaceCache CacheSpec CacheFrame.
Variable self : Process.
Variable fn : M World unit.
Variable P : World → Prop.
Hypothesis P_framed : ∀ w w' evs, framed w w' evs → P w → P w'.
Hypothesis P_fn : ∀ w, P w → P (fn w).2.

Lemma creat_framed (holder : Z) (w : World) :
  framed w (fs_writeFile_wx holder w).2 [Creat holder].
Proof.
  destruct w as [cache lock fs nbs jr]. ws_run.
  destruct fs as [|[e|] fs]; ws_run; destruct lock; ws_run; repeat split; repeat constructor.
Qed.

Lemma unlink_framed (w : World) :
  (try_catch fs_unlink (λ unlinkError, ret tt) w).1 = Ok tt ∧
  framed w (try_catch fs_unlink (λ unlinkError, ret tt) w).2 [Unlink].
Proof.
  destruct (unlink_quietly w) as (w' & -> & Hc & _ & _ & Hj & _).
  split; [done|]. repeat split; [done..|]. repeat constructor.
Qed.

Lemma sleep_framed (ms : nat) (w : World) :
  (sleep ms w).1 = Ok tt ∧ framed w (sleep ms w).2 [Sleep ms].
Proof.
  destruct w as [cache lock fs nbs jr]. ws_run.
  destruct nbs as [|[| |other] nbs]; ws_run; [| | |destruct lock; ws_run];
    repeat split; repeat constructor.
Qed.

Lemma lock_attempt_preserves (w : World) : P w → P (lock_attempt self fn w).2.
Proof.
  intros HP. unfold lock_attempt. unfold try_catch at 1, bind at 1 2, try_finally.
  pose proof (creat_framed (process_pid self) w) as Hcreat.
  destruct (fs_writeFile_wx (process_pid self) w) as [[[]|e] w1]; cbn [snd] in Hcreat.
  - assert (P w1) as HP1 by eauto.
    pose proof (P_fn w1 HP1) as HP2. destruct (fn w1) as [r w2]. cbn [snd] in HP2.
    destruct (unlink_framed w2) as [Hok Hun].
    destruct (try_catch fs_unlink (λ _, ret tt) w2) as [ru w3]. cbn [fst snd] in *. subst ru.
    assert (P w3) as HP3 by eauto.
    destruct r as [[]|e]; [done|].
    destruct (has_code e "EEXIST"); [|done].
    unfold bind. destruct (sleep_framed retryDelay w3) as [Hs Hf].
    destruct (sleep retryDelay w3) as [rs w4]. cbn [fst snd] in *. subst rs. cbn. eauto.
  - assert (P w1) as HP1 by eauto.
    destruct (has_code e "EEXIST"); [|done].
    unfold bind. destruct (sleep_framed retryDelay w1) as [Hs Hf].
    destruct (sleep retryDelay w1) as [rs w4]. cbn [fst snd] in *. subst rs. cbn. eauto.
Qed.

Lemma lock_loop_preserves (n : nat) (w : World) : P w → P (lock_loop self fn n w).2.
Proof.
  revert w. induction n as [|n IH]; intros w HP; [done|].
  cbn [lock_loop]. unfold bind.
  pose proof (lock_attempt_preserves w HP) as HP1.
  destruct (lock_attempt self fn w) as [[[]|e] w1]; cbn [snd] in *; [done| |done].
  by apply IH.
Qed.

Lemma withLock_preserves (w : World) : P w → P (_withLock self fn w).2.
Proof. apply lock_loop_preserves. Qed.

End lock_frame.

Section cleanup_loop_facts.
Import WorkspaceCache CacheSpec CacheFrame CacheProbe.
Variable process_kill : Z → Z → option JsError.
#[local] Abbreviation sift := (sift process_kill).
#[local] Abbreviation passing_rows := (passing_rows process_kill).
#[local] Abbreviation has_refused := (has_refused process_kill).

Lemma cleanup_loop_run (rows : list (string * WorkspaceEntry)) :
  ∀ acc (w : World),
    ∃ evs,
      cleanup_loop process_kill rows acc w =
        (Ok (foldl sift acc rows),
         mkWorld (cacheFile w) (lockFile w) (faults w) (neighbours w) (journal w ++ evs)) ∧
      Forall (λ e, is_write e = false) evs.
Proof.
  induction rows as [|[k e] rows IH]; intros [cleaned count] w.
  - exists []. rewrite app_nil_r. destruct w. split; [done | constructor].
  - cbn [cleanup_loop foldl]. unfold bind at 1, cleanup_step, _isProcessRunning, sift at 2,
      probe_passes. cbn [fst snd].
    destruct (process_kill (pid e) 0) as [err|] eqn:Hk.
    + rewrite decide_False by done. ws_run.
      destruct (IH (cleaned, S count)
                  (mkWorld (cacheFile w) (lockFile w) (faults w) (neighbours w)
                     (journal w ++ [LogDebug "Removing stale workspace entry"])))
        as (evs & -> & Hevs).
      exists (LogDebug "Removing stale workspace entry" :: evs). cbn.
      rewrite <- app_assoc. split; [done|]. by constructor.
    + rewrite decide_True by done. ws_run.
      destruct (IH (<[k:=e]> cleaned, count) w) as (evs & -> & Hevs). eauto.
Qed.

Lemma sift_outside (rows : list (string * WorkspaceEntry)) :
  ∀ acc k, k ∉ rows.*1 → (foldl sift acc rows).1 !! k = acc.1 !! k.
Proof.
  induction rows as [|[k0 e0] rows IH]; intros acc k Hk; [done|].
  cbn in Hk. apply not_elem_of_cons in Hk as [Hne Hk]. cbn [foldl].
  rewrite IH by done. unfold sift. case_decide; cbn; [|done].
  by rewrite lookup_insert_ne.
Qed.

Lemma sift_inside (rows : list (string * WorkspaceEntry)) :
  NoDup rows.*1 →
  ∀ acc k e, (k, e) ∈ rows →
    (foldl sift acc rows).1 !! k =
      if decide (probe_passes process_kill (k, e)) then Some e else acc.1 !! k.
Proof.
  induction rows as [|[k0 e0] rows IH]; intros Hnd acc k e Hin.
  { by apply elem_of_nil in Hin. }
  cbn in Hnd. apply NoDup_cons in Hnd as [Hfresh Hnd]. cbn [foldl].
  apply elem_of_cons in Hin as [[= -> ->]|Hin].
  - rewrite sift_outside by done. unfold sift. cbn [fst snd].
    case_decide; cbn; [by rewrite lookup_insert_eq | done].
  - rewrite (IH Hnd _ k e Hin). case_decide; [done|].
    assert (k ≠ k0) as Hne.
    { intros ->. apply Hfresh. apply list_elem_of_fmap. by exists (k0, e). }
    unfold sift. case_decide; cbn; [|done]. by rewrite lookup_insert_ne.
Qed.

Lemma sift_count (rows : list (string * WorkspaceEntry)) :
  ∀ acc, (foldl sift acc rows).2 =
         acc.2 + length (filter (λ row, ¬ probe_passes process_kill row) rows).
Proof.
  induction rows as [|row rows IH]; intros acc; cbn [foldl].
  - cbn. lia.
  - rewrite IH, filter_cons. unfold sift. case_decide.
    + rewrite decide_False by tauto. done.
    + rewrite decide_True by done. cbn. lia.
Qed.

Lemma sift_document (doc : gmap string WorkspaceEntry) :
  (foldl sift (∅, 0) (map_to_list doc)).1 = passing_rows doc.
Proof.
  apply map_eq. intros k. unfold passing_rows.
  destruct (doc !! k) as [e|] eqn:Hk.
  - rewrite (sift_inside _ (NoDup_fst_map_to_list doc) _ k e)
      by (by apply elem_of_map_to_list).
    cbn [fst]. rewrite lookup_empty. case_decide as Hlive.
    + symmetry. by apply map_lookup_filter_Some.
    + symmetry. apply map_lookup_filter_None. right. intros e' He'.
      rewrite Hk in He'. by injection He' as <-.
  - rewrite sift_outside.
    + cbn. rewrite lookup_empty. symmetry. apply map_lookup_filter_None. by left.
    + intros Hin. apply list_elem_of_fmap in Hin as ([k' e] & -> & Hin).
      apply elem_of_map_to_list in Hin. cbn in Hk. congruence.
Qed.

Lemma sift_found_refused (doc : gmap string WorkspaceEntry) :
  0 < (foldl sift (∅, 0) (map_to_list doc)).2 ↔ has_refused doc.
Proof.
  rewrite sift_count. cbn [snd]. split.
  - intros Hpos.
    destruct (filter (λ row, ¬ probe_passes process_kill row) (map_to_list doc))
      as [|[k e] rest] eqn:Hf; [cbn in Hpos; lia|].
    assert ((k, e) ∈ filter (λ row, ¬ probe_passes process_kill row) (map_to_list doc)) as Hin
      by (rewrite Hf; left).
    apply list_elem_of_filter in Hin as [Hdead Hin]. apply elem_of_map_to_list in Hin.
    by exists k, e.
  - intros (k & e & Hk & Hdead).
    assert ((k, e) ∈ filter (λ row, ¬ probe_passes process_kill row) (map_to_list doc)) as Hin.
    { apply list_elem_of_filter. split; [done|]. by apply elem_of_map_to_list. }
    destruct (filter _ (map_to_list doc)); [by apply elem_of_nil in Hin | cbn; lia].
Qed.

Lemma passing_rows_all_pass (doc : gmap string WorkspaceEntry) : ¬ has_refused (passing_rows doc).
Proof.
  intros (k & e & Hk & Hdead). apply map_lookup_filter_Some in Hk as [_ Hlive]. done.
Qed.

Lemma passing_rows_id (doc : gmap string WorkspaceEntry) : ¬ has_refused doc → passing_rows doc = doc.
Proof.
  intros Hnone. apply map_filter_id. intros k e Hk. unfold probe_passes. cbn.
  destruct (process_kill (pid e) 0) eqn:Hp; [|done]. exfalso. apply Hnone.
  exists k, e. split; [done|]. congruence.
Qed.

End cleanup_loop_facts.

Section cache_io.
Import WorkspaceCache CacheSpec CacheFrame CacheProbe.

Lemma readCache_cases (w : World) :
  ∃ r w', _readCache w = (r, w') ∧ framed w w' [ReadCache] ∧
          lockFile w' = lockFile w ∧ faults w' = tail (faults w) ∧
          neighbours w' = neighbours w ∧
          ∀ doc, r = Ok doc → doc = ∅ ∨ readable (cacheFile w) = Some doc.
Proof.
  destruct w as [cache lock fs nbs jr]. ws_run. unfold has_code.
  destruct fs as [|[e|] fs]; ws_run.
  - destruct cache as [[doc| |raw]|]; ws_run; cbn; eexists; eexists;
      (split; [reflexivity|]); (split; [repeat split; repeat constructor|]);
      (repeat split; try done); intros ? [= <-]; eauto.
  - destruct (bool_decide (err_code e = Some "ENOENT")); eexists; eexists;
      (split; [reflexivity|]); (split; [repeat split; repeat constructor|]);
      (repeat split; try done); intros ? [= <-]; eauto.
  - destruct cache as [[doc| |raw]|]; ws_run; cbn; eexists; eexists;
      (split; [reflexivity|]); (split; [repeat split; repeat constructor|]);
      (repeat split; try done); intros ? [= <-]; eauto.
Qed.

Lemma readCache_clean (w : World) (doc : gmap string WorkspaceEntry) :
  no_fault_next w → readable (cacheFile w) = Some doc →
  _readCache w =
    (Ok doc, mkWorld (cacheFile w) (lockFile w) (tail (faults w)) (neighbours w)
                     (journal w ++ [ReadCache])).
Proof.
  destruct w as [cache lock fs nbs jr]. unfold no_fault_next. cbn. intros Hnf Hdoc.
  ws_run. destruct fs as [|[e|] fs]; [|done|]; ws_run;
    destruct cache as [[d| |raw]|]; cbn in Hdoc; simplify_eq; done.
Qed.

Lemma writeCache_cases (doc : gmap string WorkspaceEntry) (w : World) :
  ∃ r w', _writeCache doc w = (r, w') ∧
          journal w' = journal w ++ [WriteCache (JsonText doc)] ∧
          lockFile w' = lockFile w ∧ faults w' = tail (faults w) ∧
          neighbours w' = neighbours w ∧
          ((r = Ok tt ∧ cacheFile w' = Some (JsonText doc) ∧ no_fault_next w) ∨
           (∃ e, r = Throw e ∧ cacheFile w' = cacheFile w)).
Proof.
  destruct w as [cache lock fs nbs jr]. unfold no_fault_next. ws_run.
  destruct fs as [|[e|] fs]; ws_run; eexists; eexists; (split; [reflexivity|]);
    cbn; repeat split; eauto.
Qed.

End cache_io.

Section cleanup.
Import WorkspaceCache CacheSpec CacheFrame CacheProbe.
Variable process_kill : Z → Z → option JsError.
Variable self : Process.
#[local] Abbreviation passing_rows := (passing_rows process_kill).
#[local] Abbreviation has_refused := (has_refused process_kill).

#[local] Abbreviation cleanup_inv := (cleanup_inv process_kill).

Lemma cleanup_inv_refl (w0 : World) : cleanup_inv w0 w0.
Proof. exists []. rewrite app_nil_r. split; [done|]. split; [constructor | by left]. Qed.

Lemma cleanup_inv_framed (w0 w w' : World) (evs : list Event) :
  framed w w' evs → cleanup_inv w0 w → cleanup_inv w0 w'.
Proof.
  intros (Hc & Hj & Hevs) (evs0 & Hj0 & Hw & Hcache).
  exists (evs0 ++ evs). rewrite Hj, Hj0, <- app_assoc, Hc. split; [done|]. split; [|done].
  apply Forall_app. split; [done|].
  eapply Forall_impl; [exact Hevs|]. cbn. intros e -> ?. done.
Qed.

Lemma cleanup_section_preserves (w0 w : World) :
  cleanup_inv w0 w → cleanup_inv w0 (cleanup_section process_kill w).2.
Proof.
  intros Hinv. unfold cleanup_section. unfold bind at 1.
  destruct (readCache_cases w) as (r & w1 & -> & Hfr & _ & _ & _ & Hdoc).
  pose proof (cleanup_inv_framed w0 w w1 _ Hfr Hinv) as Hinv1.
  destruct r as [doc|e]; [|done].
  unfold bind at 1.
  destruct (cleanup_loop_run process_kill (map_to_list doc) (∅, 0) w1) as (evs & -> & Hevs).
  set (w2 := mkWorld (cacheFile w1) (lockFile w1) (faults w1) (neighbours w1)
                     (journal w1 ++ evs)).
  assert (cleanup_inv w0 w2) as Hinv2.
  { apply (cleanup_inv_framed w0 w1 w2 evs); [|done]. split; [reflexivity|]. split; [reflexivity|]. exact Hevs. }
  pose proof (sift_document process_kill doc) as Hcleaned.
  pose proof (sift_found_refused process_kill doc) as Hcount.
  destruct (foldl (sift process_kill) (∅, 0) (map_to_list doc)) as [cleaned count].
  cbn [fst snd] in *. subst cleaned.
  case_bool_decide as Hpos; [|done].
  apply Hcount in Hpos.
  (* some row of [doc] is refused, so [doc] is the document of [w0] *)
  assert (readable (cacheFile w0) = Some doc ∧ cacheFile w2 = cacheFile w0) as [Hdoc0 Hsame].
  { destruct (Hdoc doc eq_refl) as [->|Hread].
    { destruct Hpos as (k & e & Hk & _). by rewrite lookup_empty in Hk. }
    destruct Hfr as (Hc1 & _).
    assert (cacheFile w2 = cacheFile w) as Hc2 by done.
    destruct Hinv2 as (_ & _ & _ & [Hc|[Hc _]]); rewrite Hc2 in Hc; rewrite Hc in Hread.
    - split; [done|]. by rewrite Hc2.
    - cbn in Hread. injection Hread as <-.
      by apply passing_rows_all_pass in Hpos. }
  unfold bind.
  destruct (writeCache_cases (passing_rows doc) w2) as (r & w3 & -> & Hj3 & _ & _ & _ & Hres).
  destruct Hinv2 as (evs2 & Hj2 & Hw2 & _).
  assert (cleanup_inv w0 w3) as Hinv3.
  { exists (evs2 ++ [WriteCache (JsonText (passing_rows doc))]).
    unfold cleanup_inv. rewrite Hdoc0. cbn [default].
    rewrite Hj3, Hj2, <- app_assoc. split; [done|]. split.
    - apply Forall_app. split.
      + rewrite Hdoc0 in Hw2. done.
      + repeat constructor. done.
    - destruct Hres as [(_ & Hc & _)|(e & _ & Hc)].
      + right. done.
      + left. by rewrite Hc. }
  destruct r as [[]|e]; [|done].
  cbn. eapply cleanup_inv_framed; [|exact Hinv3]. repeat split; repeat constructor.
Qed.

Lemma cleanupStaleEntries_inv (w : World) :
  (cleanupStaleEntries process_kill self w).1 = Ok tt ∧
  cleanup_inv w (cleanupStaleEntries process_kill self w).2.
Proof.
  unfold cleanupStaleEntries, try_catch.
  pose proof (withLock_preserves self (cleanup_section process_kill) (cleanup_inv w)
                (cleanup_inv_framed w) (cleanup_section_preserves w) w (cleanup_inv_refl w))
    as Hinv.
  destruct (_withLock self (cleanup_section process_kill) w) as [[[]|e] w1]; [done|].
  cbn [snd] in Hinv. split; [done|].
  eapply cleanup_inv_framed; [|exact Hinv]. repeat split; repeat constructor.
Qed.

End cleanup.

Section registry.
Import WorkspaceCache CacheSpec CacheFrame CacheProbe.
Variable self : Process.

Lemma register_clean (port : Z) (w : World) (doc : gmap string WorkspaceEntry) :
  lockFile w = None → faults w = [] → readable (cacheFile w) = Some doc →
  let updated := <[getWorkspaceKey self := mkEntry (process_pid self) port (now_iso self)]> doc in
  register self port w =
    (Ok tt,
     mkWorld (Some (JsonText updated)) None [] (neighbours w)
       (journal w ++ [Creat (process_pid self); ReadCache; WriteCache (JsonText updated);
                      Unlink; LogInfo "Registered workspace in cache" None])).
Proof.
  destruct w as [cache lock fs nbs jr]. cbn. intros -> -> Hdoc.
  unfold register, _withLock, maxRetries. cbn [lock_loop]. unfold lock_attempt. ws_run.
  destruct cache as [[d| |raw]|]; cbn in Hdoc; simplify_eq; ws_run; unfold has_code; cbn;
    rewrite ?bool_decide_eq_true_2 by done; ws_run;
    rewrite <- ?app_assoc; reflexivity.
Qed.

Lemma getActiveWorkspaces_clean (w : World) (doc : gmap string WorkspaceEntry) :
  faults w = [] → readable (cacheFile w) = Some doc →
  getActiveWorkspaces w =
    (Ok doc, mkWorld (cacheFile w) (lockFile w) [] (neighbours w) (journal w ++ [ReadCache])).
Proof.
  intros Hfs Hdoc. unfold getActiveWorkspaces, try_catch.
  rewrite (readCache_clean w doc); [by rewrite Hfs | by unfold no_fault_next; rewrite Hfs | done].
Qed.

Lemma deregister_clean (w : World) (doc : gmap string WorkspaceEntry) :
  lockFile w = None → faults w = [] → readable (cacheFile w) = Some doc →
  ∃ w', deregister self w = (Ok tt, w') ∧
        readable (cacheFile w') = Some (delete (getWorkspaceKey self) doc) ∧
        lockFile w' = None ∧ faults w' = [] ∧
        (is_Some (doc !! getWorkspaceKey self) →
           cacheFile w' = Some (JsonText (delete (getWorkspaceKey self) doc))) ∧
        (doc !! getWorkspaceKey self = None → cacheFile w' = cacheFile w).
Proof.
  destruct w as [cache lock fs nbs jr]. cbn. intros -> -> Hdoc.
  unfold deregister, _withLock, maxRetries. cbn [lock_loop]. unfold lock_attempt. ws_run.
  destruct cache as [[d| |raw]|]; cbn in Hdoc; simplify_eq; ws_run; unfold has_code; cbn;
    rewrite ?(bool_decide_eq_true_2 (Some "ENOENT" = Some "ENOENT")) by done; ws_run;
    case_bool_decide as Hrow; ws_run; eexists; (split; [reflexivity|]); cbn;
    repeat split; try done;
    try (intros Hs; by destruct Hrow);
    try (rewrite delete_id; [done | by apply eq_None_not_Some]);
    try (rewrite lookup_empty in Hrow; by destruct Hrow as [? ?]);
    try (intros Hnone; rewrite Hnone in Hrow; by destruct Hrow as [? ?]).
Qed.

(** C8. With the lock free, the cache file readable and no [fs] failure,
    [register(port)] writes the document with [{pid, port, startTime}] put
    under the caller's workspace key and every other row unchanged;
    [getActiveWorkspaces] then returns a document that has exactly that entry
    under the key; and [deregister] then writes the document without the row
    of the key, every other row being what it was before [register]. *)
Theorem register_list_deregister_roundtrip (port : Z) (w : World)
    (doc : gmap string WorkspaceEntry) :
  lockFile w = None → faults w = [] → readable (cacheFile w) = Some doc →
  let key := getWorkspaceKey self in
  let entry := mkEntry (process_pid self) port (now_iso self) in
  ∃ w1 w2 w3 listed after,
    register self port w = (Ok tt, w1) ∧
    cacheFile w1 = Some (JsonText (<[key := entry]> doc)) ∧
    (∀ k, k ≠ key → <[key := entry]> doc !! k = doc !! k) ∧
    getActiveWorkspaces w1 = (Ok listed, w2) ∧
    listed !! key = Some entry ∧
    deregister self w2 = (Ok tt, w3) ∧
    cacheFile w3 = Some (JsonText after) ∧
    after !! key = None ∧
    (∀ k, k ≠ key → after !! k = doc !! k).
Proof.
  intros Hlock Hfs Hdoc key entry.
  pose proof (register_clean port w doc Hlock Hfs Hdoc) as Hreg. cbn zeta in Hreg.
  fold key entry in Hreg.
  set (w1 := mkWorld (Some (JsonText (<[key:=entry]> doc))) None [] (neighbours w)
               (journal w ++ [Creat (process_pid self); ReadCache;
                              WriteCache (JsonText (<[key:=entry]> doc)); Unlink;
                              LogInfo "Registered workspace in cache" None])) in Hreg.
  pose proof (getActiveWorkspaces_clean w1 (<[key:=entry]> doc) eq_refl eq_refl) as Hlist.
  set (w2 := mkWorld (cacheFile w1) (lockFile w1) [] (neighbours w1)
               (journal w1 ++ [ReadCache])) in Hlist.
  destruct (deregister_clean w2 (<[key:=entry]> doc) eq_refl eq_refl eq_refl)
    as (w3 & Hde & _ & _ & _ & Hgone & _).
  exists w1, w2, w3, (<[key:=entry]> doc), (delete key (<[key:=entry]> doc)).
  split; [done|]. split; [done|]. split; [intros k Hk; by rewrite lookup_insert_ne|].
  split; [done|]. split; [by rewrite lookup_insert_eq|]. split; [done|].
  split; [apply Hgone; fold key; rewrite lookup_insert_eq; eauto|].
  split; [by rewrite lookup_delete_eq|].
  intros k Hk. by rewrite lookup_delete_ne, lookup_insert_ne.
Qed.

End registry.

Section registry_samples.
Import WorkspaceCache CacheSpec CacheSamples.

Lemma register_list_deregister_roundtrip_witness :
  (lockFile free_world = None ∧ faults free_world = [] ∧
   readable (cacheFile free_world) = Some sample_doc) ∧
  ∃ w1 listed,
    register this_process 37373 free_world = (Ok tt, w1) ∧
    (getActiveWorkspaces w1).1 = Ok listed ∧
    listed !! "/home/dev/project" = Some (mkEntry 4242 37373 "2024-05-01T10:00:00.000Z").
Proof.
  split; [split; [reflexivity|]; split; reflexivity|].
  destruct (register_list_deregister_roundtrip this_process 37373 free_world sample_doc
              eq_refl eq_refl eq_refl)
    as (w1 & w2 & w3 & listed & after & Hreg & _ & _ & Hlist & Hentry & _).
  exists w1, listed. split; [exact Hreg|]. split; [by rewrite Hlist | exact Hentry].
Defined.

End registry_samples.

Section cleanup_claim.
Import WorkspaceCache CacheSpec CacheFrame CacheProbe.
Variable process_kill : Z → Z → option JsError.
Variable self : Process.
#[local] Abbreviation passing_rows := (passing_rows process_kill).
#[local] Abbreviation has_refused := (has_refused process_kill).

Lemma cleanup_section_clean (w : World) (doc : gmap string WorkspaceEntry) :
  faults w = [] → readable (cacheFile w) = Some doc →
  ∃ w', cleanup_section process_kill w = (Ok tt, w') ∧
        faults w' = [] ∧ lockFile w' = lockFile w ∧
        ((has_refused doc ∧ cacheFile w' = Some (JsonText (passing_rows doc))) ∨
         (¬ has_refused doc ∧ cacheFile w' = cacheFile w)).
Proof.
  intros Hfs Hdoc. unfold cleanup_section. unfold bind at 1.
  rewrite (readCache_clean w doc) by (done || by unfold no_fault_next; rewrite Hfs).
  unfold bind at 1.
  destruct (cleanup_loop_run process_kill (map_to_list doc) (∅, 0)
              (mkWorld (cacheFile w) (lockFile w) (tail (faults w)) (neighbours w)
                       (journal w ++ [ReadCache]))) as (evs & -> & _).
  pose proof (sift_document process_kill doc) as Hcleaned.
  pose proof (sift_found_refused process_kill doc) as Hcount.
  destruct (foldl (sift process_kill) (∅, 0) (map_to_list doc)) as [cleaned count].
  cbn [fst snd cacheFile lockFile faults neighbours journal] in *. subst cleaned.
  rewrite Hfs. case_bool_decide as Hpos.
  - ws_run. eexists. split; [reflexivity|]. cbn. split; [done|]. split; [done|].
    left. split; [by apply Hcount | done].
  - eexists. split; [reflexivity|]. cbn. split; [done|]. split; [done|].
    right. split; [by rewrite <- Hcount | done].
Qed.

(** What [cleanupStaleEntries] does, in terms of the verdict of its probe.
    From every world, whatever read, probe or write fails, it returns
    normally; it issues a write of the cache file only if the probe refused
    some row of the document, and what it writes is the document restricted to
    the rows that pass; so the cache file is afterwards either untouched or
    exactly the passing rows. With the lock free, the cache file readable and
    no [fs] failure, the document read back afterwards is the former one
    restricted to its passing rows: a row is in it if and only if it was there
    and [process.kill(pid, 0)] did not throw; the file is untouched when no
    row was refused, and the lock file is gone. *)
Lemma cleanupStaleEntries_drops_exactly_the_refused_rows (w : World) :
  let w' := (cleanupStaleEntries process_kill self w).2 in
  let doc0 := default ∅ (readable (cacheFile w)) in
  (cleanupStaleEntries process_kill self w).1 = Ok tt ∧
  (∃ evs, journal w' = journal w ++ evs ∧
          ∀ content, WriteCache content ∈ evs →
                     content = JsonText (passing_rows doc0) ∧ has_refused doc0) ∧
  (cacheFile w' = cacheFile w ∨ cacheFile w' = Some (JsonText (passing_rows doc0))) ∧
  (∀ doc, lockFile w = None → faults w = [] → readable (cacheFile w) = Some doc →
     readable (cacheFile w') = Some (passing_rows doc) ∧
     (∀ k e, passing_rows doc !! k = Some e ↔
             doc !! k = Some e ∧ process_kill (pid e) 0 = None) ∧
     (¬ has_refused doc → cacheFile w' = cacheFile w) ∧
     lockFile w' = None).
Proof.
  intros w' doc0.
  destruct (cleanupStaleEntries_inv process_kill self w) as [Hok (evs & Hj & Hw & Hc)].
  fold w' in Hj, Hc. fold doc0 in Hw, Hc.
  split; [done|]. split; [|split].
  - exists evs. split; [done|]. intros content Hin.
    rewrite Forall_forall in Hw. destruct (Hw _ Hin eq_refl) as [[= ->] Hrefused]. done.
  - destruct Hc as [Hc|[Hc _]]; eauto.
  - intros doc Hlock Hfs Hdoc.
    assert (∃ w3, cleanupStaleEntries process_kill self w = (Ok tt, w3) ∧ lockFile w3 = None ∧
              ((has_refused doc ∧ cacheFile w3 = Some (JsonText (passing_rows doc))) ∨
               (¬ has_refused doc ∧ cacheFile w3 = cacheFile w))) as (w3 & Hrun & Hl3 & Hc3).
    { destruct (lock_attempt_acquired self (cleanup_section process_kill) w)
        as (r & w2 & w3 & Hfn & Hun & Hrun);
        [done | by unfold no_fault_next; rewrite Hfs |].
      destruct (cleanup_section_clean (lock_created self w) doc)
        as (w2' & Hfn' & Hfs2 & _ & Hc2); [by cbn; rewrite Hfs | done |].
      rewrite Hfn in Hfn'. injection Hfn' as -> <-.
      destruct (unlink_quietly w2) as (w3' & Hun' & Hc3 & _ & _ & _ & Hl3).
      rewrite Hun in Hun'. injection Hun' as <-.
      exists w3. unfold cleanupStaleEntries, try_catch, _withLock, maxRetries.
      cbn [lock_loop]. unfold bind at 1. rewrite Hrun.
      split; [done|]. split; [apply Hl3; by unfold no_fault_next; rewrite Hfs2|].
      rewrite Hc3. exact Hc2. }
    subst w'. rewrite Hrun. cbn [snd]. rewrite Hl3.
    assert (∀ k e, passing_rows doc !! k = Some e ↔
                   doc !! k = Some e ∧ process_kill (pid e) 0 = None) as Hrows.
    { intros k e. unfold CacheProbe.passing_rows. by rewrite map_lookup_filter_Some. }
    destruct Hc3 as [[Hrefused ->]|[Hnone ->]].
    + split; [done|]. split; [exact Hrows|]. split; [done|]. done.
    + split; [by rewrite Hdoc, (passing_rows_id process_kill doc Hnone)|].
      split; [exact Hrows|]. split; [done|]. done.
Qed.

End cleanup_claim.

(** * Further properties of the orchestrator *)

Section jsmap_set_facts.
Context {V : Type}.
Implicit Types (m : list (string * V)) (k : string) (v : V).

Lemma jsmap_set_NoDup m k v : NoDup (JsMap.keys m) → NoDup (JsMap.keys (JsMap.set k v m)).
Proof.
  intros Hnd. rewrite jsmap_keys_set. case_decide as Hin; [done|].
  apply NoDup_app. split; [done|]. split.
  - intros x Hx Hk. apply list_elem_of_singleton in Hk as ->. done.
  - apply NoDup_singleton.
Qed.

Lemma jsmap_set_Forall (P : string * V → Prop) m k v :
  Forall P m → P (k, v) → Forall P (JsMap.set k v m).
Proof.
  intros Hm Hkv. induction Hm as [|[k' v'] m Hx Hm IH]; cbn.
  - by constructor.
  - case_decide; constructor; done.
Qed.

Lemma jsmap_get_Some_elem m k v : JsMap.get k m = Some v → (k, v) ∈ m.
Proof.
  induction m as [|[k' v'] m IH]; cbn; [done|].
  case_decide as Hk.
  - intros [= ->]. subst. left.
  - intros. right. auto.
Qed.
End jsmap_set_facts.

Section hub_invariant.
Import Hub HubInvariant.
Variable env : Collaborators.

Lemma same_handles_valid (h h' : MCPHub) :
  same_handles h h' → handles_valid h → handles_valid h'.
Proof. intros [Hc Hl] [Hnd Hids]. split; rewrite Hc, ?Hl; done. Qed.

Lemma entries_map_valid (servers : list (string * ServerConfig)) :
  ∀ next (m : list (string * nat)),
    NoDup (JsMap.keys m) → Forall (λ entry, entry.2 < next) m →
    NoDup (JsMap.keys (entries_map next servers m)) ∧
    Forall (λ entry, entry.2 < next + length servers) (entries_map next servers m).
Proof.
  induction servers as [|[name sc] rest IH]; intros next m Hnd Hids.
  - cbn. split; [done|]. eapply Forall_impl; [done|]. cbn. intros. lia.
  - cbn [entries_map length].
    destruct (IH (S next) (JsMap.set name next m)) as [Hnd' Hids'].
    + by apply jsmap_set_NoDup.
    + apply jsmap_set_Forall; [|cbn; lia].
      eapply Forall_impl; [done|]. cbn. intros. lia.
    + split; [done|]. eapply Forall_impl; [done|]. cbn. intros. lia.
Qed.

Lemma startConfiguredServers_valid (h : MCPHub) :
  handles_valid h → handles_valid (startConfiguredServers env h).2.
Proof.
  intros [Hnd Hids].
  destruct (startConfiguredServers_run env h) as (h' & -> & Hc & Hl & _). cbn [snd].
  destruct (entries_map_valid (configured_entries (cm_config (configManager h)))
              (length (heap h)) (connections h) Hnd Hids) as [Hnd' Hids'].
  split; rewrite Hc, ?Hl; done.
Qed.

Ltac shape_cases :=
  repeat (hub_run;
          match goal with
          | |- context [match ?x with _ => _ end] =>
              lazymatch x with
              | context [match _ with _ => _ end] => fail
              | _ => destruct x eqn:?
              end
          end);
  hub_run; unfold same_handles; cbn; rewrite ?length_insert; try done.

Lemma startServer_same_handles (name : string) (h : MCPHub) :
  same_handles h (startServer env name h).2.
Proof. destruct h as [conns objs [src c pers wt ls] sw jr]. unfold startServer. shape_cases. Qed.

Lemma stopServer_same_handles (name : string) (disable : bool) (h : MCPHub) :
  same_handles h (stopServer env name disable h).2.
Proof. destruct h as [conns objs [src c pers wt ls] sw jr]. unfold stopServer. shape_cases. Qed.

Lemma disconnectServer_same_handles (name : string) (h : MCPHub) :
  same_handles h (disconnectServer env name h).2.
Proof. destruct h as [conns objs [src c pers wt ls] sw jr]. unfold disconnectServer. shape_cases. Qed.

Lemma callTool_same_handles (serverName toolName : string) (args : JsVal) (h : MCPHub) :
  same_handles h (callTool env serverName toolName args h).2.
Proof. destruct h as [conns objs [src c pers wt ls] sw jr]. unfold callTool. shape_cases. Qed.

Lemma readResource_same_handles (serverName uri : string) (h : MCPHub) :
  same_handles h (readResource env serverName uri h).2.
Proof. destruct h as [conns objs [src c pers wt ls] sw jr]. unfold readResource. shape_cases. Qed.

Lemma connectServer_valid (name : string) (config : ServerConfig) (h : MCPHub) :
  handles_valid h → handles_valid (connectServer env name config h).2.
Proof.
  intros [Hnd Hids].
  destruct h as [conns objs cm sw jr]. unfold connectServer. hub_run.
  destruct (connect env (length objs) _) as [[[]|e] c']; hub_run; split; cbn;
    rewrite ?length_insert, ?length_app; cbn;
    try (by apply jsmap_set_NoDup);
    (apply jsmap_set_Forall; [|cbn; lia]);
    (eapply Forall_impl; [exact Hids|]); cbn; intros; lia.
Qed.

Lemma cm_updateConfig_same_handles (x : ConfigInput) (h : MCPHub) :
  same_handles h (cm_updateConfig env x h).2.
Proof. destruct h as [conns objs [src c pers wt ls] sw jr]. shape_cases. Qed.

Lemma cm_loadConfig_same_handles (h : MCPHub) : same_handles h (cm_loadConfig env h).2.
Proof. destruct h as [conns objs [src c pers wt ls] sw jr]. shape_cases. Qed.

Lemma watch_same_handles (h : MCPHub) :
  same_handles h
    ((let! h0 := get in
      if shouldWatchConfig h0 then cm_watchConfig env >> cm_on_configChanged else ret tt) h).2.
Proof. destruct h as [conns objs [src c pers wt ls] sw jr]. shape_cases. Qed.

Lemma updateConfig_valid (x : ConfigInput) (h : MCPHub) :
  handles_valid h → handles_valid (updateConfig env x h).2.
Proof.
  intros Hv. unfold updateConfig, try_catch, bind at 1.
  pose proof (same_handles_valid _ _ (cm_updateConfig_same_handles x h) Hv) as Hv1.
  destruct (cm_updateConfig env x h) as [[[]|e] h1]; cbn [snd] in Hv1; [|done].
  pose proof (startConfiguredServers_valid h1 Hv1) as Hv2.
  destruct (startConfiguredServers env h1) as [[[]|e] h2]; done.
Qed.

Lemma initialize_valid (h : MCPHub) :
  handles_valid h → handles_valid (initialize env h).2.
Proof.
  intros Hv. unfold initialize, try_catch, bind at 1.
  pose proof (same_handles_valid _ _ (cm_loadConfig_same_handles h) Hv) as Hv1.
  destruct (cm_loadConfig env h) as [[[]|e] h1]; cbn [snd] in Hv1.
  - unfold bind at 1.
    pose proof (same_handles_valid _ _ (watch_same_handles h1) Hv1) as Hv2.
    destruct ((let! h0 := get in
               if shouldWatchConfig h0 then cm_watchConfig env >> cm_on_configChanged
               else ret tt) h1) as [[[]|e] h2]; cbn [snd] in Hv2.
    + pose proof (startConfiguredServers_valid h2 Hv2) as Hv3.
      destruct (startConfiguredServers env h2) as [[[]|e] h3]; [done|].
      cbn in *. unfold bind, get. cbn. by destruct (negb _).
    + unfold bind, get. cbn. by destruct (negb _).
  - unfold bind, get. cbn. by destruct (negb _).
Qed.

Lemma disconnectAll_valid (h : MCPHub) : handles_valid (disconnectAll env h).2.
Proof.
  destruct (allSettled_disconnect env (JsMap.keys (connections h))
              (mkHub (connections h) (heap h) (configManager h) (shouldWatchConfig h)
                     (journal h ++ [LogDisconnecting (JsMap.size (connections h))])))
    as (h1 & evs & Hrun & _).
  unfold disconnectAll.
  cbv beta iota zeta delta [bind ret get modify emit set_connections].
  rewrite Hrun, length_replicate, log_rejected_none. cbn.
  split; [apply NoDup_nil_2 | constructor].
Qed.

End hub_invariant.

Section hub_runs.
Import Hub HubInvariant.
Variable env : Collaborators.

Lemma connectServer_run (h : MCPHub) (name : string) (config : ServerConfig) :
  let id := length (heap h) in
  let outcome := connect env id (fresh_connection env name config) in
  connectServer env name config h =
    (match outcome.1 with
     | Ok _ => Ok (getServerInfo outcome.2)
     | Throw error => Throw error
     end,
     mkHub (JsMap.set name id (connections h)) (heap h ++ [outcome.2]) (configManager h)
           (shouldWatchConfig h)
           (journal h ++ [NewConnection id name config; MapSet name id; CallConnect id])).
Proof.
  destruct h as [conns objs cm sw jr]. unfold fresh_connection, connectServer. hub_step.
  destruct (heap_store_fresh objs (mkConnection name config (initial_status env name config))
              (connect env (length objs)
                 (mkConnection name config (initial_status env name config))).2)
    as [Hget Hput].
  rewrite Hget.
  destruct (connect env (length objs) (mkConnection name config (initial_status env name config)))
    as [[[]|error] c'] eqn:Hc; cbn [fst snd] in *; rewrite Hput;
    rewrite ?(proj1 (heap_store_fresh objs c' c')); rewrite <- !app_assoc; reflexivity.
Qed.

Lemma disconnectAll_run (h : MCPHub) :
  (disconnectAll env h).1 = Ok tt ∧ connections (disconnectAll env h).2 = [].
Proof.
  destruct (allSettled_disconnect env (JsMap.keys (connections h))
              (mkHub (connections h) (heap h) (configManager h) (shouldWatchConfig h)
                     (journal h ++ [LogDisconnecting (JsMap.size (connections h))])))
    as (h1 & evs & Hrun & _).
  unfold disconnectAll.
  cbv beta iota zeta delta [bind ret get modify emit set_connections].
  rewrite Hrun, length_replicate, log_rejected_none. done.
Qed.

Lemma get_entries_map_other (servers : list (string * ServerConfig)) :
  ∀ next (m : list (string * nat)) name,
    name ∉ servers.*1 → JsMap.get name (entries_map next servers m) = JsMap.get name m.
Proof.
  induction servers as [|[k sc] rest IH]; intros next m name Hname; [done|].
  cbn in Hname. apply not_elem_of_cons in Hname as [Hne Hname]. cbn [entries_map].
  rewrite IH by done. by apply jsmap_get_set_ne.
Qed.

Lemma no_disconnect_in_entries_events (servers : list (string * ServerConfig)) :
  ∀ next id, CallDisconnect id ∉ entries_events env next servers.
Proof.
  induction servers as [|[name sc] rest IH]; intros next id Hin.
  { by apply elem_of_nil in Hin. }
  cbn [entries_events] in Hin. apply elem_of_app in Hin as [Hin|Hin]; [|by eapply IH].
  unfold entry_events in Hin. apply elem_of_app in Hin as [Hin|Hin].
  - repeat (apply elem_of_cons in Hin as [Hin|Hin]; [destruct (disabled sc); congruence|]).
    by apply elem_of_nil in Hin.
  - destruct (connect env next (fresh_connection env name sc)).1.
    + by apply elem_of_nil in Hin.
    + apply list_elem_of_singleton in Hin. discriminate.
Qed.

End hub_runs.

Section connection_queries.
Import Hub HubInvariant.
Variable env : Collaborators.

(** X1. The connection map stays well formed. It is so in a newly constructed
    hub; and when it is so in a hub, it is so after [initialize],
    [startConfiguredServers], [updateConfig], [connectServer], [startServer],
    [stopServer], [disconnectServer], [disconnectAll], [callTool] and
    [readResource], whether the operation returned or threw: the map names
    each server once, and every handle in it is a connection object that was
    constructed. *)
Theorem connection_map_stays_valid (h : MCPHub) (src x : ConfigInput) (watch disable : bool)
    (name tool uri : string) (args : JsVal) (config : ServerConfig) :
  handles_valid (constructor src watch) ∧
  (handles_valid h →
     handles_valid (initialize env h).2 ∧
     handles_valid (startConfiguredServers env h).2 ∧
     handles_valid (updateConfig env x h).2 ∧
     handles_valid (connectServer env name config h).2 ∧
     handles_valid (startServer env name h).2 ∧
     handles_valid (stopServer env name disable h).2 ∧
     handles_valid (disconnectServer env name h).2 ∧
     handles_valid (disconnectAll env h).2 ∧
     handles_valid (callTool env name tool args h).2 ∧
     handles_valid (readResource env name uri h).2).
Proof.
  split.
  - split; [apply NoDup_nil_2 | constructor].
  - intros Hv.
    split; [by apply initialize_valid|].
    split; [by apply startConfiguredServers_valid|].
    split; [by apply updateConfig_valid|].
    split; [by apply connectServer_valid|].
    split; [eapply same_handles_valid; [apply startServer_same_handles | done]|].
    split; [eapply same_handles_valid; [apply stopServer_same_handles | done]|].
    split; [eapply same_handles_valid; [apply disconnectServer_same_handles | done]|].
    split; [apply disconnectAll_valid|].
    split; [eapply same_handles_valid; [apply callTool_same_handles | done]|].
    eapply same_handles_valid; [apply readResource_same_handles | done].
Qed.

(** X2. After [connectServer(name, config)], whether the connect succeeded or
    threw, [getServerStatus(name)] returns a snapshot without changing the hub
    and that snapshot is among [getAllServerStatuses()]; when [connectServer]
    returned, it is the snapshot [connectServer] returned. *)
Theorem status_is_queryable_after_connectServer (h : MCPHub) (name : string)
    (config : ServerConfig) :
  let h' := (connectServer env name config h).2 in
  (∃ info, getServerStatus name h' = (Ok info, h') ∧ info ∈ getAllServerStatuses h') ∧
  (∀ info, (connectServer env name config h).1 = Ok info →
           getServerStatus name h' = (Ok info, h')).
Proof.
  intros h'. subst h'. rewrite (connectServer_run env h name config). cbn [fst snd].
  set (outcome := connect env (length (heap h)) (fresh_connection env name config)).
  assert (∀ jr, getServerStatus name
            (mkHub (JsMap.set name (length (heap h)) (connections h)) (heap h ++ [outcome.2])
                   (configManager h) (shouldWatchConfig h) jr) =
          (Ok (getServerInfo outcome.2),
           mkHub (JsMap.set name (length (heap h)) (connections h)) (heap h ++ [outcome.2])
                 (configManager h) (shouldWatchConfig h) jr)) as Hstatus.
  { intros jr. unfold getServerStatus. hub_run. rewrite jsmap_get_set_eq. hub_run.
    by rewrite (proj1 (heap_store_fresh (heap h) outcome.2 outcome.2)). }
  split.
  - exists (getServerInfo outcome.2). split; [apply Hstatus|].
    unfold getAllServerStatuses. cbn [connections heap].
    apply list_elem_of_fmap. exists (length (heap h)). split.
    + by rewrite (proj1 (heap_store_fresh (heap h) outcome.2 outcome.2)).
    + unfold JsMap.values. apply list_elem_of_fmap. exists (name, length (heap h)).
      split; [done|]. apply jsmap_get_Some_elem. apply jsmap_get_set_eq.
  - intros info Hinfo. rewrite Hstatus. destruct outcome.1; by simplify_eq.
Qed.

End connection_queries.

Section start_and_stop.
Import Hub HubInvariant.
Variable env : Collaborators.

(** X3. [disconnectServer(name)] always returns normally and leaves the
    connection map as it was: for a name the map does not have, the hub is not
    changed at all; for a name it has, [getServerStatus(name)] still answers
    afterwards. *)
Theorem disconnectServer_keeps_the_entry (h : MCPHub) (name : string) :
  let h' := (disconnectServer env name h).2 in
  (disconnectServer env name h).1 = Ok tt ∧
  connections h' = connections h ∧
  (JsMap.get name (connections h) = None → h' = h) ∧
  (is_Some (JsMap.get name (connections h)) →
     ∃ info, getServerStatus name h' = (Ok info, h')).
Proof.
  intros h'. subst h'.
  destruct (disconnectServer_run env name h) as (h1 & evs & Hrun & Hc & _).
  rewrite Hrun. cbn [fst snd]. split; [done|]. split; [done|]. split.
  - intros Hnone. revert Hrun. unfold disconnectServer. hub_run. rewrite Hnone.
    hub_run. by intros [= <-].
  - intros [id Hid]. unfold getServerStatus. hub_run. rewrite Hc, Hid. hub_run. eauto.
Qed.

(** X4. After [disconnectAll] the hub knows no server: [getAllServerStatuses]
    is empty; [getServerStatus], [callTool] and [readResource] throw the
    not-found ServerError for every name and [disconnectServer] does nothing,
    all without changing the hub; and when the configured names are distinct,
    [startConfiguredServers] then yields exactly one status per configured
    server. *)
Theorem disconnectAll_forgets_every_server (h : MCPHub) (name tool uri : string)
    (args : JsVal) :
  let h' := (disconnectAll env h).2 in
  getAllServerStatuses h' = [] ∧
  getServerStatus name h' =
    (Throw (ServerError "Server not found" [("server", VStr name)]), h') ∧
  callTool env name tool args h' =
    (Throw (ServerError "Server not found"
              [("server", VStr name); ("operation", VStr "tool_call"); ("tool", VStr tool)]),
     h') ∧
  readResource env name uri h' =
    (Throw (ServerError "Server not found"
              [("server", VStr name); ("operation", VStr "resource_read"); ("uri", VStr uri)]),
     h') ∧
  disconnectServer env name h' = (Ok tt, h') ∧
  (NoDup (configured_entries (cm_config (configManager h'))).*1 →
     length (getAllServerStatuses (startConfiguredServers env h').2) =
     length (configured_entries (cm_config (configManager h')))).
Proof.
  intros h'. destruct (disconnectAll_run env h) as [_ Hc]. fold h' in Hc.
  clearbody h'. destruct h' as [conns objs cm sw jr]. cbn in Hc. subst conns.
  repeat split; try reflexivity.
  intros Hnd.
  destruct (startConfiguredServers_run env (mkHub [] objs cm sw jr))
    as (h2 & -> & Hc2 & _). cbn [snd].
  unfold getAllServerStatuses. rewrite length_fmap, jsmap_length_values, Hc2.
  rewrite keys_entries_map by done. cbn [connections].
  change (JsMap.keys []) with (@nil string). rewrite app_nil_l.
  rewrite filter_all_on by (intros; apply not_elem_of_nil). by rewrite length_fmap.
Qed.

(** X5. [startServer(name)] for a configured server that has a connection.
    When the server was disabled and the ConfigManager accepts the update: the
    flag is cleared in the in-memory document, that document is handed to
    [updateConfig] and recorded as persisted, then [start] is called on the
    held connection, and its outcome is the outcome of the call. When the
    server was enabled: the ConfigManager is left alone and the only call is
    [start]. *)
Theorem startServer_enables_then_starts (h : MCPHub) (name : string) (cfg : Config)
    (sc : ServerConfig) (id : nat) :
  let cfg' := mkConfig (JsMap.alter (with_disabled false) name <$> mcpServers cfg) in
  cm_config (configManager h) = Some cfg →
  mcpServers cfg ≫= JsMap.get name = Some sc →
  JsMap.get name (connections h) = Some id →
  (disabled sc = true →
   updateConfig_outcome env (InObject (Some cfg')) = Ok (Some cfg') →
   ∃ h', startServer env name h = ((start env id (heap h !!! id)).1, h') ∧
         cm_config (configManager h') = Some cfg' ∧
         mcpServers cfg' ≫= JsMap.get name = Some (with_disabled false sc) ∧
         cm_persisted (configManager h') = cm_persisted (configManager h) ++ [Some cfg'] ∧
         journal h' = journal h ++ [CallUpdateConfig (InObject (Some cfg')); CallStart id]) ∧
  (disabled sc = false →
   ∃ h', startServer env name h = ((start env id (heap h !!! id)).1, h') ∧
         configManager h' = configManager h ∧
         journal h' = journal h ++ [CallStart id]).
Proof.
  intros cfg'. destruct h as [conns objs [src c pers wt ls] sw jr].
  cbn [configManager cm_config connections cm_persisted journal heap].
  intros -> Hsc Hconn. split.
  - intros Hdis Hup. unfold startServer. hub_run. rewrite Hsc. hub_run. rewrite Hconn.
    hub_run. rewrite Hdis. hub_run. cbn [fmap option_fmap option_map]. fold cfg'.
    rewrite Hup. hub_run.
    destruct (start env id (objs !!! id)) as [r c']. eexists. split; [reflexivity|].
    hub_run. rewrite <- !app_assoc. repeat split; try done.
    subst cfg'. cbn [mcpServers]. destruct (mcpServers cfg) as [servers|]; [|done].
    cbn in *. by rewrite jsmap_get_alter, Hsc.
  - intros Hen. unfold startServer. hub_run. rewrite Hsc. hub_run. rewrite Hconn.
    hub_run. rewrite Hen. hub_run.
    destruct (start env id (objs !!! id)) as [r c']. eexists. split; [reflexivity|].
    hub_run. done.
Qed.

(** X6. [stopServer(name, disable)] for a configured server that has a
    connection. Without [disable]: the ConfigManager is left alone and the only
    call is [stop(false)] on the held connection. With [disable], when the
    ConfigManager accepts the update: the flag is set in the in-memory
    document, that document is handed to [updateConfig] and recorded as
    persisted, then [stop(true)] is called. In both cases the outcome of
    [stop] is the outcome of the call. *)
Theorem stopServer_stops_the_held_connection (h : MCPHub) (name : string) (cfg : Config)
    (sc : ServerConfig) (id : nat) :
  let cfg' := mkConfig (JsMap.alter (with_disabled true) name <$> mcpServers cfg) in
  cm_config (configManager h) = Some cfg →
  mcpServers cfg ≫= JsMap.get name = Some sc →
  JsMap.get name (connections h) = Some id →
  (∃ h', stopServer env name false h = ((stop env id false (heap h !!! id)).1, h') ∧
         configManager h' = configManager h ∧
         journal h' = journal h ++ [CallStop id false]) ∧
  (updateConfig_outcome env (InObject (Some cfg')) = Ok (Some cfg') →
   ∃ h', stopServer env name true h = ((stop env id true (heap h !!! id)).1, h') ∧
         cm_config (configManager h') = Some cfg' ∧
         cm_persisted (configManager h') = cm_persisted (configManager h) ++ [Some cfg'] ∧
         journal h' = journal h ++ [CallUpdateConfig (InObject (Some cfg')); CallStop id true]).
Proof.
  intros cfg'. destruct h as [conns objs [src c pers wt ls] sw jr].
  cbn [configManager cm_config connections cm_persisted journal heap].
  intros -> Hsc Hconn. split.
  - unfold stopServer. hub_run. rewrite Hsc. hub_run. rewrite Hconn. hub_run.
    destruct (stop env id false (objs !!! id)) as [r c']. eexists. split; [reflexivity|].
    hub_run. done.
  - intros Hup. unfold stopServer. hub_run. rewrite Hsc. hub_run.
    cbn [fmap option_fmap option_map]. fold cfg'. rewrite Hup. hub_run. rewrite Hconn.
    hub_run. destruct (stop env id true (objs !!! id)) as [r c']. eexists.
    split; [reflexivity|]. hub_run. rewrite <- !app_assoc. done.
Qed.

(** X7. When the ConfigManager rejects the update, [stopServer(name, true)]
    and, for a disabled server, [startServer(name)] throw the ConfigManager's
    error; the connection is neither stopped nor started (no connection object
    changes and the only call made is [updateConfig]) and nothing is recorded
    as persisted, but the in-memory document already carries the new flag. *)
Theorem failed_persist_leaves_the_flag_changed (h : MCPHub) (name : string) (cfg : Config)
    (sc : ServerConfig) (id : nat) (e : JsError) :
  cm_config (configManager h) = Some cfg →
  mcpServers cfg ≫= JsMap.get name = Some sc →
  JsMap.get name (connections h) = Some id →
  (let cfg' := mkConfig (JsMap.alter (with_disabled true) name <$> mcpServers cfg) in
   updateConfig_outcome env (InObject (Some cfg')) = Throw e →
   ∃ h', stopServer env name true h = (Throw e, h') ∧
         cm_config (configManager h') = Some cfg' ∧
         cm_persisted (configManager h') = cm_persisted (configManager h) ∧
         heap h' = heap h ∧
         journal h' = journal h ++ [CallUpdateConfig (InObject (Some cfg'))]) ∧
  (let cfg' := mkConfig (JsMap.alter (with_disabled false) name <$> mcpServers cfg) in
   disabled sc = true →
   updateConfig_outcome env (InObject (Some cfg')) = Throw e →
   ∃ h', startServer env name h = (Throw e, h') ∧
         cm_config (configManager h') = Some cfg' ∧
         cm_persisted (configManager h') = cm_persisted (configManager h) ∧
         heap h' = heap h ∧
         journal h' = journal h ++ [CallUpdateConfig (InObject (Some cfg'))]).
Proof.
  destruct h as [conns objs [src c pers wt ls] sw jr].
  cbn [configManager cm_config connections cm_persisted journal heap].
  intros -> Hsc Hconn. split.
  - set (cfg' := mkConfig (JsMap.alter (with_disabled true) name <$> mcpServers cfg)).
    intros Hup. unfold stopServer. hub_run. rewrite Hsc. hub_run.
    cbn [fmap option_fmap option_map]. fold cfg'. rewrite Hup. hub_run.
    eexists. split; [reflexivity|]. hub_run. done.
  - set (cfg' := mkConfig (JsMap.alter (with_disabled false) name <$> mcpServers cfg)).
    intros Hflag Hup. unfold startServer. hub_run. rewrite Hsc. hub_run.
    rewrite Hconn. hub_run. rewrite Hflag. hub_run.
    cbn [fmap option_fmap option_map]. fold cfg'. rewrite Hup.
    hub_run. eexists. split; [reflexivity|]. hub_run. done.
Qed.

(** X8. A server connected with [connectServer] under a name the
    configuration does not have, and that is not the name of a member every
    object inherits ([constructor], [toString], ...), can be queried with
    [getServerStatus], but [startServer] and [stopServer] reject it with the
    ServerError "Server not found", leaving the hub unchanged. *)
Theorem adhoc_connection_is_not_startable (h : MCPHub) (name : string) (cfg : Config)
    (config : ServerConfig) (disable : bool) :
  cm_config (configManager h) = Some cfg →
  mcpServers cfg ≫= JsMap.get name = None →
  name ∉ Object_prototype_names →
  let h' := (connectServer env name config h).2 in
  (∃ info, getServerStatus name h' = (Ok info, h')) ∧
  startServer env name h' =
    (Throw (ServerError "Server not found" [("server", VStr name)]), h') ∧
  stopServer env name disable h' =
    (Throw (ServerError "Server not found" [("server", VStr name)]), h').
Proof.
  intros Hcfg Hname _ h'. subst h'. rewrite (connectServer_run env h name config). cbn [snd].
  split.
  - unfold getServerStatus. hub_run. rewrite jsmap_get_set_eq. hub_run. eauto.
  - unfold startServer, stopServer. hub_run. rewrite Hcfg. hub_run. rewrite Hname. done.
Qed.

(** X9. With no configuration loaded ([getConfig()] is undefined),
    [startConfiguredServers] logs a count of 0 and touches no connection,
    while [startServer] and [stopServer] throw a TypeError (reading
    [mcpServers] of undefined) and leave the hub unchanged. With a document
    that has no [mcpServers], [startConfiguredServers] does the same and
    [startServer] and [stopServer] throw the ServerError "Server not found". *)
Theorem undefined_configuration (h : MCPHub) (name : string) (disable : bool) :
  (cm_config (configManager h) = None →
     (∃ h', startConfiguredServers env h = (Ok tt, h') ∧
            connections h' = connections h ∧ heap h' = heap h ∧
            journal h' = journal h ++ [LogStarting 0]) ∧
     startServer env name h =
       (Throw (TypeError "Cannot read properties of undefined (reading 'mcpServers')"), h) ∧
     stopServer env name disable h =
       (Throw (TypeError "Cannot read properties of undefined (reading 'mcpServers')"), h)) ∧
  (cm_config (configManager h) = Some (mkConfig None) →
     (∃ h', startConfiguredServers env h = (Ok tt, h') ∧
            connections h' = connections h ∧ heap h' = heap h ∧
            journal h' = journal h ++ [LogStarting 0]) ∧
     startServer env name h =
       (Throw (ServerError "Server not found" [("server", VStr name)]), h) ∧
     stopServer env name disable h =
       (Throw (ServerError "Server not found" [("server", VStr name)]), h)).
Proof.
  destruct h as [conns objs [src c pers wt ls] sw jr]. cbn [configManager cm_config].
  unfold startConfiguredServers, startServer, stopServer.
  split; intros ->; hub_run; cbn; hub_run;
    (split; [eexists; split; [reflexivity|]; done | done]).
Qed.

End start_and_stop.

Section reconfiguration.
Import Hub HubInvariant.
Variable env : Collaborators.

(** X10. [updateConfig(x)], when the ConfigManager accepts [x] and the
    configured names are distinct: the call returns normally; the accepted
    document is the in-memory one; every configured server gets a newly
    constructed connection as its entry in the map (a handle that did not
    exist before); the entries of names that the new configuration does not
    have are kept as they were; and no connection is disconnected. *)
Theorem updateConfig_replaces_the_configured_and_keeps_the_rest (h : MCPHub)
    (x : ConfigInput) (c : option Config) :
  updateConfig_outcome env x = Ok c →
  NoDup (configured_entries c).*1 →
  ∃ h' evs,
    updateConfig env x h = (Ok tt, h') ∧
    cm_config (configManager h') = c ∧
    (∀ name sc, (name, sc) ∈ configured_entries c →
       ∃ id, JsMap.get name (connections h') = Some id ∧ (length (heap h) ≤ id)%nat ∧
             NewConnection id name sc ∈ evs) ∧
    (∀ name, name ∉ (configured_entries c).*1 →
       JsMap.get name (connections h') = JsMap.get name (connections h)) ∧
    journal h' = journal h ++ evs ∧
    (∀ id, CallDisconnect id ∉ evs).
Proof.
  intros Hup Hnd. destruct h as [conns objs [src c0 pers wt ls] sw jr].
  unfold updateConfig, try_catch, bind at 1.
  assert (cm_updateConfig env x (mkHub conns objs (mkConfigManager src c0 pers wt ls) sw jr) =
          (Ok tt, mkHub conns objs (mkConfigManager src c (pers ++ [c]) wt ls) sw
                        (jr ++ [CallUpdateConfig x]))) as ->.
  { hub_run. rewrite Hup. done. }
  destruct (startConfiguredServers_run env
              (mkHub conns objs (mkConfigManager src c (pers ++ [c]) wt ls) sw
                     (jr ++ [CallUpdateConfig x])))
    as (h' & -> & Hc & Hl & Hcm & _ & Hj).
  cbn [configManager cm_config connections heap journal] in *.
  exists h'.
  exists (CallUpdateConfig x :: LogStarting (length (configured_entries c)) ::
          entries_events env (length objs) (configured_entries c)).
  split; [reflexivity|]. rewrite Hcm. cbn [cm_config].
  split; [done|]. split; [|split; [|split]].
  - intros name sc Hin. apply list_elem_of_lookup in Hin as [i Hi].
    exists (length objs + i). split; [|split; [lia|]].
    + rewrite Hc. by eapply get_entries_map.
    + destruct (entries_events_split env (configured_entries c) (length objs) i name sc Hi)
        as (pre & post & Heq & _).
      right. right. rewrite Heq. apply elem_of_app. right.
      apply elem_of_app. left. unfold entry_events. apply elem_of_app. left.
      right. left.
  - intros name Hname. rewrite Hc. by apply get_entries_map_other.
  - rewrite Hj, <- app_assoc. reflexivity.
  - intros id Hin. apply elem_of_cons in Hin as [Hin|Hin]; [done|].
    apply elem_of_cons in Hin as [Hin|Hin]; [done|].
    by eapply no_disconnect_in_entries_events.
Qed.

(** X11. [initialize] of a newly constructed hub whose configuration loads,
    whose watch can be installed and whose configured names are distinct:
    the call returns normally; the in-memory document is the loaded one; the
    connection map holds exactly the configured names, in the order of the
    document, so [getAllServerStatuses] has one entry per configured server;
    and the configuration is watched, with one change listener, exactly when
    [watch] was asked for and the hub was built from a path. *)
Theorem initialize_of_a_new_hub (src : ConfigInput) (watch : bool) (c : option Config) :
  loadConfig_outcome env src = Ok c →
  watchConfig_outcome env = None →
  NoDup (configured_entries c).*1 →
  ∃ h', initialize env (constructor src watch) = (Ok tt, h') ∧
        cm_config (configManager h') = c ∧
        JsMap.keys (connections h') = (configured_entries c).*1 ∧
        length (getAllServerStatuses h') = length (configured_entries c) ∧
        cm_watching (configManager h') = (watch && is_string src) ∧
        cm_listeners (configManager h') = (if watch && is_string src then 1 else 0) ∧
        (CallWatchConfig ∈ journal h' ↔ watch && is_string src = true).
Proof.
  intros Hload Hwatch Hnd. unfold initialize, constructor, try_catch, bind at 1.
  assert (∀ sw, cm_loadConfig env (mkHub [] [] (mkConfigManager src None [] false 0) sw []) =
          (Ok tt, mkHub [] [] (mkConfigManager src c [] false 0) sw [CallLoadConfig])) as ->.
  { intros sw. hub_run. rewrite Hload. done. }
  unfold bind at 1.
  set (sw := watch && is_string src).
  assert (∃ jr,
    (let! h0 := get in
     if shouldWatchConfig h0 then cm_watchConfig env >> cm_on_configChanged else ret tt)
      (mkHub [] [] (mkConfigManager src c [] false 0) sw [CallLoadConfig]) =
    (Ok tt, mkHub [] [] (mkConfigManager src c [] sw (if sw then 1 else 0)) sw jr) ∧
    (CallWatchConfig ∈ jr ↔ sw = true) ∧
    ∃ pre, jr = CallLoadConfig :: pre ∧ ∀ ev, ev ∈ pre → ev = CallWatchConfig ∨ ev = CallOnConfigChanged)
    as (jr & -> & Hjr & pre & Hpre & Hevs).
  { hub_run. destruct sw; hub_run; [rewrite Hwatch; hub_run|]; eexists;
      (split; [reflexivity|]); split.
    - split; [done|]. intros _. cbn. right. left.
    - eexists. split; [reflexivity|]. intros ev Hev.
      apply elem_of_cons in Hev as [->|Hev]; [by left|].
      apply list_elem_of_singleton in Hev as ->. by right.
    - split; [|done]. intros Hin. apply list_elem_of_singleton in Hin. done.
    - exists []. split; [done|]. intros ev Hev. by apply elem_of_nil in Hev. }
  destruct (startConfiguredServers_run env
              (mkHub [] [] (mkConfigManager src c [] sw (if sw then 1 else 0)) sw jr))
    as (h' & -> & Hc & _ & Hcm & _ & Hj).
  cbn [configManager cm_config connections heap journal length] in *.
  exists h'. split; [done|]. rewrite Hcm. cbn [cm_config cm_watching cm_listeners].
  assert (JsMap.keys (connections h') = (configured_entries c).*1) as Hkeys.
  { rewrite Hc, keys_entries_map by done. change (JsMap.keys []) with (@nil string).
    rewrite app_nil_l. apply filter_all_on. intros; apply not_elem_of_nil. }
  split; [done|]. split; [done|]. split.
  { unfold getAllServerStatuses. by rewrite length_fmap, jsmap_length_values, Hkeys, length_fmap. }
  split; [done|]. split; [done|].
  rewrite Hj, <- Hjr. split.
  - intros Hin. apply elem_of_app in Hin as [Hin|Hin]; [done|].
    apply elem_of_cons in Hin as [Hin|Hin]; [done|]. exfalso.
    clear -Hin. revert Hin. generalize 0.
    induction (configured_entries c) as [|[name sc] rest IH]; intros n Hin.
    { by apply elem_of_nil in Hin. }
    cbn [entries_events] in Hin. apply elem_of_app in Hin as [Hin|Hin]; [|by eapply IH].
    unfold entry_events in Hin. apply elem_of_app in Hin as [Hin|Hin].
    + repeat (apply elem_of_cons in Hin as [Hin|Hin]; [destruct (disabled sc); congruence|]).
      by apply elem_of_nil in Hin.
    + destruct (connect env n (fresh_connection env name sc)).1.
      * by apply elem_of_nil in Hin.
      * apply list_elem_of_singleton in Hin. discriminate.
  - intros Hin. apply elem_of_app. by left.
Qed.

(** X12. [callTool] and [readResource] on a server the map has change
    nothing but the target's own connection object: the connection map and the
    ConfigManager are as before, the journal gains the delegated call only,
    and every other connection object is what it was. *)
Theorem routing_touches_only_the_target (h : MCPHub) (serverName toolName uri : string)
    (args : JsVal) (id : nat) :
  JsMap.get serverName (connections h) = Some id →
  let h1 := (callTool env serverName toolName args h).2 in
  let h2 := (readResource env serverName uri h).2 in
  (connections h1 = connections h ∧ configManager h1 = configManager h ∧
   journal h1 = journal h ++ [CallTool id toolName args] ∧
   ∀ other, other ≠ id → heap h1 !! other = heap h !! other) ∧
  (connections h2 = connections h ∧ configManager h2 = configManager h ∧
   journal h2 = journal h ++ [CallReadResource id uri] ∧
   ∀ other, other ≠ id → heap h2 !! other = heap h !! other).
Proof.
  destruct h as [conns objs cm sw jr]. cbn [connections]. intros Hid.
  unfold callTool, readResource. hub_run. rewrite Hid. hub_run.
  destruct (conn_callTool env id toolName args (objs !!! id)) as [r1 c1].
  destruct (conn_readResource env id uri (objs !!! id)) as [r2 c2]. cbn.
  repeat split; try done; intros other Hne; by rewrite list_lookup_insert_ne.
Qed.

End reconfiguration.

Section orchestrator_samples.
Import Hub HubInvariant HubSamples HubMoreSamples.

Lemma connection_map_stays_valid_witness :
  handles_valid (constructor (InObject two_servers) false) ∧
  handles_valid initialized_hub.
Proof.
  destruct (connection_map_stays_valid (sample_env ["beta"])
              (constructor (InObject two_servers) false) (InObject two_servers)
              (InObject two_servers) false false "alpha" "x" "u" VUndefined
              (mkServerConfig "npx adhoc" false)) as [Hnew Hstep].
  split; [exact Hnew|]. exact (proj1 (Hstep Hnew)).
Defined.

Lemma disconnectServer_keeps_the_entry_witness :
  is_Some (JsMap.get "alpha" (connections initialized_hub)) ∧
  ∃ info,
    (getServerStatus "alpha"
       (disconnectServer (sample_env ["beta"]) "alpha" initialized_hub).2).1 = Ok info.
Proof.
  assert (is_Some (JsMap.get "alpha" (connections initialized_hub))) as Hs
    by (exists 0; reflexivity).
  split; [exact Hs|].
  destruct (disconnectServer_keeps_the_entry (sample_env ["beta"]) initialized_hub "alpha")
    as (_ & _ & _ & Hstatus).
  destruct (Hstatus Hs) as [info Hinfo]. exists info. rewrite Hinfo. reflexivity.
Defined.

Lemma disconnectAll_forgets_every_server_witness :
  NoDup (configured_entries
           (cm_config (configManager
              (disconnectAll (sample_env ["beta"]) initialized_hub).2))).*1 ∧
  length (getAllServerStatuses
            (startConfiguredServers (sample_env ["beta"])
               (disconnectAll (sample_env ["beta"]) initialized_hub).2).2) = 2.
Proof.
  assert (NoDup (configured_entries
                   (cm_config (configManager
                      (disconnectAll (sample_env ["beta"]) initialized_hub).2))).*1) as Hnd
    by compute_done.
  split; [exact Hnd|].
  destruct (disconnectAll_forgets_every_server (sample_env ["beta"]) initialized_hub
              "alpha" "x" "u" VUndefined) as (_ & _ & _ & _ & _ & Hlen).
  rewrite (Hlen Hnd). reflexivity.
Defined.

Lemma startServer_enables_then_starts_witness :
  cm_config (configManager initialized_hub) = Some two_servers_config ∧
  JsMap.get "beta" (connections initialized_hub) = Some 1 ∧
  ∃ h', startServer (sample_env ["beta"]) "beta" initialized_hub =
          (Ok (mkServerInfo "beta" "connected"), h') ∧
        ((cm_config (configManager h') ≫= mcpServers) ≫= JsMap.get "beta") =
          Some (mkServerConfig "npx beta" false).
Proof.
  split; [reflexivity|]. split; [reflexivity|].
  destruct (startServer_enables_then_starts (sample_env ["beta"]) initialized_hub "beta"
              two_servers_config (mkServerConfig "npx beta" true) 1
              eq_refl eq_refl eq_refl) as [Hdisabled _].
  destruct (Hdisabled eq_refl eq_refl) as (h' & Hrun & Hcfg & Hsc & _).
  exists h'. split; [exact Hrun|]. rewrite Hcfg. exact Hsc.
Defined.

Lemma stopServer_stops_the_held_connection_witness :
  cm_config (configManager initialized_hub) = Some two_servers_config ∧
  JsMap.get "alpha" (connections initialized_hub) = Some 0 ∧
  ∃ h', stopServer (sample_env ["beta"]) "alpha" false initialized_hub =
          (Ok (mkServerInfo "alpha" "disconnected"), h') ∧
        configManager h' = configManager initialized_hub.
Proof.
  split; [reflexivity|]. split; [reflexivity|].
  destruct (stopServer_stops_the_held_connection (sample_env ["beta"]) initialized_hub
              "alpha" two_servers_config (mkServerConfig "npx alpha" false) 0
              eq_refl eq_refl eq_refl) as [(h' & Hrun & Hcm & _) _].
  exists h'. split; [exact Hrun | exact Hcm].
Defined.

Lemma failed_persist_leaves_the_flag_changed_witness :
  updateConfig_outcome readonly_env
    (InObject (Some (mkConfig (Some [("alpha", mkServerConfig "npx alpha" false);
                                     ("beta", mkServerConfig "npx beta" false)])))) =
    Throw (SystemError "EROFS" "read-only file system") ∧
  ∃ h', startServer readonly_env "beta" initialized_hub =
          (Throw (SystemError "EROFS" "read-only file system"), h') ∧
        ((cm_config (configManager h') ≫= mcpServers) ≫= JsMap.get "beta") =
          Some (mkServerConfig "npx beta" false) ∧
        heap h' = heap initialized_hub.
Proof.
  split; [reflexivity|].
  destruct (failed_persist_leaves_the_flag_changed readonly_env initialized_hub "beta"
              two_servers_config (mkServerConfig "npx beta" true) 1
              (SystemError "EROFS" "read-only file system")
              eq_refl eq_refl eq_refl) as [_ Hstart].
  destruct (Hstart eq_refl eq_refl) as (h' & Hrun & Hcfg & _ & Hheap & _).
  exists h'. split; [exact Hrun|]. split; [rewrite Hcfg; reflexivity | exact Hheap].
Defined.

Lemma adhoc_connection_is_not_startable_witness :
  cm_config (configManager initialized_hub) = Some two_servers_config ∧
  mcpServers two_servers_config ≫= JsMap.get "adhoc" = None ∧
  ("adhoc" ∉ Object_prototype_names) ∧
  (startServer (sample_env ["beta"]) "adhoc" hub_with_adhoc).1 =
    Throw (ServerError "Server not found" [("server", VStr "adhoc")]).
Proof.
  assert ("adhoc" ∉ Object_prototype_names) as Hown by compute_done.
  split; [reflexivity|]. split; [reflexivity|]. split; [exact Hown|].
  destruct (adhoc_connection_is_not_startable (sample_env ["beta"]) initialized_hub "adhoc"
              two_servers_config (mkServerConfig "npx adhoc" false) false eq_refl eq_refl
              Hown)
    as (_ & Hstart & _).
  unfold hub_with_adhoc. rewrite Hstart. reflexivity.
Defined.

Lemma undefined_configuration_witness :
  cm_config (configManager (constructor (InObject None) false)) = None ∧
  (startServer (sample_env []) "alpha" (constructor (InObject None) false)).1 =
    Throw (TypeError "Cannot read properties of undefined (reading 'mcpServers')").
Proof.
  split; [reflexivity|].
  destruct (undefined_configuration (sample_env []) (constructor (InObject None) false)
              "alpha" false) as [Hundefined _].
  destruct (Hundefined eq_refl) as (_ & Hstart & _). rewrite Hstart. reflexivity.
Defined.

Lemma updateConfig_replaces_the_configured_and_keeps_the_rest_witness :
  updateConfig_outcome (sample_env ["beta"]) (InObject two_servers) = Ok two_servers ∧
  NoDup (configured_entries two_servers).*1 ∧
  ∃ h' id,
    updateConfig (sample_env ["beta"]) (InObject two_servers) hub_with_adhoc = (Ok tt, h') ∧
    JsMap.get "alpha" (connections h') = Some id ∧
    (length (heap hub_with_adhoc) ≤ id)%nat ∧
    JsMap.get "adhoc" (connections h') = JsMap.get "adhoc" (connections hub_with_adhoc).
Proof.
  assert (NoDup (configured_entries two_servers).*1) as Hnd by compute_done.
  split; [reflexivity|]. split; [exact Hnd|].
  destruct (updateConfig_replaces_the_configured_and_keeps_the_rest (sample_env ["beta"])
              hub_with_adhoc (InObject two_servers) two_servers eq_refl Hnd)
    as (h' & evs & Hrun & _ & Hnew & Hkept & _).
  destruct (Hnew "alpha" (mkServerConfig "npx alpha" false)) as (id & Hid & Hfresh & _).
  { vm_compute. left. }
  exists h', id. split; [exact Hrun|]. split; [exact Hid|]. split; [exact Hfresh|].
  apply Hkept. compute_done.
Defined.

Lemma initialize_of_a_new_hub_witness :
  loadConfig_outcome (sample_env ["beta"]) (InObject two_servers) = Ok two_servers ∧
  ∃ h', initialize (sample_env ["beta"]) (constructor (InObject two_servers) false) =
          (Ok tt, h') ∧
        JsMap.keys (connections h') = ["alpha"; "beta"].
Proof.
  split; [reflexivity|].
  destruct (initialize_of_a_new_hub (sample_env ["beta"]) (InObject two_servers) false
              two_servers eq_refl eq_refl) as (h' & Hrun & _ & Hkeys & _).
  { compute_done. }
  exists h'. split; [exact Hrun|]. rewrite Hkeys. reflexivity.
Defined.

Lemma routing_touches_only_the_target_witness :
  JsMap.get "alpha" (connections initialized_hub) = Some 0 ∧
  heap (callTool (sample_env ["beta"]) "alpha" "x" VUndefined initialized_hub).2 !! 1 =
    heap initialized_hub !! 1.
Proof.
  split; [reflexivity|].
  destruct (routing_touches_only_the_target (sample_env ["beta"]) initialized_hub
              "alpha" "x" "u" VUndefined 0 eq_refl) as [(_ & _ & _ & Hothers) _].
  apply Hothers. discriminate.
Defined.

End orchestrator_samples.

(** * Further properties of the workspace registry *)

Section lock_outcome.
Import WorkspaceCache CacheSpec CacheFrame.
Variable self : Process.
Variable fn : M World unit.
Variables P Q : World → Prop.
Hypothesis P_framed : ∀ w w' evs, framed w w' evs → P w → P w'.
Hypothesis Q_framed : ∀ w w' evs, framed w w' evs → Q w → Q w'.
Hypothesis fn_outcome :
  ∀ w, P w → match fn w with (Ok _, w') => Q w' | (Throw _, w') => P w' end.

Lemma lock_attempt_outcome (w : World) :
  P w →
  match lock_attempt self fn w with
  | (Ok Return, w') => Q w'
  | (Ok Continue, w') => P w'
  | (Throw _, w') => P w'
  end.
Proof.
  intros HP. unfold lock_attempt. unfold try_catch at 1, bind at 1 2, try_finally.
  pose proof (creat_framed (process_pid self) w) as Hcreat.
  destruct (fs_writeFile_wx (process_pid self) w) as [[[]|e] w1]; cbn [snd] in Hcreat.
  - assert (P w1) as HP1 by eauto.
    pose proof (fn_outcome w1 HP1) as Hfn. destruct (fn w1) as [r w2].
    destruct (unlink_framed w2) as [Hok Hun].
    destruct (try_catch fs_unlink (λ _, ret tt) w2) as [ru w3]. cbn [fst snd] in *. subst ru.
    destruct r as [[]|e]; [cbn; eauto|].
    assert (P w3) as HP3 by eauto.
    destruct (has_code e "EEXIST"); [|done].
    unfold bind. destruct (sleep_framed retryDelay w3) as [Hs Hf].
    destruct (sleep retryDelay w3) as [rs w4]. cbn [fst snd] in *. subst rs. cbn. eauto.
  - assert (P w1) as HP1 by eauto.
    destruct (has_code e "EEXIST"); [|done].
    unfold bind. destruct (sleep_framed retryDelay w1) as [Hs Hf].
    destruct (sleep retryDelay w1) as [rs w4]. cbn [fst snd] in *. subst rs. cbn. eauto.
Qed.

Lemma lock_loop_outcome (n : nat) (w : World) :
  P w →
  match lock_loop self fn n w with
  | (Ok _, w') => Q w'
  | (Throw _, w') => P w'
  end.
Proof.
  revert w. induction n as [|n IH]; intros w HP; [done|].
  cbn [lock_loop]. unfold bind.
  pose proof (lock_attempt_outcome w HP) as H1.
  destruct (lock_attempt self fn w) as [[[]|e] w1]; [done| |done].
  by apply IH.
Qed.

End lock_outcome.

Section registration.
Import WorkspaceCache CacheSpec CacheFrame CacheSections.
Variable self : Process.

Lemma register_unfold (port : Z) :
  register self port =
  try_catch
    (_withLock self
       (register_section (getWorkspaceKey self)
          (mkEntry (process_pid self) port (now_iso self))) >>
     emit (LogInfo "Registered workspace in cache" None))
    (λ error,
       emit (LogError "WORKSPACE_CACHE_REGISTER_ERROR" (err_message error)) >>
       throw error).
Proof. reflexivity. Qed.

Lemma deregister_unfold :
  deregister self =
  try_catch
    (_withLock self (deregister_section (getWorkspaceKey self)) >>
     emit (LogInfo "Deregistered workspace from cache" None))
    (λ error,
       emit (LogError "WORKSPACE_CACHE_DEREGISTER_ERROR" (err_message error))).
Proof. reflexivity. Qed.

(** X13. [getActiveWorkspaces] never throws and changes neither the cache
    file nor the lock file, whatever the read fails with; what it returns is
    the empty document or the document of the cache file; when the read meets
    no planned fault, it is the document of the file, the empty one standing
    for a missing, empty or unparsable file. *)
Theorem getActiveWorkspaces_is_a_safe_read (w : World) :
  ∃ doc w',
    getActiveWorkspaces w = (Ok doc, w') ∧
    cacheFile w' = cacheFile w ∧ lockFile w' = lockFile w ∧
    (doc = ∅ ∨ readable (cacheFile w) = Some doc) ∧
    (no_fault_next w → doc = default ∅ (readable (cacheFile w))).
Proof.
  unfold getActiveWorkspaces, try_catch.
  destruct (readCache_cases w) as (r & w1 & Hrun & (Hc & _) & Hl & _ & _ & Hdoc).
  rewrite Hrun. destruct r as [doc|e].
  - exists doc, w1. split; [done|]. split; [done|]. split; [done|]. split; [eauto|].
    intros Hnf. destruct (readable (cacheFile w)) as [d|] eqn:Hd.
    + rewrite (readCache_clean w d Hnf Hd) in Hrun. by injection Hrun as <- _.
    + destruct (Hdoc doc eq_refl) as [->|?]; done.
  - eexists. eexists. split; [reflexivity|]. cbn. split; [done|]. split; [done|].
    split; [by left|]. intros Hnf. destruct (readable (cacheFile w)) as [d|] eqn:Hd; [|done].
    rewrite (readCache_clean w d Hnf Hd) in Hrun. done.
Qed.

Lemma register_section_outcome (key : string) (entry : WorkspaceEntry) (c0 : option FileContent)
    (w : World) :
  cacheFile w = c0 →
  match register_section key entry w with
  | (Ok _, w') =>
      ∃ d, cacheFile w' = Some (JsonText (<[key := entry]> d)) ∧
           (d = ∅ ∨ readable c0 = Some d)
  | (Throw _, w') => cacheFile w' = c0
  end.
Proof.
  intros Hc. unfold register_section, bind.
  destruct (readCache_cases w) as (r & w1 & -> & (Hc1 & _) & _ & _ & _ & Hdoc).
  destruct r as [doc|e]; [|by rewrite Hc1].
  destruct (writeCache_cases (<[key:=entry]> doc) w1)
    as (r & w2 & -> & _ & _ & _ & _ & [(-> & Hc2 & _)|(e & -> & Hc2)]).
  - exists doc. split; [done|]. rewrite <- Hc. by apply Hdoc.
  - by rewrite Hc2, Hc1.
Qed.

(** X14. [register] is all or nothing on the cache file, when the file is
    missing, empty, unparsable or holds a registry document (the contents
    [FileContent] has; JSON text of another shape, an array say, is outside
    the statement), whatever the lock file holds and whatever [fs] call fails
    (a failing [fs] call is taken to change nothing). When it returns, the
    file holds a document with the caller's entry under the caller's key, made
    from the document the file held or from the empty one. When it throws, the
    cache file is as it was and the last thing logged is
    WORKSPACE_CACHE_REGISTER_ERROR with the message of the error thrown. *)
Theorem register_is_all_or_nothing (port : Z) (w : World) :
  let key := getWorkspaceKey self in
  let entry := mkEntry (process_pid self) port (now_iso self) in
  match register self port w with
  | (Ok _, w') =>
      ∃ d, cacheFile w' = Some (JsonText (<[key := entry]> d)) ∧
           (d = ∅ ∨ readable (cacheFile w) = Some d)
  | (Throw e, w') =>
      cacheFile w' = cacheFile w ∧
      ∃ evs, journal w' =
               journal w ++ evs ++ [LogError "WORKSPACE_CACHE_REGISTER_ERROR" (err_message e)]
  end.
Proof.
  intros key entry. rewrite register_unfold. fold key entry.
  unfold try_catch, bind at 1.
  set (P := λ w', cacheFile w' = cacheFile w ∧ ∃ evs, journal w' = journal w ++ evs).
  set (Q := λ w', ∃ d, cacheFile w' = Some (JsonText (<[key := entry]> d)) ∧
                       (d = ∅ ∨ readable (cacheFile w) = Some d)).
  assert (∀ w1 w2 evs, framed w1 w2 evs → P w1 → P w2) as HPf.
  { intros w1 w2 evs (Hc & Hj & _) [Hc1 [evs1 Hj1]]. split; [congruence|].
    exists (evs1 ++ evs). by rewrite Hj, Hj1, <- app_assoc. }
  assert (∀ w1 w2 evs, framed w1 w2 evs → Q w1 → Q w2) as HQf.
  { intros w1 w2 evs (Hc & _) (d & Hd & Hor). exists d. split; [congruence | done]. }
  assert (∀ w1, P w1 →
            match register_section key entry w1 with
            | (Ok _, w') => Q w'
            | (Throw _, w') => P w'
            end) as Hfn.
  { intros w1 [Hc1 [evs1 Hj1]].
    pose proof (register_section_outcome key entry (cacheFile w) w1 Hc1) as Hsec.
    destruct (register_section key entry w1) as [[[]|e] w2] eqn:Hrun; [done|].
    split; [done|].
    revert Hrun. unfold register_section, bind.
    destruct (readCache_cases w1) as (r & w1' & -> & (_ & Hjr & _) & _).
    destruct r as [doc|e'].
    + destruct (writeCache_cases (<[key:=entry]> doc) w1') as (r & w2' & -> & Hjw & _).
      intros [= -> <-]. eexists. by rewrite Hjw, Hjr, Hj1, <- !app_assoc.
    + intros [= <- <-]. eexists. by rewrite Hjr, Hj1, <- !app_assoc. }
  assert (P w) as HP0 by (split; [done|]; exists []; by rewrite app_nil_r).
  pose proof (lock_loop_outcome self (register_section key entry) P Q HPf HQf Hfn
                maxRetries w HP0) as Hloop.
  fold (_withLock self (register_section key entry)) in Hloop.
  destruct (_withLock self (register_section key entry) w) as [[[]|e] w1].
  - cbn. exact Hloop.
  - cbn. destruct Hloop as [Hc [evs Hj]].
    split; [done|]. exists evs. by rewrite Hj, <- app_assoc.
Qed.

End registration.

Section deregistration.
Import WorkspaceCache CacheSpec CacheFrame CacheSections.
Variable self : Process.

(** X15. [deregister] never throws, from every world. Afterwards the cache
    file is as it was, or holds the document it held without the row of the
    caller's key; and every write of the cache file it issues writes that
    document, and is issued only when the row was there: no other row is ever
    dropped or changed. *)
Theorem deregister_never_raises_and_spares_the_others (w : World) :
  let key := getWorkspaceKey self in
  let w' := (deregister self w).2 in
  (deregister self w).1 = Ok tt ∧
  (cacheFile w' = cacheFile w ∨
   ∃ doc, readable (cacheFile w) = Some doc ∧ is_Some (doc !! key) ∧
          cacheFile w' = Some (JsonText (delete key doc))) ∧
  ∃ evs, journal w' = journal w ++ evs ∧
         ∀ content, WriteCache content ∈ evs →
           ∃ doc, readable (cacheFile w) = Some doc ∧ is_Some (doc !! key) ∧
                  content = JsonText (delete key doc).
Proof.
  intros key w'. subst w'. rewrite deregister_unfold. fold key.
  set (wrote := λ content, ∃ doc, readable (cacheFile w) = Some doc ∧ is_Some (doc !! key) ∧
                                  content = JsonText (delete key doc)).
  set (P := λ w1, (cacheFile w1 = cacheFile w ∨
                   ∃ content, cacheFile w1 = Some content ∧ wrote content) ∧
                  ∃ evs, journal w1 = journal w ++ evs ∧
                         ∀ content, WriteCache content ∈ evs → wrote content).
  assert (∀ w1 w2 evs, framed w1 w2 evs → P w1 → P w2) as HPf.
  { intros w1 w2 evs (Hc & Hj & Hevs) [Hc1 (evs1 & Hj1 & Hw1)]. split; [by rewrite Hc|].
    exists (evs1 ++ evs). rewrite Hj, Hj1, <- app_assoc. split; [done|].
    intros content Hin. apply elem_of_app in Hin as [Hin|Hin]; [by apply Hw1|].
    rewrite Forall_forall in Hevs. by apply Hevs in Hin. }
  assert (∀ w1, P w1 → P (deregister_section key w1).2) as Hfn.
  { intros w1 HP1. unfold deregister_section, bind.
    destruct (readCache_cases w1) as (r & w2 & -> & Hfr & _ & _ & _ & Hdoc).
    pose proof (HPf _ _ _ Hfr HP1) as HP2.
    destruct r as [doc|e]; [|done].
    case_bool_decide as Hrow; [|done].
    (* the row is there, so [doc] is the document of [w] *)
    assert (readable (cacheFile w) = Some doc ∧ cacheFile w2 = cacheFile w) as [Hdoc0 Hsame].
    { destruct (Hdoc doc eq_refl) as [->|Hread].
      { rewrite lookup_empty in Hrow. by destruct Hrow. }
      destruct Hfr as (Hc2 & _). destruct HP1 as [[Hc|(content & Hc & d & Hd & Hk & ->)] _].
      - split; [by rewrite <- Hc | by rewrite Hc2].
      - rewrite Hc in Hread. cbn in Hread. injection Hread as <-.
        rewrite lookup_delete_eq in Hrow. by destruct Hrow. }
    destruct HP2 as [_ (evs & Hj & Hw)].
    destruct (writeCache_cases (delete key doc) w2)
      as (r & w3 & -> & Hj3 & _ & _ & _ & Hres). cbn [snd].
    assert (wrote (JsonText (delete key doc))) as Hwrote by (exists doc; done).
    split.
    - destruct Hres as [(_ & -> & _)|(e & _ & ->)]; [right; eauto | by left].
    - exists (evs ++ [WriteCache (JsonText (delete key doc))]).
      rewrite Hj3, Hj, <- app_assoc. split; [done|].
      intros content Hin. apply elem_of_app in Hin as [Hin|Hin]; [by apply Hw|].
      apply list_elem_of_singleton in Hin as [= ->]. done. }
  assert (P w) as HP0.
  { split; [by left|]. exists []. rewrite app_nil_r. split; [done|].
    intros ? Hin. by apply elem_of_nil in Hin. }
  pose proof (withLock_preserves self (deregister_section key) P HPf Hfn w HP0) as Hlock.
  unfold try_catch, bind.
  assert (∀ w1, P w1 →
            (cacheFile w1 = cacheFile w ∨
             ∃ doc, readable (cacheFile w) = Some doc ∧ is_Some (doc !! key) ∧
                    cacheFile w1 = Some (JsonText (delete key doc))) ∧
            ∃ evs, journal w1 = journal w ++ evs ∧
                   ∀ content, WriteCache content ∈ evs →
                     ∃ doc, readable (cacheFile w) = Some doc ∧ is_Some (doc !! key) ∧
                            content = JsonText (delete key doc)) as Hfinal.
  { intros w1 [Hc Hj]. split; [|done].
    destruct Hc as [Hc|(content & Hc & d & Hd & Hk & ->)]; [by left | right; eauto]. }
  destruct (_withLock self (deregister_section key) w) as [[[]|e] w1]; cbn [snd] in Hlock.
  - cbn [fst snd]. split; [done|]. apply Hfinal.
    eapply HPf; [|exact Hlock]. repeat split; repeat constructor.
  - cbn [fst snd]. split; [done|]. apply Hfinal.
    eapply HPf; [|exact Hlock]. repeat split; repeat constructor.
Qed.

End deregistration.

Section lock_budget.
Import WorkspaceCache CacheSpec CacheFrame CacheSections.
Variable self : Process.
Variable fn : M World unit.

Lemma lock_attempt_held_exact (c : option FileContent) (holder : Z) (nb : Neighbour)
    (nbs : list Neighbour) (jr : list Event) :
  lock_attempt self fn (mkWorld c (Some holder) [] (nb :: nbs) jr) =
    (Ok Continue,
     mkWorld c (match nb with ReleasesLock => None | _ => Some holder end) [] nbs
             (jr ++ [Creat (process_pid self); Sleep retryDelay])).
Proof.
  unfold lock_attempt. ws_run. unfold has_code. cbn [err_code SystemError].
  rewrite bool_decide_eq_true_2 by done. ws_run.
  destruct nb; ws_run; rewrite <- ?app_assoc; reflexivity.
Qed.

Lemma lock_loop_waits (k : nat) :
  ∀ n c holder rest jr,
    lock_loop self fn (S k + n)
      (mkWorld c (Some holder) [] (replicate k Idle ++ ReleasesLock :: rest) jr) =
    lock_loop self fn n
      (mkWorld c None [] rest
         (jr ++ concat (replicate (S k) [Creat (process_pid self); Sleep retryDelay]))).
Proof.
  induction k as [|k IH]; intros n c holder rest jr.
  - cbn [plus replicate app lock_loop]. unfold bind at 1.
    rewrite lock_attempt_held_exact. cbn [concat replicate]. by rewrite app_nil_r.
  - change (S (S k) + n) with (S (S k + n)).
    cbn [replicate app]. cbn [lock_loop]. unfold bind at 1.
    rewrite lock_attempt_held_exact. rewrite IH.
    f_equal. f_equal. cbn [concat replicate]. by rewrite <- !app_assoc.
Qed.

Lemma lock_loop_gives_up (n : nat) :
  ∀ k c holder rest jr, (n ≤ k)%nat →
    lock_loop self fn n
      (mkWorld c (Some holder) [] (replicate k Idle ++ ReleasesLock :: rest) jr) =
    (Throw (new_Error "Failed to acquire lock after 10 attempts"),
     mkWorld c (Some holder) [] (replicate (k - n) Idle ++ ReleasesLock :: rest)
       (jr ++ concat (replicate n [Creat (process_pid self); Sleep retryDelay]))).
Proof.
  induction n as [|n IH]; intros k c holder rest jr Hk.
  - cbn [lock_loop concat replicate]. by rewrite Nat.sub_0_r, app_nil_r.
  - destruct k as [|k]; [lia|]. cbn [replicate app lock_loop]. unfold bind at 1.
    rewrite lock_attempt_held_exact. rewrite IH by lia.
    cbn [concat replicate Nat.sub]. by rewrite <- !app_assoc.
Qed.

(** X17. The lock is held by another process, which releases it during the
    wait that follows attempt [k+1]. For [k < 9], after [k+1] failed attempts
    the critical section runs with the cache file as it was, and its outcome
    is the outcome of [_withLock] (unless it throws an error coded EEXIST).
    For [k >= 9] the ten attempts are used up (a release during the wait after
    the tenth comes too late): [_withLock] throws the lock-acquisition error
    and the cache file is as it was. *)
Theorem lock_released_within_the_budget (w : World) (holder : Z) (k : nat)
    (rest : list Neighbour) :
  lockFile w = Some holder →
  faults w = [] →
  neighbours w = replicate k Idle ++ ReleasesLock :: rest →
  ((k < 9)%nat →
     ∃ w1, lockFile w1 = None ∧ cacheFile w1 = cacheFile w ∧
           journal w1 =
             journal w ++
             concat (replicate (S k) [Creat (process_pid self); Sleep 50]) ∧
           ∀ r w2, fn (lock_created self w1) = (r, w2) →
                   (∀ e, r = Throw e → has_code e "EEXIST" = false) →
                   (_withLock self fn w).1 = r) ∧
  ((9 ≤ k)%nat →
     (_withLock self fn w).1 = Throw (new_Error "Failed to acquire lock after 10 attempts") ∧
     cacheFile (_withLock self fn w).2 = cacheFile w).
Proof.
  destruct w as [c lock fs nbs jr]. cbn [cacheFile lockFile faults neighbours journal].
  intros -> -> ->. split.
  - intros Hk.
    exists (mkWorld c None [] rest
              (jr ++ concat (replicate (S k) [Creat (process_pid self); Sleep retryDelay]))).
    split; [done|]. split; [done|]. split; [done|].
    intros r w2 Hfn Hcode. unfold _withLock, maxRetries.
    pose proof (lock_loop_waits k (S (8 - k)) c holder rest jr) as Hwait.
    replace (S k + S (8 - k)) with 10 in Hwait by lia. rewrite Hwait.
    cbn [lock_loop]. unfold bind at 1.
    destruct (lock_attempt_acquired self fn
                (mkWorld c None [] rest
                   (jr ++ concat (replicate (S k) [Creat (process_pid self);
                                                  Sleep retryDelay]))))
      as (r' & w2' & w3 & Hfn' & _ & ->); [done | done |].
    rewrite Hfn in Hfn'. injection Hfn' as <- <-.
    destruct r as [[]|e]; [done|]. by rewrite (Hcode e eq_refl).
  - intros Hk. unfold _withLock, maxRetries.
    destruct (decide (k = 9)) as [->|Hne].
    + pose proof (lock_loop_waits 9 0 c holder rest jr) as Hwait.
      change (S 9 + 0) with 10 in Hwait. rewrite Hwait. done.
    + rewrite lock_loop_gives_up by lia. done.
Qed.

(** X18. A critical section that throws an error whose code is EEXIST is
    taken for a held lock: with the lock free, [_withLock] creates and removes
    the lock file ten times, running the section each time and waiting 50
    after it, then throws the lock-acquisition error in place of the
    section's; the lock file is gone and the cache file is as it was. *)
Theorem critical_section_EEXIST_is_taken_for_a_held_lock (w : World) (e : JsError) :
  lockFile w = None → faults w = [] → neighbours w = [] →
  has_code e "EEXIST" = true →
  ∃ w', _withLock self (throw e) w =
          (Throw (new_Error "Failed to acquire lock after 10 attempts"), w') ∧
        lockFile w' = None ∧ cacheFile w' = cacheFile w ∧
        journal w' =
          journal w ++ concat (replicate 10 [Creat (process_pid self); Unlink; Sleep 50]).
Proof.
  destruct w as [c lock fs nbs jr]. cbn [cacheFile lockFile faults neighbours journal].
  intros -> -> -> Hcode.
  assert (∀ jr, lock_attempt self (throw e) (mkWorld c None [] [] jr) =
          (Ok Continue,
           mkWorld c None [] [] (jr ++ [Creat (process_pid self); Unlink; Sleep 50]))) as Hturn.
  { intros jr'. unfold lock_attempt. ws_run. rewrite Hcode. ws_run.
    by rewrite <- !app_assoc. }
  assert (∀ n jr, lock_loop self (throw e) n (mkWorld c None [] [] jr) =
          (Throw (new_Error "Failed to acquire lock after 10 attempts"),
           mkWorld c None [] []
             (jr ++ concat (replicate n [Creat (process_pid self); Unlink; Sleep 50]))))
    as Hloop.
  { induction n as [|n IH]; intros jr'.
    - cbn [lock_loop concat replicate]. by rewrite app_nil_r.
    - cbn [lock_loop]. unfold bind at 1. rewrite Hturn, IH. cbn [concat replicate].
      by rewrite <- !app_assoc. }
  eexists. unfold _withLock, maxRetries. rewrite Hloop. done.
Qed.

End lock_budget.

Section wedge.
Import WorkspaceCache CacheSpec CacheFrame CacheSections.
Variable self : Process.
Variable process_kill : Z → Z → option JsError.

Lemma withLock_wedged (fn : M World unit) (w : World) (holder : Z) :
  lockFile w = Some holder → faults w = [] →
  Forall (λ nb, nb ≠ ReleasesLock) (neighbours w) →
  ∃ w', _withLock self fn w =
          (Throw (new_Error "Failed to acquire lock after 10 attempts"), w') ∧
        cacheFile w' = cacheFile w ∧ lockFile w' = Some holder.
Proof.
  intros Hlock Hfs Hnbs.
  destruct (lock_loop_held self fn maxRetries w holder Hlock Hfs Hnbs)
    as (w' & Hrun & Hc & Hl & _). eauto.
Qed.

(** X16. A lock file that another process leaves in place wedges the
    registry: [register] throws the lock-acquisition error, [deregister] and
    [cleanupStaleEntries] return normally having done nothing, none of them
    changes the cache file, and the other process's lock file is still there
    afterwards. *)
Theorem abandoned_lock_file_wedges_the_registry (w : World) (holder port : Z) :
  lockFile w = Some holder → faults w = [] →
  Forall (λ nb, nb ≠ ReleasesLock) (neighbours w) →
  (register self port w).1 = Throw (new_Error "Failed to acquire lock after 10 attempts") ∧
  cacheFile (register self port w).2 = cacheFile w ∧
  (deregister self w).1 = Ok tt ∧
  cacheFile (deregister self w).2 = cacheFile w ∧
  (cleanupStaleEntries process_kill self w).1 = Ok tt ∧
  cacheFile (cleanupStaleEntries process_kill self w).2 = cacheFile w ∧
  lockFile (register self port w).2 = Some holder ∧
  lockFile (deregister self w).2 = Some holder ∧
  lockFile (cleanupStaleEntries process_kill self w).2 = Some holder.
Proof.
  intros Hlock Hfs Hnbs.
  rewrite register_unfold, deregister_unfold. unfold cleanupStaleEntries, try_catch, bind.
  destruct (withLock_wedged (register_section (getWorkspaceKey self)
                               (mkEntry (process_pid self) port (now_iso self)))
              w holder Hlock Hfs Hnbs) as (w1 & -> & Hc1 & Hl1).
  destruct (withLock_wedged (deregister_section (getWorkspaceKey self)) w holder
              Hlock Hfs Hnbs) as (w2 & -> & Hc2 & Hl2).
  destruct (withLock_wedged (cleanup_section process_kill) w holder Hlock Hfs Hnbs)
    as (w3 & -> & Hc3 & Hl3).
  cbn. done.
Qed.

End wedge.

Section shared_directory.
Import WorkspaceCache CacheSpec CacheFrame.

(** X19. Rows are keyed by directory alone. After two hubs register one
    after the other (lock free, cache file readable, no [fs] failure), the
    document has the second hub's entry under its directory and the rows of
    all other directories are as before. When the two directories differ, the
    first hub's entry is there too. When the two hubs share a directory, the
    second entry has replaced the first, and [deregister] by the first hub
    then removes the row of the second. *)
Theorem one_row_per_directory (first second : Process) (port1 port2 : Z) (w : World)
    (doc : gmap string WorkspaceEntry) :
  lockFile w = None → faults w = [] → readable (cacheFile w) = Some doc →
  let e1 := mkEntry (process_pid first) port1 (now_iso first) in
  let e2 := mkEntry (process_pid second) port2 (now_iso second) in
  ∃ w1 w2 doc2,
    register first port1 w = (Ok tt, w1) ∧
    register second port2 w1 = (Ok tt, w2) ∧
    cacheFile w2 = Some (JsonText doc2) ∧
    doc2 !! cwd second = Some e2 ∧
    (∀ k, k ≠ cwd first → k ≠ cwd second → doc2 !! k = doc !! k) ∧
    (cwd first ≠ cwd second → doc2 !! cwd first = Some e1) ∧
    (cwd first = cwd second →
       ∃ w3 doc3, deregister first w2 = (Ok tt, w3) ∧
                  cacheFile w3 = Some (JsonText doc3) ∧
                  doc3 !! cwd second = None ∧
                  (∀ k, k ≠ cwd second → doc3 !! k = doc !! k)).
Proof.
  intros Hlock Hfs Hdoc e1 e2.
  pose proof (register_clean first port1 w doc Hlock Hfs Hdoc) as Hreg1.
  cbn zeta in Hreg1. unfold getWorkspaceKey in Hreg1. fold e1 in Hreg1.
  set (w1 := mkWorld (Some (JsonText (<[cwd first:=e1]> doc))) None [] (neighbours w)
               (journal w ++ [Creat (process_pid first); ReadCache;
                              WriteCache (JsonText (<[cwd first:=e1]> doc)); Unlink;
                              LogInfo "Registered workspace in cache" None])) in Hreg1.
  pose proof (register_clean second port2 w1 (<[cwd first:=e1]> doc) eq_refl eq_refl eq_refl)
    as Hreg2.
  cbn zeta in Hreg2. unfold getWorkspaceKey in Hreg2. fold e2 in Hreg2.
  set (doc2 := <[cwd second:=e2]> (<[cwd first:=e1]> doc)) in Hreg2.
  set (w2 := mkWorld (Some (JsonText doc2)) None [] (neighbours w1)
               (journal w1 ++ [Creat (process_pid second); ReadCache;
                               WriteCache (JsonText doc2); Unlink;
                               LogInfo "Registered workspace in cache" None])) in Hreg2.
  exists w1, w2, doc2.
  split; [done|]. split; [done|]. split; [done|].
  split; [by apply lookup_insert_eq|].
  split; [intros k H1 H2; unfold doc2; by rewrite !lookup_insert_ne|].
  split.
  - intros Hne. unfold doc2. rewrite lookup_insert_ne by done. by apply lookup_insert_eq.
  - intros Heq.
    destruct (deregister_clean first w2 doc2 eq_refl eq_refl eq_refl)
      as (w3 & Hde & _ & _ & _ & Hgone & _).
    unfold getWorkspaceKey in Hgone, Hde.
    exists w3, (delete (cwd first) doc2). split; [done|].
    split.
    { apply Hgone. rewrite Heq. unfold doc2. rewrite lookup_insert_eq. eauto. }
    split; [rewrite Heq; by apply lookup_delete_eq|].
    intros k Hk. rewrite Heq. rewrite lookup_delete_ne by done.
    unfold doc2. rewrite lookup_insert_ne by done. rewrite Heq.
    by rewrite lookup_insert_ne.
Qed.

End shared_directory.

Section cleanup_again.
Import WorkspaceCache CacheSpec CacheFrame CacheProbe.
Variable process_kill : Z → Z → option JsError.

Lemma cleanupStaleEntries_clean (self : Process) (w : World)
    (doc : gmap string WorkspaceEntry) :
  lockFile w = None → faults w = [] → readable (cacheFile w) = Some doc →
  ∃ w', cleanupStaleEntries process_kill self w = (Ok tt, w') ∧
        lockFile w' = None ∧ faults w' = [] ∧
        readable (cacheFile w') = Some (passing_rows process_kill doc).
Proof.
  intros Hlock Hfs Hdoc.
  destruct (lock_attempt_acquired self (cleanup_section process_kill) w)
    as (r & w2 & w3 & Hfn & Hun & Hrun);
    [done | by unfold no_fault_next; rewrite Hfs |].
  destruct (cleanup_section_clean process_kill (lock_created self w) doc)
    as (w2' & Hfn' & Hfs2 & _ & Hc2); [by cbn; rewrite Hfs | done |].
  rewrite Hfn in Hfn'. injection Hfn' as -> <-.
  destruct (unlink_quietly w2) as (w3' & Hun' & Hc3 & _ & Hf3 & _ & Hl3).
  rewrite Hun in Hun'. injection Hun' as <-.
  exists w3. unfold cleanupStaleEntries, try_catch, _withLock, maxRetries.
  cbn [lock_loop]. unfold bind at 1. rewrite Hrun.
  split; [done|]. split; [apply Hl3; by unfold no_fault_next; rewrite Hfs2|].
  split; [by rewrite Hf3, Hfs2|].
  rewrite Hc3. destruct Hc2 as [[_ ->]|[Hnone ->]]; [done|].
  cbn [lock_created cacheFile]. by rewrite Hdoc, (passing_rows_id process_kill doc Hnone).
Qed.

End cleanup_again.

Section cleanup_twice.
Import WorkspaceCache CacheSpec CacheFrame CacheProbe.
Variables kill1 kill2 : Z → Z → option JsError.

(** X20. Cleanup is idempotent between callers whose probes agree. With the
    lock free, the cache file readable and no [fs] failure, the file reads
    after one [cleanupStaleEntries] as the rows whose probe did not throw for
    the first caller; and when the probe of a second caller throws for none of
    the pids for which the first caller's did not (the same user and an
    unchanged process table, say), the second [cleanupStaleEntries] issues no
    write of the cache file and leaves it as the first left it. *)
Theorem cleanup_again_writes_nothing (first second : Process) (w : World)
    (doc : gmap string WorkspaceEntry) :
  lockFile w = None → faults w = [] → readable (cacheFile w) = Some doc →
  (∀ k e, doc !! k = Some e → kill1 (pid e) 0 = None → kill2 (pid e) 0 = None) →
  let w1 := (cleanupStaleEntries kill1 first w).2 in
  let w2 := (cleanupStaleEntries kill2 second w1).2 in
  readable (cacheFile w1) = Some (passing_rows kill1 doc) ∧
  cacheFile w2 = cacheFile w1 ∧
  ∃ evs, journal w2 = journal w1 ++ evs ∧ Forall (λ e, is_write e = false) evs.
Proof.
  intros Hlock Hfs Hdoc Hagree w1 w2.
  destruct (cleanupStaleEntries_clean kill1 first w doc Hlock Hfs Hdoc)
    as (w1' & Hrun & _ & _ & Hread).
  assert (w1 = w1') as Hw1 by (unfold w1; by rewrite Hrun).
  rewrite <- Hw1 in Hread. split; [done|].
  destruct (cleanupStaleEntries_inv kill2 second w1) as [_ (evs & Hj & Hw & Hc)].
  fold w2 in Hj, Hc. rewrite Hread in Hw, Hc. cbn [default] in Hw, Hc.
  assert (¬ has_refused kill2 (passing_rows kill1 doc)) as Hnone.
  { intros (k & e & Hk & Hdead). apply Hdead.
    unfold passing_rows in Hk. apply map_lookup_filter_Some in Hk as [Hrow Hpass].
    by apply (Hagree k e). }
  split.
  - destruct Hc as [Hc|[_ Hs]]; [done | by destruct Hnone].
  - exists evs. split; [done|].
    eapply Forall_impl; [exact Hw|]. cbn. intros e He.
    destruct (is_write e) eqn:Hwr; [|done]. destruct (He eq_refl) as [_ Hs]. by destruct Hnone.
Qed.

End cleanup_twice.

Section cleanup_on_a_shared_host.
Import WorkspaceCache CacheSpec CacheProbe CacheSamples Host CacheClaims HostSamples.

(** C7. The code fails the claim on a host shared with another user. The
    registry [shared_doc] holds the row of a hub run by the superuser, whose
    pid 777 denotes a live process, next to the row of the caller's own hub
    and the row of a hub that is gone. For the caller, user 1000, the probe
    [process.kill(777, 0)] throws EPERM, and [_isProcessRunning] takes every
    throw for a dead process: [cleanupStaleEntries] returns normally, keeps
    the caller's own row, drops the row of the dead hub, and drops the row of
    the live hub of the superuser as well. So the claim's "leaves every
    live-pid row unchanged" does not hold of the code. *)
Theorem cleanup_drops_the_row_of_a_live_process :
  alive shared_host 777 ∧
  kill shared_host 1000 777 0 = Some (SystemError "EPERM" "kill EPERM") ∧
  shared_doc !! "/srv/admin" = Some (mkEntry 777 3003 "2024-05-01T09:00:00.000Z") ∧
  (∃ w' after,
     cleanupStaleEntries (kill shared_host 1000) this_process shared_world = (Ok tt, w') ∧
     readable (cacheFile w') = Some after ∧
     after !! "/home/dev/project" = Some (mkEntry 4242 37373 "2024-05-01T10:00:00.000Z") ∧
     after !! "/home/dev/gone" = None ∧
     after !! "/srv/admin" = None) ∧
  ¬ cleanup_leaves_every_live_row.
Proof.
  assert (alive shared_host 777) as Halive by (eexists; reflexivity).
  assert (shared_doc !! "/srv/admin" = Some (mkEntry 777 3003 "2024-05-01T09:00:00.000Z"))
    as Hrow by reflexivity.
  destruct (cleanupStaleEntries_clean (kill shared_host 1000) this_process shared_world
              shared_doc eq_refl eq_refl eq_refl) as (w' & Hrun & _ & _ & Hread).
  assert (passing_rows (kill shared_host 1000) shared_doc !! "/srv/admin" = None) as Hgone.
  { apply map_lookup_filter_None. right. intros e He. rewrite Hrow in He.
    injection He as <-. unfold probe_passes. cbn. discriminate. }
  split; [exact Halive|]. split; [reflexivity|]. split; [exact Hrow|]. split.
  - exists w', (passing_rows (kill shared_host 1000) shared_doc).
    split; [exact Hrun|]. split; [exact Hread|]. split; [|split; [|exact Hgone]].
    + apply map_lookup_filter_Some. split; reflexivity.
    + apply map_lookup_filter_None. right. intros e He.
      assert (shared_doc !! "/home/dev/gone" =
                Some (mkEntry 200 3002 "2024-04-29T17:30:00.000Z")) as Hdead by reflexivity.
      rewrite Hdead in He. injection He as <-. unfold probe_passes. cbn. discriminate.
  - intros Hclaim.
    specialize (Hclaim shared_host 1000%Z this_process shared_world shared_doc "/srv/admin"
                  (mkEntry 777 3003 "2024-05-01T09:00:00.000Z")
                  eq_refl eq_refl eq_refl Hrow Halive).
    rewrite Hrun in Hclaim. cbn [snd] in Hclaim. rewrite Hread in Hclaim.
    change (passing_rows (kill shared_host 1000) shared_doc !! "/srv/admin" =
              Some (mkEntry 777 3003 "2024-05-01T09:00:00.000Z")) in Hclaim.
    rewrite Hgone in Hclaim. discriminate Hclaim.
Qed.

End cleanup_on_a_shared_host.

Ltac mg_run :=
  repeat (progress
    (unfold bind, ret, throw, get, modify, try_catch, try_finally,
       CacheManager.in_world, CacheManager.log, CacheManager.set_watcher,
       CacheManager.set_isWatching, CacheManager.chokidar_fault,
       CacheManager.chokidar_watch, CacheManager.chokidar_close,
       CacheManager.removeAllListeners, CacheManager.on_workspacesUpdated,
       WorkspaceCache.emit;
     cbn [CacheManager.world CacheManager.watcher CacheManager.isWatching
          CacheManager.listeners CacheManager.heard CacheManager.chokidar_made
          CacheManager.chokidar_open CacheManager.chokidar_faults
          WorkspaceCache.cacheFile WorkspaceCache.lockFile WorkspaceCache.faults
          WorkspaceCache.neighbours WorkspaceCache.journal fst snd tail])).

Section startup.
Import WorkspaceCache CacheSpec CacheFrame CacheManager CacheManagerSpec.

Ltac init_cases :=
  cbn;
  split; [done|]; split; [done|];
  split; [first [ by intros [? ?]
                | intros _; split; [done|]; eexists; split; [done|]; repeat constructor ]|];
  split; [done|];
  split; [first [done | eauto]|];
  first [ done | intros ? [= <-]; split; [done|]; by rewrite last_snoc ].

(** X21. [initialize] of the registry, when no planned fault is coded ENOENT:
    what the cache file reads as and the lock file are never changed; a cache
    file that exists is left untouched and no write of it is issued; when the
    call returns, the cache file exists, and holds the empty document if it
    was missing; when it throws, the cache file is as
    it was and the last thing logged is WORKSPACE_CACHE_INIT_ERROR with the
    message of the error thrown. *)
Theorem initialize_creates_only_a_missing_cache_file (w : World) :
  no_fault_coded "ENOENT" w →
  let r := (initialize w).1 in
  let w' := (initialize w).2 in
  readable (cacheFile w') = readable (cacheFile w) ∧
  lockFile w' = lockFile w ∧
  (is_Some (cacheFile w) → cacheFile w' = cacheFile w ∧
     ∃ evs, journal w' = journal w ++ evs ∧ Forall (λ e, is_write e = false) evs) ∧
  (cacheFile w = None → r = Ok tt → cacheFile w' = Some (JsonText ∅)) ∧
  (r = Ok tt → is_Some (cacheFile w')) ∧
  (∀ e, r = Throw e →
     cacheFile w' = cacheFile w ∧
     last (journal w') = Some (LogError "WORKSPACE_CACHE_INIT_ERROR" (err_message e))).
Proof.
  destruct w as [c lock fs nbs jr]. unfold no_fault_coded. cbn [faults]. intros Hfs.
  unfold initialize, _ensureCacheFile, fs_mkdir, fs_access. ws_run.
  destruct fs as [|[e1|] fs]; ws_run.
  - (* no fault at all *)
    destruct c as [content|]; ws_run; [init_cases|].
    unfold has_code. cbn. rewrite bool_decide_eq_true_2 by done. ws_run. init_cases.
  - (* mkdir fails *)
    init_cases.
  - destruct fs as [|[e2|] fs]; ws_run.
    + destruct c as [content|]; ws_run; [init_cases|].
      unfold has_code. cbn. rewrite bool_decide_eq_true_2 by done. ws_run. init_cases.
    + (* access fails, with a code that is not ENOENT *)
      rewrite (Hfs e2) by (apply elem_of_cons; right; apply elem_of_cons; by left).
      ws_run. init_cases.
    + destruct c as [content|]; ws_run; [init_cases|].
      unfold has_code. cbn. rewrite bool_decide_eq_true_2 by done. ws_run.
      (* the write of the empty document meets the third fault, if any *)
      destruct fs as [|[e3|] fs]; ws_run; init_cases.
Qed.

End startup.

Section watching.
Import WorkspaceCache CacheSpec CacheFrame CacheManager CacheManagerSpec.

Lemma emit_run (workspaces : gmap string WorkspaceEntry) (ls : list Listener) :
  ∀ m, for_of ls (call_listener workspaces) m =
       (match first_failure workspaces ls with Some e => Throw e | None => Ok tt end,
        mkManager (world m) (watcher m) (isWatching m) (listeners m)
                  (heard m ++ calls workspaces (reached workspaces ls))
                  (chokidar_made m) (chokidar_open m) (chokidar_faults m)).
Proof.
  induction ls as [|l ls IH]; intros m.
  - destruct m. cbn. by rewrite app_nil_r.
  - cbn [for_of]. unfold bind at 1. unfold call_listener at 1. mg_run.
    unfold first_failure. cbn [list_find reached calls map].
    destruct (listener_call l workspaces) as [e|] eqn:Hl.
    + rewrite decide_True by eauto. cbn. by rewrite Hl.
    + rewrite decide_False by (intros [? ?]; done).
      rewrite IH. cbn. rewrite <- app_assoc. cbn.
      unfold first_failure.
      destruct (list_find _ ls) as [[i found]|]; done.
Qed.

Lemma reached_quiet (workspaces : gmap string WorkspaceEntry) (ls : list Listener) :
  Forall (λ l, listener_call l workspaces = None) ls →
  reached workspaces ls = ls ∧ first_failure workspaces ls = None.
Proof.
  induction 1 as [|l ls Hl _ [IH1 IH2]]; [done|].
  unfold first_failure in *. cbn. rewrite Hl.
  rewrite decide_False by (intros [? ?]; done). rewrite IH1. split; [done|].
  destruct (list_find _ ls) as [[i found]|]; done.
Qed.

(** What the ['change'] handler does, in every case. *)
Lemma on_change_run (m : Manager) :
  ∃ w' hs,
    on_change m =
      (Ok tt, mkManager w' (watcher m) (isWatching m) (listeners m) (heard m ++ hs)
                        (chokidar_made m) (chokidar_open m) (chokidar_faults m)) ∧
    cacheFile w' = cacheFile (world m) ∧ lockFile w' = lockFile (world m) ∧
    (hs = [] ∨ ∃ doc, hs = calls doc (reached doc (listeners m))).
Proof.
  unfold on_change, emit_workspacesUpdated. unfold try_catch, bind at 1, in_world at 1.
  destruct (readCache_cases (world m)) as (r & w1 & -> & (Hc & _) & Hl & _).
  destruct r as [doc|e].
  - unfold bind at 1, get at 1. cbn [listeners]. unfold bind at 1. rewrite emit_run.
    cbn [world watcher isWatching listeners heard chokidar_made chokidar_open
         chokidar_faults].
    destruct (first_failure doc (listeners m)); mg_run;
      eexists; eexists; (split; [reflexivity|]); cbn; eauto.
  - mg_run. exists (mkWorld (cacheFile w1) (lockFile w1) (faults w1) (neighbours w1)
                      (journal w1 ++ [LogError "WORKSPACE_CACHE_WATCH_ERROR" (err_message e)])),
             (@nil (nat * gmap string WorkspaceEntry)).
    rewrite app_nil_r. cbn. eauto.
Qed.

Lemma on_change_clean (m : Manager) (doc : gmap string WorkspaceEntry) :
  no_fault_next (world m) → readable (cacheFile (world m)) = Some doc →
  on_change m =
    (Ok tt,
     mkManager
       (mkWorld (cacheFile (world m)) (lockFile (world m)) (tail (faults (world m)))
          (neighbours (world m))
          (journal (world m) ++
           [ReadCache;
            match first_failure doc (listeners m) with
            | Some e => LogError "WORKSPACE_CACHE_WATCH_ERROR" (err_message e)
            | None => LogDebug "Workspace cache updated"
            end]))
       (watcher m) (isWatching m) (listeners m)
       (heard m ++ calls doc (reached doc (listeners m)))
       (chokidar_made m) (chokidar_open m) (chokidar_faults m)).
Proof.
  intros Hnf Hdoc.
  unfold on_change, emit_workspacesUpdated. unfold try_catch, bind at 1, in_world at 1.
  rewrite (readCache_clean (world m) doc Hnf Hdoc).
  unfold bind at 1, get at 1. cbn [listeners]. unfold bind at 1. rewrite emit_run.
  cbn [world watcher isWatching listeners heard chokidar_made chokidar_open chokidar_faults].
  destruct (first_failure doc (listeners m)); mg_run; by rewrite <- app_assoc.
Qed.

Lemma on_change_garbage (m : Manager) :
  no_fault_next (world m) → readable (cacheFile (world m)) = None →
  ∃ w', on_change m =
          (Ok tt, mkManager w' (watcher m) (isWatching m) (listeners m) (heard m)
                            (chokidar_made m) (chokidar_open m) (chokidar_faults m)) ∧
        cacheFile w' = cacheFile (world m) ∧
        last (journal w') =
          Some (LogError "WORKSPACE_CACHE_WATCH_ERROR" "Unexpected token in JSON").
Proof.
  destruct m as [[c lock fs nbs jr] wt iw ls hd made opn plan].
  unfold no_fault_next. cbn [world cacheFile faults]. intros Hnf Hdoc.
  destruct c as [[d| |raw]|]; try done.
  unfold on_change. mg_run. ws_run.
  destruct fs as [|[e|] fs]; [|done|]; ws_run; unfold has_code; cbn;
    eexists; (split; [reflexivity|]); cbn; (split; [done|]); by rewrite last_snoc.
Qed.

(** X25. The handler of ['change'] never throws and changes neither the
    cache file, the lock file, the watcher nor the listeners. When the cache
    file is readable and the read meets no fault, the listeners are called
    with its document in the order they were added, up to the first one that
    throws (all of them when none throws); the last thing logged is the
    debug line, or WORKSPACE_CACHE_WATCH_ERROR with the message of the
    listener that threw. When the cache file does not parse, no listener is
    called and the parse failure is logged as WORKSPACE_CACHE_WATCH_ERROR. *)
Theorem change_handler_never_raises (m : Manager) :
  let m' := (on_change m).2 in
  (on_change m).1 = Ok tt ∧
  cacheFile (world m') = cacheFile (world m) ∧
  lockFile (world m') = lockFile (world m) ∧
  watcher m' = watcher m ∧ isWatching m' = isWatching m ∧ listeners m' = listeners m ∧
  (∀ doc, no_fault_next (world m) → readable (cacheFile (world m)) = Some doc →
     heard m' = heard m ++ calls doc (reached doc (listeners m)) ∧
     last (journal (world m')) =
       Some match first_failure doc (listeners m) with
            | Some e => LogError "WORKSPACE_CACHE_WATCH_ERROR" (err_message e)
            | None => LogDebug "Workspace cache updated"
            end ∧
     (Forall (λ l, listener_call l doc = None) (listeners m) →
        heard m' = heard m ++ calls doc (listeners m))) ∧
  (no_fault_next (world m) → readable (cacheFile (world m)) = None →
     heard m' = heard m ∧
     last (journal (world m')) =
       Some (LogError "WORKSPACE_CACHE_WATCH_ERROR" "Unexpected token in JSON")).
Proof.
  intros m'. subst m'.
  destruct (on_change_run m) as (w' & hs & Hrun & Hc & Hl & _).
  split; [by rewrite Hrun|]. split; [by rewrite Hrun|]. split; [by rewrite Hrun|].
  split; [by rewrite Hrun|]. split; [by rewrite Hrun|]. split; [by rewrite Hrun|].
  clear Hrun. split.
  - intros doc Hnf Hdoc. rewrite (on_change_clean m doc Hnf Hdoc).
    cbn [snd heard world journal]. split; [done|]. split.
    + by rewrite last_app.
    + intros Hquiet. by destruct (reached_quiet doc (listeners m) Hquiet) as [-> _].
  - intros Hnf Hdoc. destruct (on_change_garbage m Hnf Hdoc) as (w1 & -> & _ & Hlast).
    done.
Qed.

Lemma for_of_same {A} (xs : list A) (body : M Manager unit) (P : Manager → Manager → Prop) :
  (∀ m, P m m) → (∀ m1 m2 m3, P m1 m2 → P m2 m3 → P m1 m3) →
  (∀ m, (body m).1 = Ok tt ∧ P m (body m).2) →
  ∀ m, (for_of xs (λ _, body) m).1 = Ok tt ∧ P m (for_of xs (λ _, body) m).2.
Proof.
  intros Hrefl Htrans Hbody. induction xs as [|x xs IH]; intros m.
  - cbn. eauto.
  - cbn [for_of]. unfold bind. destruct (Hbody m) as [Hok HP].
    destruct (body m) as [[[]|e] m1]; [|done]. cbn [fst snd] in *.
    destruct (IH m1) as [Hok' HP']. split; [done|]. by eapply Htrans.
Qed.

Lemma same_watch_refl (m : Manager) : same_watch m m.
Proof. done. Qed.

Lemma same_watch_trans (m1 m2 m3 : Manager) :
  same_watch m1 m2 → same_watch m2 m3 → same_watch m1 m3.
Proof. intros (?&?&?&?) (?&?&?&?). repeat split; congruence. Qed.

Lemma on_change_same_watch (m : Manager) :
  (on_change m).1 = Ok tt ∧ same_watch m (on_change m).2.
Proof. destruct (on_change_run m) as (w' & hs & -> & _). done. Qed.

Lemma cache_file_changed_same_watch (m : Manager) :
  (cache_file_changed m).1 = Ok tt ∧ same_watch m (cache_file_changed m).2.
Proof.
  unfold cache_file_changed, bind at 1, get at 1.
  apply (for_of_same _ on_change same_watch same_watch_refl same_watch_trans
           on_change_same_watch).
Qed.

Lemma watcher_failed_same_watch (error : JsError) (m : Manager) :
  (watcher_failed error m).1 = Ok tt ∧ same_watch m (watcher_failed error m).2.
Proof.
  unfold watcher_failed, bind at 1, get at 1.
  apply (for_of_same _ (on_error error) same_watch same_watch_refl same_watch_trans).
  intros m0. done.
Qed.

Lemma one_watcher_same (m m' : Manager) :
  same_watch m m' → one_watcher m → one_watcher m'.
Proof. intros (Hw & Hi & Ho & _) [H1 H2]. unfold one_watcher. by rewrite Hw, Hi, Ho. Qed.

Lemma startWatching_one_watcher (m : Manager) :
  one_watcher m → one_watcher (startWatching m).2.
Proof.
  destruct m as [w wt iw ls hd made opn plan]. intros [Hopen Hiw].
  cbn [chokidar_open watcher isWatching] in *.
  unfold startWatching. mg_run. destruct iw; [done|]. mg_run.
  assert (wt = None) as ->.
  { destruct wt; [|done]. destruct Hiw as [_ Hiw]. by discriminate Hiw. }
  cbn in Hopen. subst opn.
  destruct plan as [|[e|] plan]; mg_run; split; cbn; try done.
  all: split; eauto.
Qed.

Lemma stopWatching_one_watcher (m : Manager) :
  one_watcher m → one_watcher (stopWatching m).2.
Proof.
  destruct m as [w wt iw ls hd made opn plan]. intros [Hopen Hiw].
  cbn [chokidar_open watcher isWatching] in *.
  unfold stopWatching. mg_run. destruct iw; [|done]. destruct wt as [handle|]; [|done].
  cbn in Hopen. subst opn.
  destruct plan as [|[e|] plan]; mg_run; split; cbn; try done.
  all: try (rewrite decide_False by (intros Hne; by apply Hne); done).
  all: split; [done | by intros [? ?]].
Qed.

Lemma stopWatching_ok (m : Manager) : (stopWatching m).1 = Ok tt.
Proof.
  destruct m as [w wt iw ls hd made opn plan].
  unfold stopWatching. mg_run. destruct iw; [|done]. destruct wt as [handle|]; [|done].
  destruct plan as [|[e|] plan]; mg_run; done.
Qed.

Lemma stopWatching_frame (m : Manager) :
  cacheFile (world (stopWatching m).2) = cacheFile (world m) ∧
  lockFile (world (stopWatching m).2) = lockFile (world m) ∧
  faults (world (stopWatching m).2) = faults (world m) ∧
  listeners (stopWatching m).2 = listeners m ∧
  heard (stopWatching m).2 = heard m.
Proof.
  destruct m as [w wt iw ls hd made opn plan].
  unfold stopWatching. mg_run. destruct iw; [|done]. destruct wt as [handle|]; [|done].
  destruct plan as [|[e|] plan]; mg_run; done.
Qed.

(** What [shutdown] does after [stopWatching]. *)
Lemma shutdown_run (self : Process) (m : Manager) :
  ∃ m1 w',
    stopWatching m = (Ok tt, m1) ∧
    deregister self (world m1) = (Ok tt, w') ∧
    shutdown self m =
      (Ok tt,
       mkManager
         (mkWorld (cacheFile w') (lockFile w') (faults w') (neighbours w')
                  (journal w' ++ [LogDebug "WorkspaceCacheManager shutdown complete"]))
         (watcher m1) (isWatching m1) [] (heard m1)
         (chokidar_made m1) (chokidar_open m1) (chokidar_faults m1)).
Proof.
  unfold shutdown. unfold bind at 1.
  pose proof (stopWatching_ok m) as Hok.
  destruct (stopWatching m) as [r m1] eqn:Hstop. cbn [fst] in Hok. subst r.
  unfold bind at 1, in_world at 1.
  assert ((deregister self (world m1)).1 = Ok tt) as Hde.
  { unfold deregister, try_catch.
    destruct ((_withLock self _ >> emit _) (world m1)) as [[[]|e] w1]; reflexivity. }
  destruct (deregister self (world m1)) as [r w'] eqn:Hrun. cbn [fst] in Hde. subst r.
  exists m1, w'. split; [done|]. split; [done|]. mg_run. done.
Qed.

(** X22. The watcher the manager holds is the only open one. In a newly
    constructed manager, and after [startWatching], [stopWatching],
    [shutdown], a change or error notification from chokidar, or the addition
    of a listener, the open watchers are exactly the one in [this.watcher], if
    any, and [isWatching] is true exactly when there is one: no watcher is
    leaked and none is held that is closed (a close that fails is taken to
    leave the watcher open). *)
Theorem the_held_watcher_is_the_only_open_one (self : Process) (m : Manager) :
  (∀ w plan, one_watcher (constructor w plan)) ∧
  (one_watcher m →
     one_watcher (startWatching m).2 ∧
     one_watcher (stopWatching m).2 ∧
     one_watcher (shutdown self m).2 ∧
     one_watcher (cache_file_changed m).2 ∧
     (∀ error, one_watcher (watcher_failed error m).2) ∧
     (∀ l, one_watcher (on_workspacesUpdated l m).2)).
Proof.
  split; [intros w plan; split; [done|]; split; [done | by intros [? ?]]|].
  intros Hinv.
  split; [by apply startWatching_one_watcher|].
  split; [by apply stopWatching_one_watcher|].
  split.
  { destruct (shutdown_run self m) as (m1 & w' & Hstop & _ & ->).
    pose proof (stopWatching_one_watcher m Hinv) as [H1 H2].
    rewrite Hstop in H1, H2. split; done. }
  split; [eapply one_watcher_same; [apply cache_file_changed_same_watch | done]|].
  split; [intros error; eapply one_watcher_same; [apply watcher_failed_same_watch | done]|].
  intros l. destruct Hinv. split; done.
Qed.

(** X23. [startWatching] changes neither the cache file nor the listeners.
    When it returns, the manager is watching and a further [startWatching]
    does nothing at all; a manager that was watching already is unchanged;
    otherwise the watcher held is the one just made, added to the open ones.
    When it throws, the manager was not watching and is not, no watcher was
    opened, the error is the one [chokidar.watch] failed with, and the last
    thing logged is WORKSPACE_CACHE_WATCH_START_ERROR with its message. *)
Theorem startWatching_starts_at_most_one_watcher (m : Manager) :
  let r := (startWatching m).1 in
  let m1 := (startWatching m).2 in
  cacheFile (world m1) = cacheFile (world m) ∧
  listeners m1 = listeners m ∧ heard m1 = heard m ∧
  (r = Ok tt →
     isWatching m1 = true ∧
     startWatching m1 = (Ok tt, m1) ∧
     (isWatching m = true → m1 = m) ∧
     (isWatching m = false →
        watcher m1 = Some (chokidar_made m) ∧
        chokidar_open m1 = chokidar_open m ++ [chokidar_made m])) ∧
  (∀ e, r = Throw e →
     isWatching m = false ∧ isWatching m1 = false ∧ watcher m1 = watcher m ∧
     chokidar_open m1 = chokidar_open m ∧
     head (chokidar_faults m) = Some (Some e) ∧
     last (journal (world m1)) =
       Some (LogError "WORKSPACE_CACHE_WATCH_START_ERROR" (err_message e))).
Proof.
  destruct m as [[c lock fs nbs jr] wt iw ls hd made opn plan].
  unfold startWatching. mg_run. destruct iw.
  - cbn. repeat split; try done.
  - mg_run. destruct plan as [|[e|] plan]; mg_run; cbn.
    + repeat split; try done.
    + split; [done|]. split; [done|]. split; [done|]. split; [done|].
      intros e' [= <-]. repeat split; try done. by rewrite last_snoc.
    + repeat split; try done.
Qed.

(** X24. [stopWatching] never throws and changes neither the cache file nor
    the listeners. A manager that is not watching or holds no watcher is left
    unchanged. Otherwise, when the close fails, the manager still says it is
    watching and still holds the watcher, which stays open, and the last thing
    logged is WORKSPACE_CACHE_WATCH_STOP_ERROR with the message of the
    failure; when the close succeeds, the manager is no longer watching, holds
    no watcher, the closed watcher is not open and the other open watchers
    still are. *)
Theorem stopWatching_never_raises (m : Manager) :
  let m' := (stopWatching m).2 in
  (stopWatching m).1 = Ok tt ∧
  cacheFile (world m') = cacheFile (world m) ∧
  listeners m' = listeners m ∧ heard m' = heard m ∧
  (isWatching m = false ∨ watcher m = None → m' = m) ∧
  (∀ handle, isWatching m = true → watcher m = Some handle →
     match head (chokidar_faults m) with
     | Some (Some e) =>
         isWatching m' = true ∧ watcher m' = Some handle ∧
         chokidar_open m' = chokidar_open m ∧
         last (journal (world m')) =
           Some (LogError "WORKSPACE_CACHE_WATCH_STOP_ERROR" (err_message e))
     | _ =>
         isWatching m' = false ∧ watcher m' = None ∧ (handle ∉ chokidar_open m') ∧
         (∀ n, n ≠ handle → n ∈ chokidar_open m → n ∈ chokidar_open m')
     end).
Proof.
  destruct m as [[c lock fs nbs jr] wt iw ls hd made opn plan].
  unfold stopWatching. mg_run. destruct iw.
  - destruct wt as [handle|].
    + destruct plan as [|[e|] plan]; mg_run; cbn.
      * split; [done|]. split; [done|]. split; [done|]. split; [done|].
        split; [by intros [?|?]|]. intros ? _ [= <-].
        split; [done|]. split; [done|]. split.
        -- intros Hin. apply list_elem_of_filter in Hin as [Hne _]. by apply Hne.
        -- intros n Hne Hin. apply list_elem_of_filter. done.
      * split; [done|]. split; [done|]. split; [done|]. split; [done|].
        split; [by intros [?|?]|]. intros ? _ [= <-].
        split; [done|]. split; [done|]. split; [done|]. by rewrite last_snoc.
      * split; [done|]. split; [done|]. split; [done|]. split; [done|].
        split; [by intros [?|?]|]. intros ? _ [= <-].
        split; [done|]. split; [done|]. split.
        -- intros Hin. apply list_elem_of_filter in Hin as [Hne _]. by apply Hne.
        -- intros n Hne Hin. apply list_elem_of_filter. done.
    + cbn. repeat split; try done.
  - cbn. repeat split; try done.
Qed.

Lemma cache_file_changed_unheard (m : Manager) :
  listeners m = [] →
  (cache_file_changed m).1 = Ok tt ∧ heard (cache_file_changed m).2 = heard m.
Proof.
  intros Hls. unfold cache_file_changed, bind at 1, get at 1.
  pose proof (for_of_same (chokidar_open m) on_change
                (λ m m', listeners m = [] → listeners m' = [] ∧ heard m' = heard m)) as Hfor.
  cbn beta in Hfor.
  destruct Hfor with (m := m) as [Hok Hsame].
  - intros m0 H0. done.
  - intros m1 m2 m3 H12 H23 H1. destruct (H12 H1) as [H2 Hh2].
    destruct (H23 H2) as [H3 Hh3]. split; congruence.
  - intros m0. destruct (on_change_run m0) as (w' & hs & -> & _ & _ & Hhs).
    split; [done|]. intros H0. cbn. split; [done|].
    destruct Hhs as [->|[doc ->]]; [by rewrite app_nil_r|].
    rewrite H0. cbn. by rewrite app_nil_r.
  - split; [done|]. by apply Hsame.
Qed.

(** X26. [shutdown] never throws, from every state. Afterwards no listener
    is left and none was called; a change notification that still arrives
    (the watcher may have failed to close) reaches nobody. With the lock free,
    the cache file readable and no [fs] failure, the caller's row is gone from
    the registry, the other rows are as before and no lock file is left. When
    the manager held the only open watcher and the close does not fail, no
    watcher is open afterwards. *)
Theorem shutdown_never_raises_and_silences_the_listeners (self : Process) (m : Manager) :
  let m' := (shutdown self m).2 in
  (shutdown self m).1 = Ok tt ∧
  listeners m' = [] ∧
  heard m' = heard m ∧
  (cache_file_changed m').1 = Ok tt ∧
  heard (cache_file_changed m').2 = heard m ∧
  (∀ doc, lockFile (world m) = None → faults (world m) = [] →
          readable (cacheFile (world m)) = Some doc →
          readable (cacheFile (world m')) = Some (delete (cwd self) doc) ∧
          lockFile (world m') = None) ∧
  (one_watcher m → (∀ e, head (chokidar_faults m) ≠ Some (Some e)) →
     isWatching m' = false ∧ watcher m' = None ∧ chokidar_open m' = []).
Proof.
  intros m'. subst m'.
  destruct (shutdown_run self m) as (m1 & w' & Hstop & Hde & Hshut). rewrite Hshut.
  cbn [fst snd listeners heard world cacheFile lockFile isWatching watcher chokidar_open].
  destruct (stopWatching_frame m) as (Hc & Hl & Hf & _ & Hh). rewrite Hstop in Hc, Hl, Hf, Hh.
  cbn [snd] in Hc, Hl, Hf, Hh.
  split; [done|]. split; [done|]. split; [done|].
  match goal with |- context [cache_file_changed ?x] =>
    destruct (cache_file_changed_unheard x eq_refl) as [Hok Hun] end.
  split; [done|]. split; [by rewrite Hun|]. split.
  - intros doc Hlock Hfs Hdoc.
    destruct (deregister_clean self (world m1) doc) as (w3 & Hde' & Hread & Hl3 & _);
      [congruence | congruence | congruence |].
    rewrite Hde in Hde'. injection Hde' as ->. done.
  - intros Hinv Hclose.
    pose proof (stopWatching_one_watcher m Hinv) as [Hopen Hiw]. rewrite Hstop in Hopen, Hiw.
    cbn [snd] in Hopen, Hiw.
    assert (isWatching m1 = false) as Hoff.
    { destruct m as [w wt iw ls hd made opn plan]. destruct Hinv as [Ho Hi].
      cbn [chokidar_open watcher isWatching chokidar_faults] in *.
      unfold stopWatching in Hstop. revert Hstop. mg_run. destruct iw.
      - destruct wt as [handle|]; [|destruct Hi as [Hi _]; by destruct (Hi eq_refl)].
        destruct plan as [|[e|] plan]; mg_run.
        + by intros [= <-].
        + by destruct (Hclose e).
        + by intros [= <-].
      - by intros [= <-]. }
    split; [done|].
    assert (watcher m1 = None) as Hnone.
    { destruct (watcher m1) eqn:Hw; [|done]. destruct Hiw as [_ Hiw].
      rewrite Hoff in Hiw. by discriminate Hiw. }
    split; [done|]. by rewrite Hopen, Hnone.
Qed.

End watching.

Section registry_more_samples.
Import WorkspaceCache CacheSpec CacheFrame CacheProbe CacheSamples.
Import CacheManager CacheManagerSpec CacheManagerSamples.

Lemma getActiveWorkspaces_is_a_safe_read_witness :
  no_fault_next free_world ∧ (getActiveWorkspaces free_world).1 = Ok sample_doc.
Proof.
  split; [exact I|].
  destruct (getActiveWorkspaces_is_a_safe_read free_world)
    as (doc & w' & Hrun & _ & _ & _ & Hdoc).
  rewrite Hrun. cbn [fst]. rewrite (Hdoc I). reflexivity.
Defined.

Lemma abandoned_lock_file_wedges_the_registry_witness :
  (lockFile held_world = Some 999%Z ∧ faults held_world = [] ∧
   Forall (λ nb, nb ≠ ReleasesLock) (neighbours held_world)) ∧
  (register this_process 37373 held_world).1 =
    Throw (new_Error "Failed to acquire lock after 10 attempts") ∧
  cacheFile (deregister this_process held_world).2 = Some (JsonText sample_doc).
Proof.
  assert (Forall (λ nb, nb ≠ ReleasesLock) (neighbours held_world)) as Hnbs by constructor.
  split; [split; [reflexivity|]; split; [reflexivity | exact Hnbs]|].
  destruct (abandoned_lock_file_wedges_the_registry this_process sample_kill held_world
              999%Z 37373 eq_refl eq_refl Hnbs) as (Hreg & _ & _ & Hde & _).
  split; [exact Hreg | exact Hde].
Defined.

Lemma lock_released_within_the_budget_witness :
  neighbours released_world = replicate 2 Idle ++ [ReleasesLock] ∧
  (_withLock this_process (ret tt) released_world).1 = Ok tt.
Proof.
  split; [reflexivity|].
  destruct (lock_released_within_the_budget this_process (ret tt) released_world 999%Z 2 []
              eq_refl eq_refl eq_refl) as [Hsoon _].
  destruct Hsoon as (w1 & _ & _ & _ & Hrun); [lia|].
  apply (Hrun (Ok tt) (lock_created this_process w1)); [reflexivity|].
  intros e He. discriminate He.
Defined.

Lemma critical_section_EEXIST_is_taken_for_a_held_lock_witness :
  has_code (SystemError "EEXIST" "file already exists") "EEXIST" = true ∧
  (_withLock this_process (throw (SystemError "EEXIST" "file already exists")) free_world).1 =
    Throw (new_Error "Failed to acquire lock after 10 attempts").
Proof.
  split; [reflexivity|].
  destruct (critical_section_EEXIST_is_taken_for_a_held_lock this_process free_world
              (SystemError "EEXIST" "file already exists") eq_refl eq_refl eq_refl eq_refl)
    as (w' & Hrun & _).
  rewrite Hrun. reflexivity.
Defined.

Lemma one_row_per_directory_witness :
  cwd this_process = cwd second_process ∧
  ∃ w1 w2 w3 doc3,
    register this_process 37373 free_world = (Ok tt, w1) ∧
    register second_process 37374 w1 = (Ok tt, w2) ∧
    deregister this_process w2 = (Ok tt, w3) ∧
    cacheFile w3 = Some (JsonText doc3) ∧
    doc3 !! "/home/dev/project" = None.
Proof.
  split; [reflexivity|].
  destruct (one_row_per_directory this_process second_process 37373 37374 free_world
              sample_doc eq_refl eq_refl eq_refl)
    as (w1 & w2 & doc2 & Hreg1 & Hreg2 & _ & _ & _ & _ & Hshared).
  destruct (Hshared eq_refl) as (w3 & doc3 & Hde & Hc & Hgone & _).
  exists w1, w2, w3, doc3. split; [exact Hreg1|]. split; [exact Hreg2|].
  split; [exact Hde|]. split; [exact Hc | exact Hgone].
Defined.

Lemma cleanup_again_writes_nothing_witness :
  readable (cacheFile free_world) = Some sample_doc ∧
  cacheFile (cleanupStaleEntries sample_kill second_process
               (cleanupStaleEntries sample_kill this_process free_world).2).2 =
  cacheFile (cleanupStaleEntries sample_kill this_process free_world).2.
Proof.
  split; [reflexivity|].
  destruct (cleanup_again_writes_nothing sample_kill sample_kill this_process
              second_process free_world sample_doc eq_refl eq_refl eq_refl)
    as (_ & Hsame & _).
  { intros k e _ Hpass. exact Hpass. }
  exact Hsame.
Defined.

Lemma initialize_creates_only_a_missing_cache_file_witness :
  no_fault_coded "ENOENT" denied_world ∧
  (initialize denied_world).1 = Throw (SystemError "EACCES" "permission denied") ∧
  cacheFile (initialize denied_world).2 = cacheFile denied_world.
Proof.
  assert (no_fault_coded "ENOENT" denied_world) as Hfs.
  { intros e He. apply list_elem_of_singleton in He. injection He as ->. reflexivity. }
  split; [exact Hfs|]. split; [reflexivity|].
  destruct (initialize_creates_only_a_missing_cache_file denied_world Hfs)
    as (_ & _ & Hkept & _).
  apply Hkept. eexists. reflexivity.
Defined.

Lemma the_held_watcher_is_the_only_open_one_witness :
  one_watcher watching_manager ∧
  one_watcher (shutdown this_process watching_manager).2.
Proof.
  assert (one_watcher watching_manager) as Hinv.
  { split; [reflexivity|]. split; [intros _; eexists; reflexivity | reflexivity]. }
  split; [exact Hinv|].
  destruct (the_held_watcher_is_the_only_open_one this_process watching_manager)
    as [_ Hstep].
  destruct (Hstep Hinv) as (_ & _ & Hshutdown & _). exact Hshutdown.
Defined.

Lemma stopWatching_never_raises_witness :
  isWatching watching_manager = true ∧ watcher watching_manager = Some 0 ∧
  isWatching (stopWatching watching_manager).2 = true ∧
  watcher (stopWatching watching_manager).2 = Some 0.
Proof.
  split; [reflexivity|]. split; [reflexivity|].
  destruct (stopWatching_never_raises watching_manager) as (_ & _ & _ & _ & _ & Hheld).
  destruct (Hheld 0 eq_refl eq_refl) as (Hon & Hw & _). split; [exact Hon | exact Hw].
Defined.

Lemma change_handler_never_raises_witness :
  no_fault_next (world watching_manager) ∧
  readable (cacheFile (world watching_manager)) = Some sample_doc ∧
  heard (on_change watching_manager).2 = [(1, sample_doc); (2, sample_doc)] ∧
  last (journal (world (on_change watching_manager).2)) =
    Some (LogError "WORKSPACE_CACHE_WATCH_ERROR" "listener failed").
Proof.
  split; [exact I|]. split; [reflexivity|].
  destruct (change_handler_never_raises watching_manager)
    as (_ & _ & _ & _ & _ & _ & Hclean & _).
  destruct (Hclean sample_doc I eq_refl) as (Hheard & Hlast & _).
  split; [rewrite Hheard; reflexivity | rewrite Hlast; reflexivity].
Defined.

Lemma shutdown_never_raises_and_silences_the_listeners_witness :
  (lockFile (world watching_manager) = None ∧ faults (world watching_manager) = [] ∧
   readable (cacheFile (world watching_manager)) = Some sample_doc) ∧
  (shutdown this_process watching_manager).1 = Ok tt ∧
  readable (cacheFile (world (shutdown this_process watching_manager).2)) =
    Some (delete "/home/dev/project" sample_doc) ∧
  (one_watcher idle_manager ∧ chokidar_open (shutdown this_process idle_manager).2 = []).
Proof.
  split; [split; [reflexivity|]; split; reflexivity|].
  destruct (shutdown_never_raises_and_silences_the_listeners this_process watching_manager)
    as (Hok & _ & _ & _ & _ & Hclean & _).
  split; [exact Hok|].
  destruct (Hclean sample_doc eq_refl eq_refl eq_refl) as [Hread _].
  split; [exact Hread|].
  assert (one_watcher idle_manager) as Hinv.
  { split; [reflexivity|]. split; [intros Hon; discriminate Hon | intros [n Hn]; discriminate Hn]. }
  split; [exact Hinv|].
  destruct (shutdown_never_raises_and_silences_the_listeners this_process idle_manager)
    as (_ & _ & _ & _ & _ & _ & Hclosed).
  destruct (Hclosed Hinv) as (_ & _ & Hopen); [intros e He; discriminate He | exact Hopen].
Defined.

End registry_more_samples.
